(** * REDDStore: the REDD adapter of nilmtk (nilmtk/reddstore.py)

    A shallow embedding of the module and the properties of its three
    operations: [load], [load_metadata] and [elements_below_key].

    Conventions of the embedding.
    - Python is read as Python 3 (3.7 or later): [dict] keeps insertion
      order, [int()] accepts single underscores between digits.
    - A [str] is a [string] whose characters are code points below 256.
    - Python integers are [Z].
    - An exception is a value of [exn]; a call that can raise returns
      [exn + A].
    - Dicts and lists that can be shared (the static table, the copies of
      its entries, the metadata dicts that refer to them) live in a heap of
      objects addressed by references; objects that nothing else refers
      to (the [labels] dict, lists of lines, rows or names) are values. *)

From Stdlib Require Import ZArith Lia Ascii Sorting.Sorted.
From stdpp Require Import base list strings pretty sorting.

Open Scope string_scope.
Open Scope list_scope.
Open Scope stdpp_scope.
Open Scope Z_scope.

Set Warnings "-register-all".

(** ** Python values and exceptions *)

(** Immutable values: [None], [bool], [int], [str], and the measurement
    tag [Power('active')]. *)
Inductive atom :=
| ANone
| ABool (b : bool)
| AInt (z : Z)
| AStr (s : string)
| APower (s : string).

#[global] Instance atom_eq_dec : EqDecision atom.
Proof. solve_decision. Defined.

Inductive exn :=
| ValueError (msg : string)
| KeyError (key : atom)
| IndexError (msg : string)
| TypeError (msg : string)
| AssertionError
| IOError (path : string)
| RecursionError
| Unmodelled (what : string).

Definition result (A : Type) : Type := exn + A.

Definition rbind {A B} (r : result A) (f : A → result B) : result B :=
  match r with
  | inl e => inl e
  | inr x => f x
  end.

(** ** Strings: the [str] methods the module calls *)

(** [str.isspace] on one character (code points below 256). *)
Definition is_space (a : ascii) : bool :=
  let n := N_of_ascii a in
  (((9 <=? n) && (n <=? 13)) || ((28 <=? n) && (n <=? 32))
   || (n =? 133) || (n =? 160))%N.

Fixpoint lstrip (s : string) : string :=
  match s with
  | EmptyString => EmptyString
  | String a s' => if is_space a then lstrip s' else s
  end.

Fixpoint rstrip (s : string) : string :=
  match s with
  | EmptyString => EmptyString
  | String a s' =>
      match rstrip s' with
      | EmptyString => if is_space a then EmptyString else String a EmptyString
      | r => String a r
      end
  end.

(** [s.strip()] *)
Definition strip (s : string) : string := rstrip (lstrip s).

(** [s.split(sep)] for a one-character separator: never empty, adjacent
    separators give empty fields. *)
Fixpoint split (sep : ascii) (s : string) : list string :=
  match s with
  | EmptyString => [EmptyString]
  | String a s' =>
      if Ascii.eqb a sep then EmptyString :: split sep s'
      else match split sep s' with
           | w :: ws => String a w :: ws
           | [] => [String a EmptyString]
           end
  end.

Definition digit_of (a : ascii) : option Z :=
  let n := N_of_ascii a in
  if ((48 <=? n) && (n <=? 57))%N then Some (Z.of_N n - 48) else None.

(** Digits of a decimal literal, single underscores allowed between digits. *)
Fixpoint int_digits (acc : Z) (after_digit : bool) (s : string) : option Z :=
  match s with
  | EmptyString => if after_digit then Some acc else None
  | String a s' =>
      match digit_of a with
      | Some d => int_digits (10 * acc + d) true s'
      | None =>
          if Ascii.eqb a "_" && after_digit then int_digits acc false s'
          else None
      end
  end.

(** The white space that [int()] drops around a literal: of the code
    points below 256, the characters of [str.isspace] other than U+001C to
    U+001F, which [int()] leaves in place and then rejects. *)
Definition is_int_space (a : ascii) : bool :=
  let n := N_of_ascii a in
  (((9 <=? n) && (n <=? 13)) || (n =? 32) || (n =? 133) || (n =? 160))%N.

Fixpoint int_lstrip (s : string) : string :=
  match s with
  | EmptyString => EmptyString
  | String a s' => if is_int_space a then int_lstrip s' else s
  end.

Fixpoint int_rstrip (s : string) : string :=
  match s with
  | EmptyString => EmptyString
  | String a s' =>
      match int_rstrip s' with
      | EmptyString =>
          if is_int_space a then EmptyString else String a EmptyString
      | r => String a r
      end
  end.

(** [int(s)]: surrounding whitespace is dropped, then an optional sign and
    a decimal literal; [None] stands for the ValueError. *)
Definition py_int (s : string) : option Z :=
  match int_rstrip (int_lstrip s) with
  | String "-" ds => Z.opp <$> int_digits 0 false ds
  | String "+" ds => int_digits 0 false ds
  | ds => int_digits 0 false ds
  end.

(** [repr(s)] of a [str]: quoted with ['], or with the double quote when
    the text holds a ['] and no double quote; the quote and the backslash
    are escaped, tab, line feed and carriage return are written with their
    letter, and every other character that is not printable as two
    hexadecimal digits. *)
Definition double_quote : ascii := ascii_of_nat 34.

Definition is_printable (a : ascii) : bool :=
  let n := N_of_ascii a in
  (((32 <=? n) && (n <=? 126)) || ((161 <=? n) && negb (n =? 173)))%N.

Definition hex_digit (n : N) : ascii :=
  match n with
  | 0 => "0" | 1 => "1" | 2 => "2" | 3 => "3" | 4 => "4" | 5 => "5"
  | 6 => "6" | 7 => "7" | 8 => "8" | 9 => "9" | 10 => "a" | 11 => "b"
  | 12 => "c" | 13 => "d" | 14 => "e" | _ => "f"
  end%char%N.

Definition repr_char (quote a : ascii) : string :=
  let n := N_of_ascii a in
  if Ascii.eqb a quote || Ascii.eqb a "\" then String "\" (String a EmptyString)
  else if (n =? 9)%N then "\t"
  else if (n =? 10)%N then "\n"
  else if (n =? 13)%N then "\r"
  else if is_printable a then String a EmptyString
  else
    String "\" (String "x" (String (hex_digit (n / 16)) (String (hex_digit (n mod 16))
                                                          EmptyString))).

Fixpoint string_has (a : ascii) (s : string) : bool :=
  match s with
  | EmptyString => false
  | String b s' => Ascii.eqb a b || string_has a s'
  end.

Fixpoint repr_chars (quote : ascii) (s : string) : string :=
  match s with
  | EmptyString => String quote EmptyString
  | String a s' => repr_char quote a +:+ repr_chars quote s'
  end.

Definition py_repr (s : string) : string :=
  let quote :=
    if string_has "'" s && negb (string_has double_quote s) then double_quote
    else "'"%char in
  String quote (repr_chars quote s).

(** ['{:d}'.format(n)] and ['{}'.format(n)] for an integer. *)
Definition format_d (n : Z) : string := pretty n.

(** [range(lo, hi)] *)
Definition range (lo hi : Z) : list Z :=
  (λ i : nat, lo + Z.of_nat i) <$> seq 0 (Z.to_nat (hi - lo)).

(** ** Dictionaries as insertion-ordered association lists *)

Section dict.
Context {K V : Type} `{EqDecision K}.

(** [d[k]] ([None] stands for the KeyError) and [k in d]. *)
Fixpoint dict_get (k : K) (d : list (K * V)) : option V :=
  match d with
  | [] => None
  | (k', v) :: d' => if decide (k = k') then Some v else dict_get k d'
  end.

(** [d[k] = v]: an existing key keeps its position, a new key goes last. *)
Fixpoint dict_set (k : K) (v : V) (d : list (K * V)) : list (K * V) :=
  match d with
  | [] => [(k, v)]
  | (k', v') :: d' =>
      if decide (k = k') then (k', v) :: d' else (k', v') :: dict_set k v d'
  end.

(** [d.keys()] *)
Definition dict_keys (d : list (K * V)) : list K := fst <$> d.

(** [d.update(other)] on values. *)
Definition dict_update_items (d other : list (K * V)) : list (K * V) :=
  foldl (λ acc kv, dict_set kv.1 kv.2 acc) d other.
End dict.

(** ** The file system and [os.path] *)

Inductive node :=
| Dir
| File (lines : list string).

(** A file system maps a path to what is there; a file holds the lines
    that [readlines()] returns (each with its line end). *)
Definition filesystem : Type := string → option node.

Definition isdir (fs : filesystem) (p : string) : bool :=
  match fs p with
  | Some Dir => true
  | _ => false
  end.

(** [open(p).readlines()] *)
Definition readlines (fs : filesystem) (p : string) : result (list string) :=
  match fs p with
  | Some (File ls) => inr ls
  | _ => inl (IOError p)
  end.

Fixpoint ends_with_slash (s : string) : bool :=
  match s with
  | EmptyString => false
  | String a EmptyString => Ascii.eqb a "/"
  | String _ s' => ends_with_slash s'
  end.

Definition starts_with_slash (s : string) : bool :=
  match s with
  | String "/" _ => true
  | _ => false
  end.

(** [os.path.join(a, b)] (posixpath). *)
Definition path_join (a b : string) : string :=
  if starts_with_slash b then b
  else if bool_decide (a = "") || ends_with_slash a then a +:+ b
  else a +:+ "/" +:+ b.

(** ** load_labels *)

(** One line of labels.dat: [labels[int(line[0])] = line[1].strip()] after
    [line = line.split(' ')]. The right-hand side is evaluated first, so a
    line without a second field raises IndexError before [int] is tried.
    The message of [int]'s ValueError shows the repr of the field, cut at
    200 characters. *)
Definition parse_label_line (line : string) : result (Z * string) :=
  let fields := split " " line in
  match fields !! 1%nat with
  | None => inl (IndexError "list index out of range")
  | Some f1 =>
      match fields !! 0%nat with
      | None => inl (IndexError "list index out of range")
      | Some f0 =>
          match py_int f0 with
          | None =>
              inl (ValueError
                     ("invalid literal for int() with base 10: "
                      +:+ String.substring 0%nat 200%nat (py_repr f0)))
          | Some n => inr (n, strip f1)
          end
      end
  end.

Fixpoint labels_of_lines (labels : list (Z * string)) (lines : list string)
  : result (list (Z * string)) :=
  match lines with
  | [] => inr labels
  | line :: rest =>
      match parse_label_line line with
      | inl e => inl e
      | inr (n, l) => labels_of_lines (dict_set n l labels) rest
      end
  end.

Definition load_labels (fs : filesystem) (data_dir : string)
  : result (list (Z * string)) :=
  let filename := path_join data_dir "labels.dat" in
  rbind (readlines fs filename) (labels_of_lines []).

(** ** The object heap *)

(** Addresses. *)
Abbreviation loc := nat (only parsing).

(** A value is immutable data or a reference to a mutable object. *)
Inductive pyval :=
| Atom (a : atom)
| Ref (l : loc).

(** Mutable objects: [dict] (insertion-ordered) and [list]. *)
Inductive obj :=
| ODict (d : list (atom * pyval))
| OList (xs : list pyval).

(** The heap: the object at address [l] is item [l]. *)
Abbreviation heap := (list obj) (only parsing).

(** Computations that read and write the heap and may raise; what was
    written before a raise stays written. *)
Definition M (A : Type) : Type := heap → result A * heap.

Definition ret {A} (x : A) : M A := λ h, (inr x, h).

Definition raise {A} (e : exn) : M A := λ h, (inl e, h).

Definition bind {A B} (m : M A) (k : A → M B) : M B :=
  λ h, match m h with
       | (inl e, h') => (inl e, h')
       | (inr x, h') => k x h'
       end.

Definition lift {A} (r : result A) : M A := λ h, (r, h).

Declare Scope heap_scope.
Delimit Scope heap_scope with heap.
Notation "'do' x <- m ; k" := (bind m (λ x, k))
  (at level 20, x name, m at level 100, k at level 200,
   format "'[v' 'do'  x  <-  m ; '/' k ']'") : heap_scope.
Notation "'do' ' p <- m ; k" := (bind m (λ x, match x with p => k end))
  (at level 20, p pattern, m at level 100, k at level 200,
   format "'[v' 'do'  ' p  <-  m ; '/' k ']'") : heap_scope.
Notation "'run' m ; k" := (bind m (λ _, k))
  (at level 20, m at level 100, k at level 200,
   format "'[v' 'run'  m ; '/' k ']'") : heap_scope.
Open Scope heap_scope.

(** A new object gets the next free address. *)
Definition alloc (o : obj) : M loc :=
  λ h, (inr (length h), h ++ [o]).

Definition read (l : loc) : M obj :=
  λ h, match h !! l with
       | Some o => (inr o, h)
       | None => (inl (Unmodelled "reference outside the heap"), h)
       end.

Definition write (l : loc) (o : obj) : M unit :=
  λ h, (inr tt, <[l := o]> h).

(** [for x in xs: body(x)] *)
Fixpoint for_each {A} (xs : list A) (body : A → M unit) : M unit :=
  match xs with
  | [] => ret tt
  | x :: xs' => run body x; for_each xs' body
  end.

(** A loop that threads an accumulator. *)
Fixpoint fold_each {A S} (xs : list A) (s : S) (body : S → A → M S) : M S :=
  match xs with
  | [] => ret s
  | x :: xs' => do s' <- body s x; fold_each xs' s' body
  end.

Definition map_each {A B} (f : A → M B) : list A → M (list B) :=
  fix go (xs : list A) : M (list B) :=
    match xs with
    | [] => ret []
    | x :: xs' => do y <- f x; do ys <- go xs'; ret (y :: ys)
    end.

(** The dict behind a value; anything else is not a mapping. *)
Definition read_dict (v : pyval) : M (list (atom * pyval)) :=
  match v with
  | Ref l =>
      do o <- read l;
      match o with
      | ODict d => ret d
      | OList _ => raise (TypeError "list where a dict is expected")
      end
  | Atom _ => raise (TypeError "not a dict")
  end.

Definition read_list (v : pyval) : M (list pyval) :=
  match v with
  | Ref l =>
      do o <- read l;
      match o with
      | OList xs => ret xs
      | ODict _ => raise (Unmodelled "dict where a list is expected")
      end
  | Atom _ => raise (Unmodelled "atom where a list is expected")
  end.

(** [d[k]] on a dict object. *)
Definition getitem (d : pyval) (k : atom) : M pyval :=
  do items <- read_dict d;
  match dict_get k items with
  | Some v => ret v
  | None => raise (KeyError k)
  end.

(** [d.get(k, default)] *)
Definition get_default (d : pyval) (k : atom) (dflt : pyval) : M pyval :=
  do items <- read_dict d;
  ret (default dflt (dict_get k items)).

(** [v[k] = x]: only a dict accepts a string key. *)
Definition setitem (v : pyval) (k : atom) (x : pyval) : M unit :=
  match v with
  | Ref l =>
      do o <- read l;
      match o with
      | ODict d => write l (ODict (dict_set k x d))
      | OList _ => raise (TypeError "list indices must be integers or slices")
      end
  | Atom _ => raise (TypeError "object does not support item assignment")
  end.

(** [xs[i]] on a list object. *)
Definition list_getitem (xs : pyval) (i : nat) : M pyval :=
  do items <- read_list xs;
  match items !! i with
  | Some v => ret v
  | None => raise (IndexError "list index out of range")
  end.

(** [xs.append(x)] *)
Definition list_append (l : loc) (x : pyval) : M unit :=
  do o <- read l;
  match o with
  | OList xs => write l (OList (xs ++ [x]))
  | ODict _ => raise (Unmodelled "append on a dict")
  end.

(** [target.update(other)] for two dict objects: the items of [other] are
    stored into [target] in order; values that are references are shared. *)
Definition update (target other : pyval) : M unit :=
  do items <- read_dict other;
  for_each items (λ kv, setitem target kv.1 kv.2).

(** ** Literals and deep copies *)

(** The shape of a literal (a display of dicts, lists and constants), and
    of what a value looks like once its references are followed. *)
Inductive tree :=
| TAtom (a : atom)
| TList (ts : list tree)
| TDict (kts : list (atom * tree)).

(** Evaluating a literal: every dict and list display makes a new object,
    inner displays first. *)
Fixpoint build (t : tree) : M pyval :=
  match t with
  | TAtom a => ret (Atom a)
  | TList ts =>
      do vs <- map_each build ts;
      do l <- alloc (OList vs);
      ret (Ref l)
  | TDict kts =>
      do kvs <- map_each (λ kt, do v <- build kt.2; ret (kt.1, v)) kts;
      do l <- alloc (ODict (dict_update_items [] kvs));
      ret (Ref l)
  end.

(** [sys.getrecursionlimit()], counted in nested objects. *)
Definition recursion_limit : nat := 300.

(** [copy.deepcopy(x, memo)]: atoms are returned as they are; a list or a
    dict is copied into a new object that is entered in the memo before
    its items are copied, so that shared and cyclic objects are copied
    once. *)
Fixpoint deepcopy_memo (depth : nat) (x : pyval) (memo : list (loc * loc))
  : M (pyval * list (loc * loc)) :=
  match x with
  | Atom _ => ret (x, memo)
  | Ref l =>
      match dict_get l memo with
      | Some l' => ret (Ref l', memo)
      | None =>
          match depth with
          | O => raise RecursionError
          | S depth' =>
              do o <- read l;
              match o with
              | OList xs =>
                  do y <- alloc (OList []);
                  do memo' <-
                    fold_each xs ((l, y) :: memo)
                      (λ memo a,
                         do '(a', memo') <- deepcopy_memo depth' a memo;
                         run list_append y a';
                         ret memo');
                  ret (Ref y, memo')
              | ODict d =>
                  do y <- alloc (ODict []);
                  do memo' <-
                    fold_each d ((l, y) :: memo)
                      (λ memo kv,
                         do '(v', memo') <- deepcopy_memo depth' kv.2 memo;
                         run setitem (Ref y) kv.1 v';
                         ret memo');
                  ret (Ref y, memo')
              end
          end
      end
  end.

(** [copy.deepcopy(x)] *)
Definition deepcopy (x : pyval) : M pyval :=
  do '(y, _) <- deepcopy_memo recursion_limit x [];
  ret y.

(** What a value looks like from outside: the tree obtained by following
    references, at most [depth] deep. Two values that Python's [==] finds
    equal item by item in the same order have the same snapshot. *)
Fixpoint snapshot (depth : nat) (h : heap) (v : pyval) : option tree :=
  match v with
  | Atom a => Some (TAtom a)
  | Ref l =>
      match depth with
      | O => None
      | S depth' =>
          match h !! l with
          | None => None
          | Some (OList xs) => TList <$> mapM (snapshot depth' h) xs
          | Some (ODict d) =>
              TDict <$> mapM (λ kv, pair kv.1 <$> snapshot depth' h kv.2) d
          end
      end
  end.

(** ** The module global MAP_REDD_LABELS_TO_NILMTK *)

(** The dict display of lines 11-64, key by key (REDD's own spellings). *)
Definition MAP_literal : tree :=
  TDict
    [ (AStr "air_conditioning",
       TDict [(AStr "appliances",
               TList [TDict [(AStr "type", TAtom (AStr "air conditioner"))]])]);
      (AStr "bathroom_gfi",
       TDict [(AStr "room", TDict [(AStr "name", TAtom (AStr "bathroom"))]);
              (AStr "category", TAtom (AStr "misc"))]);
      (AStr "dishwaser",
       TDict [(AStr "appliances",
               TList [TDict [(AStr "type", TAtom (AStr "dish washer"))]])]);
      (AStr "disposal",
       TDict [(AStr "appliances",
               TList [TDict [(AStr "type", TAtom (AStr "waste disposal unit"))]])]);
      (AStr "electric_heat",
       TDict [(AStr "appliances",
               TList [TDict [(AStr "type", TAtom (AStr "electric space heater"))]])]);
      (AStr "electronics",
       TDict [(AStr "category", TAtom (AStr "consumer electronics"))]);
      (AStr "furance",
       TDict [(AStr "appliances",
               TList [TDict [(AStr "type", TAtom (AStr "electric boiler"))]])]);
      (AStr "kitchen_outlets",
       TDict [(AStr "room", TDict [(AStr "name", TAtom (AStr "kitchen"))]);
              (AStr "category", TAtom (AStr "sockets"))]);
      (AStr "lighting",
       TDict [(AStr "category", TAtom (AStr "lighting"))]);
      (AStr "microwave",
       TDict [(AStr "appliances",
               TList [TDict [(AStr "type", TAtom (AStr "microwave"))]])]);
      (AStr "miscellaeneous",
       TDict [(AStr "category", TAtom (AStr "misc"))]);
      (AStr "outdoor_outlets",
       TDict [(AStr "room", TDict [(AStr "name", TAtom (AStr "outdoors"))]);
              (AStr "category", TAtom (AStr "sockets"))]);
      (AStr "outlets_unknown",
       TDict [(AStr "category", TAtom (AStr "sockets"))]);
      (AStr "oven",
       TDict [(AStr "appliances",
               TList [TDict [(AStr "type", TAtom (AStr "electric oven"))]])]);
      (AStr "refrigerator",
       TDict [(AStr "appliances",
               TList [TDict [(AStr "type", TAtom (AStr "fridge"))]])]);
      (AStr "smoke_alarms",
       TDict [(AStr "appliances",
               TList [TDict [(AStr "type", TAtom (AStr "smoke alarm"));
                             (AStr "multiple", TAtom (ABool true))]])]);
      (AStr "stove",
       TDict [(AStr "appliances",
               TList [TDict [(AStr "type", TAtom (AStr "electric stove"))]])]);
      (AStr "subpanel", TDict []);
      (AStr "washer_dryer",
       TDict [(AStr "appliances",
               TList [TDict [(AStr "type", TAtom (AStr "washer dryer"))]])]) ].

(** Importing the module evaluates the display on an empty heap. *)
Definition module_heap : heap :=
  Eval vm_compute in (build MAP_literal []).2.

(** The global name is bound to the outermost dict, the object made last. *)
Definition MAP_REDD_LABELS_TO_NILMTK : pyval :=
  Eval vm_compute in
    match (build MAP_literal []).1 with
    | inr v => v
    | inl _ => Atom ANone
    end.

(** The items of the table object itself: each label with the reference
    to its entry. *)
Definition table_refs : list (atom * pyval) :=
  Eval vm_compute in
    match MAP_REDD_LABELS_TO_NILMTK with
    | Ref l => match module_heap !! l with Some (ODict d) => d | _ => [] end
    | _ => []
    end.

(** The table is untouched in [h]: the objects made at import are all
    there, unchanged, at their addresses. *)
Definition table_intact (h : heap) : Prop :=
  take (length module_heap) h = module_heap.

(** ** Keys *)

(** Modelled from the spec: the Key class of nilmtk.datastore, which this
    module imports. A key has a building number, an optional meter number
    and an optional utility name. *)
Record Key := { building : Z; meter : option Z; utility : option string }.

(** A [key] argument that is a string: ['/'], or a string from which
    [Key(key)] made the given object. *)
Inductive key_arg :=
| KSlash
| KPath (key_obj : Key).

(** ** REDDStore *)

(** The store object: [self.path]. *)
Record REDDStore := { path : string }.

(** [REDDStore.__init__] *)
Definition REDDStore_init (fs : filesystem) (p : string) : result REDDStore :=
  if isdir fs p then inr {| path := p |}
  else inl (ValueError ("'" +:+ p +:+ "' is not a valid path")).

(** [REDDStore._path_for_house] *)
Definition _path_for_house (fs : filesystem) (self : REDDStore) (key_obj : Key)
  : result string :=
  let house_dir := "house_" +:+ format_d (building key_obj) in
  let p := path_join (path self) house_dir in
  if isdir fs p then inr p else inl AssertionError.

(** *** load *)

(** Modelled from the spec: the TimeFrame class of nilmtk.timeframe, a
    time span with a start, an end and a flag saying whether the end
    belongs to it. *)
Record TimeFrame := { tf_start : Z; tf_end : Z; include_end : bool }.

Section load.
(** What pandas does is taken as given: the type of a float32 sample and
    the rows [pd.read_csv] parses from the lines of a channel file (or
    the exception it raises). The conversion of line 137, from a unix time
    in seconds to a timestamp in nanoseconds, is a parameter here as well;
    what the module computes for it is [to_ns] below. *)
Variable V : Type.
Variable read_csv : list string → result (list (Z * V)).
Variable to_datetime : Z → Z.
(** Modelled from the spec: the size of the "small look-ahead buffer". *)
Variable n_look_ahead_rows : nat.

(** A frame: rows of (index, value), and the attributes put on it. *)
Record DataFrame := {
  rows : list (Z * V);
  timeframe : option TimeFrame;
  look_ahead : option (list (Z * V))
}.

Fixpoint insert_row (r : Z * V) (l : list (Z * V)) : list (Z * V) :=
  match l with
  | [] => [r]
  | r' :: l' => if r.1 <=? r'.1 then r :: l else r' :: insert_row r l'
  end.

(** [df.sort_index()]: rows in ascending index order. Rows with equal
    index keep file order here; pandas does not promise an order. *)
Definition sort_index (l : list (Z * V)) : list (Z * V) :=
  foldr insert_row [] l.

(** Modelled from the spec: interval containment of a TimeFrame. *)
Definition contains (p : TimeFrame) (t : Z) : bool :=
  (tf_start p <=? t) && (if include_end p then t <=? tf_end p else t <? tf_end p).

(** Modelled from the spec: the span common to two TimeFrames. *)
Definition intersect (p q : TimeFrame) : TimeFrame :=
  {| tf_start := Z.max (tf_start p) (tf_start q);
     tf_end := Z.min (tf_end p) (tf_end q);
     include_end :=
       if tf_end p <? tf_end q then include_end p
       else if tf_end q <? tf_end p then include_end q
       else include_end p && include_end q |}.

(** Modelled from the spec: TimeFrame.slice, "slice data to this range".
    The segment holds the rows of the frame inside the window, is tagged
    with the intersected span, and carries the look-ahead rows: the
    first rows of the frame from the window's end on. *)
Definition slice (period : TimeFrame) (df : DataFrame) : DataFrame :=
  {| rows := filter (λ r, contains period r.1 = true) (rows df);
     timeframe := intersect period <$> timeframe df;
     look_ahead :=
       Some (take n_look_ahead_rows
               (filter (λ r, tf_end period ≤ r.1) (rows df))) |}.

(** The rows of a channel once sorted and converted. *)
Definition channel_frame (raw : list (Z * V)) : list (Z * V) :=
  prod_map to_datetime id <$> sort_index raw.

(** Lines 122-140: the frame of one channel. *)
Definition read_frame (fs : filesystem) (self : REDDStore) (key_obj : Key)
  : result DataFrame :=
  rbind (_path_for_house fs self key_obj) (λ p,
  match meter key_obj with
  | None =>
      inl (TypeError "unsupported format string passed to NoneType.__format__")
  | Some m =>
      let filename := path_join p ("channel_" +:+ format_d m +:+ ".dat") in
      rbind (rbind (readlines fs filename) read_csv) (λ raw,
      let df := channel_frame raw in
      match head df, last df with
      | Some first, Some final =>
          inr {| rows := df;
                 timeframe := Some {| tf_start := first.1; tf_end := final.1;
                                      include_end := true |};
                 look_ahead := None |}
      | _, _ =>
          inl (IndexError "index 0 is out of bounds for axis 0 with size 0")
      end)
  end).

(** [REDDStore.load]: the segments the generator yields, in order, when
    it is run to its end; an exception raised before the first [yield]
    surfaces when the generator is first advanced. [periods] is [None]
    when the argument is left out. *)
Definition load (fs : filesystem) (self : REDDStore) (key_obj : Key)
    (periods : option (list TimeFrame)) : result (list DataFrame) :=
  rbind (read_frame fs self key_obj) (λ df,
  match periods with
  | Some (period :: rest) => inr ((λ p, slice p df) <$> (period :: rest))
  | _ => inr [df]
  end).
End load.

Arguments rows {V} _.
Arguments timeframe {V} _.
Arguments look_ahead {V} _.
Arguments insert_row {V} _ _.
Arguments sort_index {V} _.
Arguments channel_frame {V} _ _.
Arguments slice {V} _ _ _.
Arguments read_frame {V} _ _ _ _ _.
Arguments load {V} _ _ _ _ _ _ _.

(** *** The timestamps of line 137

    [(df.index.values*1E9).astype(int)]: the int64 index is multiplied by
    the float 1E9, which gives float64 numbers, and these are cast to
    int64. [pd.to_datetime] reads the int64 numbers as nanoseconds, and
    [tz_convert] changes how they are shown and not their order. *)

(** The float64 nearest to an integer: 53 significant bits are kept, and
    of two nearest numbers the one with an even last bit is taken. *)
Definition round_float64 (n : Z) : Z :=
  let a := Z.abs n in
  let e := Z.log2 a - 52 in
  if e <=? 0 then n
  else
    let u := 2 ^ e in
    let q := a / u in
    let r := a mod u in
    let q' :=
      if r <? u / 2 then q
      else if u / 2 <? r then q + 1
      else if Z.even q then q else q + 1 in
    Z.sgn n * (q' * u).

Definition int64_min : Z := - 2 ^ 63.

(** The cast of a float64 that holds an integer to int64, as numpy does
    it on x86-64: a number outside int64 gives the smallest int64, which
    pandas reads as NaT. *)
Definition to_int64 (x : Z) : Z :=
  if (int64_min <=? x) && (x <? 2 ^ 63) then x else int64_min.

(** The timestamp of a unix time [t] of the int64 index. Beyond 2^53
    the product is formed from the float64 nearest to [t]; it is outside
    int64 then, as is the product formed from [t]. *)
Definition to_ns (t : Z) : Z := to_int64 (round_float64 (t * 1000000000)).

(** The last unix time whose nanoseconds fit int64 (in April 2262); the
    first one is its opposite (in September 1677). *)
Definition last_second : Z := 9223372036.

(** *** load_metadata *)

(** The dict returned for ['/'] (lines 169-189). *)
Definition dataset_literal : tree :=
  TDict
    [ (AStr "meter_devices",
       TDict
         [ (AStr "eMonitor",
            TDict
              [ (AStr "model", TAtom (AStr "eMonitor"));
                (AStr "manufacturer", TAtom (AStr "Powerhouse Dynamics"));
                (AStr "manufacturer_url",
                 TAtom (AStr "http://powerhousedynamics.com"));
                (AStr "sample_period", TAtom (AInt 3));
                (AStr "max_sample_period", TAtom (AInt 50));
                (AStr "measurements", TList [TAtom (APower "active")]);
                (AStr "measurement_limits",
                 TDict [(APower "active",
                         TDict [(AStr "lower_limit", TAtom (AInt 0));
                                (AStr "upper_limit", TAtom (AInt 5000))])]) ]);
           (AStr "REDD_whole_house",
            TDict
              [ (AStr "sample_period", TAtom (AInt 1));
                (AStr "max_sample_period", TAtom (AInt 30));
                (AStr "measurements", TList [TAtom (APower "active")]);
                (AStr "measurement_limits",
                 TDict [(APower "active",
                         TDict [(AStr "lower_limit", TAtom (AInt 0));
                                (AStr "upper_limit", TAtom (AInt 50000))])]) ]) ]) ].

(** Lines 232-235: the instance number of a meter's appliances. [labels[i]]
    raises KeyError for a channel number that the label file lacks. *)
Fixpoint count_instance (labels : list (Z * string)) (redd_label : string)
    (instance : Z) (channels : list Z) : result Z :=
  match channels with
  | [] => inr instance
  | i :: rest =>
      match dict_get i labels with
      | None => inl (KeyError (AInt i))
      | Some l =>
          count_instance labels redd_label
            (if bool_decide (l = redd_label) then instance + 1 else instance)
            rest
      end
  end.

Definition invalid_building (b : Z) : exn :=
  ValueError ("Building " +:+ format_d b +:+ " is not a valid building instance.").

Definition unknown_meter (m b : Z) : exn :=
  ValueError (format_d m +:+ " is not a recognised meter instance for building "
              +:+ format_d b +:+ ".").

Definition load_metadata (fs : filesystem) (self : REDDStore) (key : key_arg)
  : M pyval :=
  match key with
  | KSlash => build dataset_literal
  | KPath key_obj =>
      if negb ((1 <=? building key_obj) && (building key_obj <=? 6))
      then raise (invalid_building (building key_obj))
      else
        match meter key_obj with
        | None =>
            build (TDict
                     [ (AStr "instance", TAtom (AInt (building key_obj)));
                       (AStr "dataset", TAtom (AStr "REDD"));
                       (AStr "original_name",
                        TAtom (AStr ("house_" +:+ format_d (building key_obj)))) ])
        | Some m =>
            do meter_metadata <-
              build (TDict
                       [ (AStr "device_model",
                          TAtom (AStr (if m =? 1 then "REDD_whole_house"
                                       else "eMonitor")));
                         (AStr "instance", TAtom (AInt m));
                         (AStr "building", TAtom (AInt (building key_obj)));
                         (AStr "dataset", TAtom (AStr "REDD")) ]);
            if m =? 1 then
              do extra <-
                build (TDict [ (AStr "site_meter", TAtom (ABool true));
                               (AStr "additional_channels",
                                TList [TAtom (AInt 2)]) ]);
              run update meter_metadata extra;
              ret meter_metadata
            else if m =? 2 then
              raise (ValueError "Mains channel 2 is loaded by meter1.")
            else
              do extra <- build (TDict [(AStr "submeter_of", TAtom (AInt 1))]);
              run update meter_metadata extra;
              do building_path <- lift (_path_for_house fs self key_obj);
              do labels <- lift (load_labels fs building_path);
              do redd_label <-
                match dict_get m labels with
                | Some l => ret l
                | None => raise (unknown_meter m (building key_obj))
                end;
              do entry <- getitem MAP_REDD_LABELS_TO_NILMTK (AStr redd_label);
              do copy <- deepcopy entry;
              run update meter_metadata copy;
              do empty <- alloc (OList []);
              do appliances <-
                get_default meter_metadata (AStr "appliances") (Ref empty);
              do items <- read_list appliances;
              run for_each (seq 0 (length items)) (λ appliance_i,
                    do instance <-
                      lift (count_instance labels redd_label 1 (range 1 m));
                    do appliance <- list_getitem appliances appliance_i;
                    setitem appliance (AStr "instance") (Atom (AInt instance)));
              ret meter_metadata
        end
  end.

(** *** elements_below_key *)

(** [key] is [None], ['/'] or a string parsed by [Key(key)]; the fresh
    list of strings that is returned is given as a value. *)
Definition elements_below_key (fs : filesystem) (self : REDDStore)
    (key : option key_arg) : result (list string) :=
  match key with
  | None | Some KSlash => inr ((λ b, "building" +:+ format_d b) <$> range 1 7)
  | Some (KPath key_obj) =>
      match meter key_obj with
      | Some _ => inl AssertionError
      | None =>
          if negb ((1 <=? building key_obj) && (building key_obj <=? 6))
          then inl (invalid_building (building key_obj))
          else
            match utility key_obj with
            | None => inr ["electric"]
            | Some _ =>
                rbind (_path_for_house fs self key_obj) (λ house_path,
                rbind (load_labels fs house_path) (λ labels,
                inr ((λ m, "meter" +:+ format_d m)
                       <$> filter (λ m, m ∉ [2]) (dict_keys labels))))
            end
      end
  end.

(** ** What the metadata looks like *)

(** The items of the static table, and the entry of a REDD label. *)
Definition MAP_items : list (atom * tree) :=
  match MAP_literal with
  | TDict kts => kts
  | _ => []
  end.

Definition table_entry (redd_label : string) : option tree :=
  dict_get (AStr redd_label) MAP_items.

Definition tree_items (t : tree) : list (atom * tree) :=
  match t with
  | TDict kts => kts
  | _ => []
  end.

(** The appliances an entry lists. *)
Definition entry_appliances (entry : tree) : list tree :=
  match dict_get (AStr "appliances") (tree_items entry) with
  | Some (TList apps) => apps
  | _ => []
  end.

(** An appliance dict with its instance number set. *)
Definition with_instance (instance : Z) (appliance : tree) : tree :=
  match appliance with
  | TDict kts => TDict (dict_set (AStr "instance") (TAtom (AInt instance)) kts)
  | _ => appliance
  end.

Definition set_instances (instance : Z) (kts : list (atom * tree))
  : list (atom * tree) :=
  (λ kt, match kt with
         | (AStr "appliances", TList apps) =>
             (AStr "appliances", TList (with_instance instance <$> apps))
         | _ => kt
         end) <$> kts.

(** The metadata of a submeter whose label has the given table entry. *)
Definition submeter_tree (b m : Z) (entry : tree) (instance : Z) : tree :=
  TDict
    (dict_update_items
       [ (AStr "device_model", TAtom (AStr "eMonitor"));
         (AStr "instance", TAtom (AInt m));
         (AStr "building", TAtom (AInt b));
         (AStr "dataset", TAtom (AStr "REDD"));
         (AStr "submeter_of", TAtom (AInt 1)) ]
       (set_instances instance (tree_items entry))).

Definition site_meter_tree (b : Z) : tree :=
  TDict
    [ (AStr "device_model", TAtom (AStr "REDD_whole_house"));
      (AStr "instance", TAtom (AInt 1));
      (AStr "building", TAtom (AInt b));
      (AStr "dataset", TAtom (AStr "REDD"));
      (AStr "site_meter", TAtom (ABool true));
      (AStr "additional_channels", TList [TAtom (AInt 2)]) ].

Definition building_tree (b : Z) : tree :=
  TDict
    [ (AStr "instance", TAtom (AInt b));
      (AStr "dataset", TAtom (AStr "REDD"));
      (AStr "original_name", TAtom (AStr ("house_" +:+ format_d b))) ].

(** What [load_metadata] answers, as a function of the key and the files
    alone: the exception, or the shape of the returned dict. *)
Definition metadata_tree (fs : filesystem) (self : REDDStore) (key : key_arg)
  : result tree :=
  match key with
  | KSlash => inr dataset_literal
  | KPath key_obj =>
      let b := building key_obj in
      if negb ((1 <=? b) && (b <=? 6)) then inl (invalid_building b)
      else
        match meter key_obj with
        | None => inr (building_tree b)
        | Some m =>
            if m =? 1 then inr (site_meter_tree b)
            else if m =? 2 then
              inl (ValueError "Mains channel 2 is loaded by meter1.")
            else
              rbind (_path_for_house fs self key_obj) (λ p,
              rbind (load_labels fs p) (λ labels,
              match dict_get m labels with
              | None => inl (unknown_meter m b)
              | Some l =>
                  match table_entry l with
                  | None => inl (KeyError (AStr l))
                  | Some entry =>
                      match entry_appliances entry with
                      | [] => inr (submeter_tree b m entry 1)
                      | _ :: _ =>
                          rbind (count_instance labels l 1 (range 1 m))
                            (λ instance, inr (submeter_tree b m entry instance))
                      end
                  end
              end))
        end
  end.

Definition snapshot_depth : nat := 8.

(** The answer of a run: the exception, or the snapshot of the value in
    the final heap. *)
Definition outcome (r : result pyval * list obj) : result tree :=
  match r.1 with
  | inl e => inl e
  | inr v =>
      match snapshot snapshot_depth r.2 v with
      | Some t => inr t
      | None => inl (Unmodelled "value too deep for a snapshot")
      end
  end.

(** The exceptions that Python itself can raise; [Unmodelled] marks a
    state that the embedding does not follow. *)
Definition modelled (e : exn) : Prop :=
  match e with
  | Unmodelled _ => False
  | _ => True
  end.

(** ** Example data *)

Definition nl : string := String (ascii_of_nat 10) EmptyString.

(** A dataset at /data/REDD with one house: its label file, and the file
    of channel 5. *)
Definition house_fs (labels channel_5 : list string) : filesystem :=
  λ p,
    if bool_decide (p = "/data/REDD") then Some Dir
    else if bool_decide (p = "/data/REDD/house_1") then Some Dir
    else if bool_decide (p = "/data/REDD/house_1/labels.dat") then
      Some (File labels)
    else if bool_decide (p = "/data/REDD/house_1/channel_5.dat") then
      Some (File channel_5)
    else None.

Definition redd : REDDStore := {| path := "/data/REDD" |}.

Definition meter_key (b m : Z) : Key :=
  {| building := b; meter := Some m; utility := Some "electric" |}.

(** Two smoke alarm circuits, on channels 5 and 9. *)
Definition smoke_labels : list string :=
  [ "1 mains" +:+ nl; "2 mains" +:+ nl; "3 oven" +:+ nl;
    "4 refrigerator" +:+ nl; "5 smoke_alarms" +:+ nl; "6 lighting" +:+ nl;
    "7 kitchen_outlets" +:+ nl; "8 microwave" +:+ nl;
    "9 smoke_alarms" +:+ nl ].

(** A label file that starts at channel 3. *)
Definition gap_labels : list string := [ "3 microwave" +:+ nl ].

(** A label file with a channel 0. *)
Definition zero_labels : list string :=
  [ "0 microwave" +:+ nl; "1 mains" +:+ nl; "2 mains" +:+ nl;
    "3 microwave" +:+ nl ].

(** A label that the static table does not have. *)
Definition unknown_labels : list string :=
  [ "1 mains" +:+ nl; "2 mains" +:+ nl; "3 heat_pump" +:+ nl ].

(** Samples of channel 5, out of time order. *)
Definition unsorted_channel : list string :=
  [ "1303132933 12.5" +:+ nl; "1303132929 10.0" +:+ nl;
    "1303132936 11.0" +:+ nl; "1303132930 9.5" +:+ nl ].

(** A reader for such lines, standing in for [pd.read_csv] in the
    examples: it keeps the sample as its text, and its exceptions are its
    own. *)
Definition text_csv (lines : list string) : result (list (Z * string)) :=
  foldr (λ line acc,
           rbind acc (λ rows,
           match split " " line with
           | [t; v] =>
               match py_int t with
               | Some n => inr ((n, strip v) :: rows)
               | None => inl (ValueError "could not convert string to float")
               end
           | _ => inl (ValueError "Error tokenizing data")
           end))
        (inr []) lines.


(** Two windows over channel 5 (timestamps in nanoseconds). *)
Definition early_window : TimeFrame :=
  {| tf_start := 1303132929000000000; tf_end := 1303132931000000000;
     include_end := false |}.

Definition late_window : TimeFrame :=
  {| tf_start := 1303132931000000000; tf_end := 1303132940000000000;
     include_end := false |}.

(** A disk without the dataset. *)
Definition empty_fs : filesystem := λ _, None.

(** ** Vocabulary of the further properties *)

(** Every character of [s] passes the test [p]. *)
Fixpoint string_forall (p : ascii → bool) (s : string) : bool :=
  match s with
  | EmptyString => true
  | String a s' => p a && string_forall p s'
  end.

(** The snapshot of a value all of whose objects have an address from
    [base] on: [None] as soon as an older object is reached. *)
Fixpoint private_snapshot (base depth : nat) (h : list obj) (v : pyval)
  : option tree :=
  match v with
  | Atom a => Some (TAtom a)
  | Ref l =>
      if (l <? base)%nat then None
      else
        match depth with
        | O => None
        | S depth' =>
            match h !! l with
            | None => None
            | Some (OList xs) =>
                TList <$> mapM (private_snapshot base depth' h) xs
            | Some (ODict d) =>
                TDict <$>
                  mapM (λ kv, pair kv.1 <$> private_snapshot base depth' h kv.2) d
            end
        end
  end.

(** The answer of a run, read through the objects made from address
    [base] on alone. *)
Definition private_outcome (base : nat) (r : result pyval * list obj)
  : result tree :=
  match r.1 with
  | inl e => inl e
  | inr v =>
      match private_snapshot base snapshot_depth r.2 v with
      | Some t => inr t
      | None => inl (Unmodelled "value reaches an older object")
      end
  end.

(** A label file with Windows line ends and a repeated channel. *)
Definition repeated_labels : list string :=
  [ "1 mains" +:+ nl; "3 oven" +:+ nl; "2 mains" +:+ nl;
    "3 stove" +:+ String (ascii_of_nat 13) nl ].

(** A label file whose third line is blank. *)
Definition blank_line_labels : list string :=
  [ "1 mains" +:+ nl; "2 mains" +:+ nl; nl; "x oven" +:+ nl ].


(** A dataset whose house_2 has the file of channel 5 and no label file. *)
Definition unlabelled_fs : filesystem :=
  λ p,
    if bool_decide (p = "/data/REDD/house_2") then Some Dir
    else if bool_decide (p = "/data/REDD/house_2/channel_5.dat") then
      Some (File unsorted_channel)
    else None.

(** What [path_join] puts before a relative name. *)
Definition join_prefix (a : string) : string :=
  if bool_decide (a = "") || ends_with_slash a then a else a +:+ "/".

(** * Proofs *)

(** ** Running heap computations on a heap [H ++ new]

    [H] is the heap at the start of a call, [new] the objects made since;
    an address made during the call has the form [length H + i]. *)

Section steps.
Context {A B : Type}.
Implicit Types (k : A → M B) (h H new : list obj) (R : result B * list obj).

Lemma step_assoc {C} (m : M C) (f : C → M A) k h R :
  bind m (λ x, bind (f x) k) h = R → bind (bind m f) k h = R.
Proof. intros <-. unfold bind. by destruct (m h) as [[e|x] h']. Qed.

Lemma step_ret x k h R : k x h = R → bind (ret x) k h = R.
Proof. done. Qed.

Lemma step_raise e k h : bind (raise e) k h = (inl e, h).
Proof. done. Qed.

Lemma step_lift_inr x k h R : k x h = R → bind (lift (inr x)) k h = R.
Proof. done. Qed.

Lemma step_lift_inl e k h : bind (lift (inl e)) k h = (inl e, h).
Proof. done. Qed.
End steps.

Lemma step_alloc {B} o (k : nat → M B) (H new : list obj) R :
  k (length H + length new)%nat (H ++ (new ++ [o])) = R →
  bind (alloc o) k (H ++ new) = R.
Proof. intros <-. unfold bind, alloc. by rewrite length_app, app_assoc. Qed.

Lemma step_read_fresh {B} (k : obj → M B) (H new : list obj) (i : nat) o R :
  new !! i = Some o →
  k o (H ++ new) = R →
  bind (read (length H + i)%nat) k (H ++ new) = R.
Proof.
  intros Hi <-. unfold bind, read.
  rewrite lookup_app_r by lia.
  replace (length H + i - length H)%nat with i by lia. by rewrite Hi.
Qed.

Lemma step_read_old {B} (k : obj → M B) (H new : list obj) (l : nat) o R :
  H !! l = Some o →
  k o (H ++ new) = R →
  bind (read l) k (H ++ new) = R.
Proof.
  intros Hl <-. unfold bind, read. by rewrite (lookup_app_l_Some _ _ _ _ Hl).
Qed.

Lemma step_write_fresh {B} (k : unit → M B) (H new : list obj) (i : nat) o R :
  k tt (H ++ <[i:=o]> new) = R →
  bind (write (length H + i)%nat o) k (H ++ new) = R.
Proof. intros <-. unfold bind, write. by rewrite insert_app_r. Qed.

Lemma bind_id_r {A} (m : M A) h : m h = bind m ret h.
Proof. unfold bind, ret. by destruct (m h) as [[e|x] h']. Qed.

Lemma table_static (H : list obj) :
  table_intact H → ∀ l o, module_heap !! l = Some o → H !! l = Some o.
Proof.
  unfold table_intact. intros HH l o Hl. rewrite <- HH in Hl.
  by apply lookup_take_Some in Hl as [? _].
Qed.

Lemma step_getitem_MAP {B} (k : pyval → M B) (H new : list obj) key :
  table_intact H →
  bind (getitem MAP_REDD_LABELS_TO_NILMTK key) k (H ++ new) =
  match dict_get key table_refs with
  | Some v => k v (H ++ new)
  | None => (inl (KeyError key), H ++ new)
  end.
Proof.
  intros HH. unfold getitem, read_dict, MAP_REDD_LABELS_TO_NILMTK.
  do 2 apply step_assoc.
  eapply step_read_old; [by apply (table_static _ HH)|].
  cbn beta iota. apply step_ret. fold table_refs.
  by destruct (dict_get key table_refs).
Qed.

Lemma deepcopy_memo_atom depth a memo :
  deepcopy_memo depth (Atom a) memo = ret (Atom a, memo).
Proof. by destruct depth. Qed.

Lemma deepcopy_memo_ref depth l memo :
  deepcopy_memo (S depth) (Ref l) memo =
  match dict_get l memo with
  | Some l' => ret (Ref l', memo)
  | None =>
      do o <- read l;
      match o with
      | OList xs =>
          do y <- alloc (OList []);
          do memo' <-
            fold_each xs ((l, y) :: memo)
              (λ memo a,
                 do '(a', memo') <- deepcopy_memo depth a memo;
                 run list_append y a';
                 ret memo');
          ret (Ref y, memo')
      | ODict d =>
          do y <- alloc (ODict []);
          do memo' <-
            fold_each d ((l, y) :: memo)
              (λ memo kv,
                 do '(v', memo') <- deepcopy_memo depth kv.2 memo;
                 run setitem (Ref y) kv.1 v';
                 ret memo');
          ret (Ref y, memo')
      end
  end.
Proof. reflexivity. Qed.

Ltac heap_norm :=
  unfold update, setitem, get_default, read_dict, read_list, list_getitem,
    list_append, deepcopy;
  try simpl (dict_get _ _); try simpl (dict_set _ _ _);
  try simpl (<[_:=_]> _); try simpl (_ !! _);
  cbn beta iota delta [build map_each for_each fold_each fst snd length app
                       dict_update_items foldl seq default from_option id].

Ltac heap_step Hs :=
  lazymatch goal with
  | |- bind (bind _ _) _ _ = _ => apply step_assoc
  | |- bind (ret _) _ _ = _ => apply step_ret; heap_norm
  | |- bind (raise _) _ _ = _ => apply step_raise
  | |- bind (lift (inr _)) _ _ = _ => apply step_lift_inr; heap_norm
  | |- bind (lift (inl _)) _ _ = _ => apply step_lift_inl
  | |- bind (lift ?t) _ _ = _ =>
      match goal with Hx : t = _ |- _ => rewrite Hx end
  | |- bind (alloc _) _ (_ ++ _) = _ => apply step_alloc; heap_norm
  | |- bind (read (length ?H + _)%nat) _ (?H ++ _) = _ =>
      eapply step_read_fresh; [reflexivity|]; heap_norm
  | |- bind (read _) _ (_ ++ _) = _ =>
      eapply step_read_old; [apply Hs; reflexivity|]; heap_norm
  | |- bind (write (length ?H + _)%nat _) _ (?H ++ _) = _ =>
      apply step_write_fresh; heap_norm
  | |- bind (getitem MAP_REDD_LABELS_TO_NILMTK _) _ _ = _ =>
      rewrite step_getitem_MAP by assumption;
      try match goal with
          | Hx : dict_get ?k table_refs = _ |- _ => rewrite Hx
          end;
      heap_norm
  | |- bind (deepcopy_memo recursion_limit _ _) _ _ = _ =>
      match goal with Hx : recursion_limit = _ |- _ => rewrite Hx end
  | |- bind (deepcopy_memo _ (Atom _) _) _ _ = _ =>
      rewrite deepcopy_memo_atom
  | |- bind (deepcopy_memo (S _) (Ref _) _) _ _ = _ =>
      rewrite deepcopy_memo_ref; heap_norm
  | |- match dict_get ?k ?d with _ => _ end = _ =>
      match goal with Hx : dict_get k d = _ |- _ => rewrite Hx end
  | |- bind (match dict_get ?k ?d with _ => _ end) _ _ = _ =>
      match goal with Hx : dict_get k d = _ |- _ => rewrite Hx end
  end.

Ltac heap_run Hs := rewrite bind_id_r; heap_norm; repeat heap_step Hs.

Lemma snapshot_fresh d (H new : list obj) (i : nat) o :
  new !! i = Some o →
  snapshot (S d) (H ++ new) (Ref (length H + i)%nat) =
  match o with
  | OList xs => TList <$> mapM (snapshot d (H ++ new)) xs
  | ODict kvs => TDict <$> mapM (λ kv, pair kv.1 <$> snapshot d (H ++ new) kv.2) kvs
  end.
Proof.
  intros Hi. cbn [snapshot]. rewrite lookup_app_r by lia.
  replace (length H + i - length H)%nat with i by lia. by rewrite Hi.
Qed.

Lemma snapshot_atom d (h : list obj) a : snapshot d h (Atom a) = Some (TAtom a).
Proof. by destruct d. Qed.

Ltac snapshot_step :=
  first
    [ erewrite snapshot_fresh by reflexivity
    | rewrite snapshot_atom
    | progress cbn [mapM fmap option_fmap option_map mbind option_bind mret option_ret fst snd] ].

Lemma dict_get_None {K V} `{EqDecision K} (k : K) (d : list (K * V)) :
  dict_get k d = None ↔ k ∉ dict_keys d.
Proof.
  unfold dict_keys. induction d as [|[k' v] d IH]; cbn.
  - split; [intros _; apply not_elem_of_nil | done].
  - rewrite not_elem_of_cons. destruct (decide (k = k')) as [->|Hne].
    + split; [done|]. by intros [? _].
    + rewrite IH. split; [by intros ?|by intros [_ ?]].
Qed.


Ltac outcome_run :=
  unfold outcome, snapshot_depth; cbn [fst snd];
  repeat snapshot_step; reflexivity.

Ltac metadata_run Hs :=
  eexists _, _; split; [heap_run Hs; reflexivity | try reflexivity; outcome_run].

Lemma table_refs_keys : dict_keys table_refs = dict_keys MAP_items.
Proof. reflexivity. Qed.

Lemma load_metadata_run fs self key (H : list obj) :
  table_intact H →
  ∃ new r, load_metadata fs self key (H ++ []) = (r, H ++ new) ∧
     outcome (r, H ++ new) = metadata_tree fs self key.
Proof.
  intros HH.
  pose proof (table_static _ HH) as Hs.
  assert (∃ n, recursion_limit = S (S (S (S n)))) as [fuel Hfuel]
    by (by exists 296%nat).
  unfold load_metadata, metadata_tree.
  destruct key as [|key_obj].
  { unfold dataset_literal. metadata_run Hs. }
  destruct (negb _) eqn:Hb.
  { metadata_run Hs. }
  destruct (meter key_obj) as [m|] eqn:Hm.
  2: { metadata_run Hs. }
  destruct (m =? 1) eqn:Hm1.
  { apply Z.eqb_eq in Hm1 as ->. metadata_run Hs. }
  destruct (m =? 2) eqn:Hm2.
  { metadata_run Hs. }
  destruct (_path_for_house fs self key_obj) as [e|p] eqn:Hp; cbn [rbind].
  { metadata_run Hs. }
  destruct (load_labels fs p) as [e|labels] eqn:Hlabels; cbn [rbind].
  { metadata_run Hs. }
  destruct (dict_get m labels) as [l|] eqn:Hl.
  2: { metadata_run Hs. }
  unfold table_entry.
  destruct (dict_get (AStr l) MAP_items) as [entry|] eqn:Hentry.
  2: { assert (dict_get (AStr l) table_refs = None) as Hnone.
       { apply dict_get_None. rewrite table_refs_keys. by apply dict_get_None. }
       metadata_run Hs. }
  assert (AStr l ∈ dict_keys MAP_items) as Hin.
  { destruct (decide (AStr l ∈ dict_keys MAP_items)) as [|Hn]; [done|].
    apply dict_get_None in Hn. congruence. }
  cbn in Hin.
  repeat (apply elem_of_cons in Hin as [Hin|Hin]; [injection Hin as ->|]).
  20: by apply elem_of_nil in Hin.
  all: vm_compute in Hentry; injection Hentry as <-.
  all: unfold entry_appliances, tree_items; simpl (dict_get _ _); cbn beta iota.
  all: try lazymatch goal with
       | |- context [rbind (count_instance ?a ?b ?c ?d)] =>
           destruct (count_instance a b c d) as [e|inst] eqn:Hcount; cbn [rbind]
       end.
  all: metadata_run Hs.
Qed.
Lemma load_metadata_outcome fs self key (h : list obj) :
  table_intact h →
  ∃ new, (load_metadata fs self key h).2 = h ++ new
         ∧ outcome (load_metadata fs self key h) = metadata_tree fs self key.
Proof.
  intros Hh. destruct (load_metadata_run fs self key h Hh) as (new & r & Hrun & Hout).
  rewrite app_nil_r in Hrun. exists new. by rewrite Hrun.
Qed.

Lemma table_intact_app (h new : list obj) :
  table_intact h → table_intact (h ++ new).
Proof.
  unfold table_intact. intros Hh.
  rewrite take_app_le; [done|].
  rewrite <- Hh at 1. rewrite length_take. lia.
Qed.

Lemma table_intact_module_heap : table_intact module_heap.
Proof. reflexivity. Qed.

Lemma mapM_snapshot_app {A B} (f g : A → option B) (xs : list A) ys :
  Forall (λ x, ∀ t, f x = Some t → g x = Some t) xs →
  mapM f xs = Some ys → mapM g xs = Some ys.
Proof.
  intros Hall. revert ys. induction Hall as [|x xs Hx _ IH]; intros ys; cbn; [done|].
  destruct (f x) as [t|] eqn:Hf; cbn; [|done].
  rewrite (Hx _ eq_refl). cbn.
  destruct (mapM f xs) as [ts|]; cbn; [|done].
  intros [= <-]. by rewrite (IH _ eq_refl).
Qed.

Lemma snapshot_ref d (h : list obj) l :
  snapshot (S d) h (Ref l) =
  match h !! l with
  | None => None
  | Some (OList xs) => TList <$> mapM (snapshot d h) xs
  | Some (ODict kvs) => TDict <$> mapM (λ kv, pair kv.1 <$> snapshot d h kv.2) kvs
  end.
Proof. reflexivity. Qed.

Lemma snapshot_app d (h new : list obj) v t :
  snapshot d h v = Some t → snapshot d (h ++ new) v = Some t.
Proof.
  revert v t. induction d as [|d IH]; intros [a|l] t; try done.
  rewrite !snapshot_ref.
  destruct (h !! l) as [o|] eqn:Hl; [|done].
  rewrite (lookup_app_l_Some _ _ _ _ Hl).
  destruct o as [kvs|xs].
  - intros (kts & Hm & ->)%fmap_Some.
    apply fmap_Some. exists kts. split; [|done].
    eapply mapM_snapshot_app; [|exact Hm].
    apply Forall_forall. intros [k v] _ t'. cbn.
    intros (t'' & Hv & ->)%fmap_Some. by rewrite (IH _ _ Hv).
  - intros (ts & Hm & ->)%fmap_Some.
    apply fmap_Some. exists ts. split; [|done].
    eapply mapM_snapshot_app; [|exact Hm].
    apply Forall_forall. intros v _ t'. apply IH.
Qed.

Lemma outcome_app r (h new : list obj) t :
  outcome (r, h) = inr t → outcome (r, h ++ new) = inr t.
Proof.
  unfold outcome. cbn [fst snd]. destruct r as [e|v]; [done|].
  destruct (snapshot snapshot_depth h v) as [t'|] eqn:Hs; [|done].
  intros [= <-]. by rewrite (snapshot_app _ _ _ _ _ Hs).
Qed.

Lemma labels_of_lines_modelled lines labels e :
  labels_of_lines labels lines = inl e → modelled e.
Proof.
  revert labels. induction lines as [|line lines IH]; intros labels; cbn; [done|].
  destruct (parse_label_line line) as [e'|[n l]] eqn:Hline; [|by apply IH].
  intros [= <-]. unfold parse_label_line in Hline.
  repeat case_match; by simplify_eq.
Qed.

Lemma count_instance_modelled labels l acc channels e :
  count_instance labels l acc channels = inl e → modelled e.
Proof.
  revert acc. induction channels as [|i channels IH]; intros acc; cbn; [done|].
  destruct (dict_get i labels); [by apply IH|]. by intros [= <-].
Qed.

Lemma metadata_tree_modelled fs self key e :
  metadata_tree fs self key = inl e → modelled e.
Proof.
  unfold metadata_tree, _path_for_house, load_labels, readlines, rbind.
  repeat case_match; intros; simplify_eq; try done;
    eauto using labels_of_lines_modelled, count_instance_modelled.
Qed.

(** C10. No call of [load_metadata] changes the static table: from a heap
    in which the table is untouched the call leaves it untouched (the
    instance numbers go into objects made by the deep copy), so two
    successive calls with the same key and files give the same answer,
    also when both returned dicts are compared after the second call. *)
Theorem load_metadata_keeps_table fs self key (h h1 h2 : list obj) r1 r2 :
  table_intact h →
  load_metadata fs self key h = (r1, h1) →
  load_metadata fs self key h1 = (r2, h2) →
  table_intact h1
  ∧ table_intact h2
  ∧ outcome (r1, h1) = metadata_tree fs self key
  ∧ outcome (r2, h2) = outcome (r1, h1)
  ∧ outcome (r1, h2) = outcome (r2, h2).
Proof.
  intros Hh Hrun1 Hrun2.
  destruct (load_metadata_outcome fs self key h Hh) as (new1 & Hh1 & Hout1).
  rewrite Hrun1 in Hh1, Hout1. cbn [snd] in Hh1.
  assert (table_intact h1) as Hi1 by (rewrite Hh1; by apply table_intact_app).
  destruct (load_metadata_outcome fs self key h1 Hi1) as (new2 & Hh2 & Hout2).
  rewrite Hrun2 in Hh2, Hout2. cbn [snd] in Hh2.
  split; [exact Hi1|].
  split; [rewrite Hh2; by apply table_intact_app|].
  split; [exact Hout1|].
  split; [by rewrite Hout1, Hout2|].
  rewrite Hout2, <- Hout1, Hh2.
  destruct (outcome (r1, h1)) as [e|t] eqn:Ho.
  - unfold outcome in *. cbn [fst snd] in *. destruct r1 as [e'|v]; [exact Ho|].
    destruct (snapshot snapshot_depth h1 v); [discriminate|].
    symmetry in Hout1. apply metadata_tree_modelled in Hout1.
    by injection Ho as <-.
  - by apply outcome_app.
Qed.


Lemma load_metadata_keeps_table_witness :
  ∃ r1 h1 r2 h2,
    load_metadata (house_fs smoke_labels []) redd (KPath (meter_key 1 9))
      module_heap = (r1, h1)
    ∧ load_metadata (house_fs smoke_labels []) redd (KPath (meter_key 1 9))
        h1 = (r2, h2)
    ∧ (table_intact h1
       ∧ table_intact h2
       ∧ outcome (r1, h1) =
         metadata_tree (house_fs smoke_labels []) redd (KPath (meter_key 1 9))
       ∧ outcome (r2, h2) = outcome (r1, h1)
       ∧ outcome (r1, h2) = outcome (r2, h2)).
Proof.
  eexists _, _, _, _.
  split; [vm_compute; reflexivity|]. split; [vm_compute; reflexivity|].
  apply (load_metadata_keeps_table (house_fs smoke_labels []) redd
           (KPath (meter_key 1 9)) module_heap).
  - reflexivity.
  - vm_compute. reflexivity.
  - vm_compute. reflexivity.
Defined.

(** Without the copy the table would change: storing an instance number
    through the reference held by the table reaches the table's own
    object. *)
Remark write_through_table_reference :
  ¬ table_intact
      (setitem (Ref 34) (AStr "instance") (Atom (AInt 1)) module_heap).2.
Proof. unfold table_intact. vm_compute. discriminate. Qed.
(** ** Label dictionaries *)

Lemma dict_keys_set {K V} `{EqDecision K} (k : K) (v : V) d :
  dict_keys (dict_set k v d) =
  if decide (k ∈ dict_keys d) then dict_keys d else dict_keys d ++ [k].
Proof.
  unfold dict_keys. induction d as [|[k' v'] d IH]; cbn.
  - rewrite decide_False; [done|]. apply not_elem_of_nil.
  - destruct (decide (k = k')) as [->|Hne]; cbn.
    + rewrite decide_True; [done|]. apply elem_of_cons. by left.
    + rewrite IH. destruct (decide (k ∈ fst <$> d)) as [Hin|Hnin].
      * rewrite decide_True; [done|]. apply elem_of_cons. by right.
      * rewrite decide_False; [done|]. rewrite elem_of_cons.
        intros [?|?]; [by destruct Hne|by destruct Hnin].
Qed.

Lemma dict_set_NoDup {K V} `{EqDecision K} (k : K) (v : V) d :
  NoDup (dict_keys d) → NoDup (dict_keys (dict_set k v d)).
Proof.
  intros Hd. rewrite dict_keys_set. case_decide; [done|].
  apply NoDup_app. split_and!; [done| |apply NoDup_singleton].
  intros x Hx ->%list_elem_of_singleton. done.
Qed.

Lemma labels_of_lines_NoDup lines labels labels' :
  NoDup (dict_keys labels) →
  labels_of_lines labels lines = inr labels' → NoDup (dict_keys labels').
Proof.
  revert labels. induction lines as [|line lines IH]; intros labels Hd; cbn.
  - by intros [= <-].
  - destruct (parse_label_line line) as [e|[n l]]; [done|].
    apply IH. by apply dict_set_NoDup.
Qed.

Lemma load_labels_NoDup fs data_dir labels :
  load_labels fs data_dir = inr labels → NoDup (dict_keys labels).
Proof.
  unfold load_labels, rbind. destruct (readlines _ _) as [e|lines]; [done|].
  apply labels_of_lines_NoDup. apply NoDup_nil_2.
Qed.

Lemma dict_get_Some {K V} `{EqDecision K} (k : K) (v : V) d :
  NoDup (dict_keys d) → dict_get k d = Some v ↔ (k, v) ∈ d.
Proof.
  unfold dict_keys. induction d as [|[k' v'] d IH]; cbn.
  - intros _. split; [done|]. by intros ?%elem_of_nil.
  - intros [Hk' Hd]%NoDup_cons. rewrite elem_of_cons.
    destruct (decide (k = k')) as [->|Hne].
    + split; [intros [= ->]; by left|].
      intros [[= ->]|Hin]; [done|].
      destruct Hk'. apply list_elem_of_fmap. by exists (k', v).
    + rewrite (IH Hd). split; [by right|].
      intros [Heq|?]; [|done]. injection Heq as Hk _. by destruct Hne.
Qed.

Lemma elem_of_range lo hi x : x ∈ range lo hi ↔ lo ≤ x < hi.
Proof.
  unfold range. rewrite list_elem_of_fmap. split.
  - intros (i & -> & Hi%elem_of_seq). lia.
  - intros Hx. exists (Z.to_nat (x - lo)). split; [lia|].
    apply elem_of_seq. lia.
Qed.

Lemma NoDup_range lo hi : NoDup (range lo hi).
Proof.
  unfold range. apply NoDup_fmap_2; [|apply NoDup_seq].
  intros i j Hij. lia.
Qed.

(** The channels of [range(1, m)] that carry a label are the entries of
    the label file with that label and a number from 1 to m - 1. *)
Lemma count_channels (labels : list (Z * string)) l m :
  NoDup (dict_keys labels) →
  length (filter (λ i, dict_get i labels = Some l) (range 1 m)) =
  length (filter (λ cl : Z * string, 1 ≤ cl.1 < m ∧ cl.2 = l) labels).
Proof.
  intros Hd.
  rewrite <- (length_fmap fst (filter (λ cl : Z * string, _) labels)).
  apply Permutation_length, NoDup_Permutation.
  - apply NoDup_filter, NoDup_range.
  - eapply sublist_NoDup; [exact Hd|].
    apply fmap_sublist, sublist_filter.
  - intros x. rewrite list_elem_of_filter, elem_of_range, list_elem_of_fmap.
    rewrite (dict_get_Some _ _ _ Hd). split.
    + intros [Hin Hx]. exists (x, l). split; [done|].
      apply list_elem_of_filter. done.
    + intros ([k v] & -> & [[Hk Hv] Hin]%list_elem_of_filter).
      cbn in *. by subst.
Qed.

Lemma count_instance_present labels l acc channels :
  Forall (λ i, is_Some (dict_get i labels)) channels →
  count_instance labels l acc channels =
  inr (acc + Z.of_nat (length (filter (λ i, dict_get i labels = Some l) channels))).
Proof.
  intros Hall. revert acc.
  induction Hall as [|i channels [l' Hi] _ IH]; intros acc; cbn [count_instance].
  - f_equal. cbn. lia.
  - rewrite Hi, IH.
    destruct (decide (l' = l)) as [->|Hne].
    + rewrite bool_decide_true by done. rewrite filter_cons_True by done.
      cbn [length]. f_equal. lia.
    + rewrite bool_decide_false by done.
      rewrite filter_cons_False by congruence. done.
Qed.

Lemma count_instance_absent labels l acc channels e :
  count_instance labels l acc channels = inl e →
  ∃ i, i ∈ channels ∧ dict_get i labels = None ∧ e = KeyError (AInt i).
Proof.
  revert acc. induction channels as [|i channels IH]; intros acc; cbn; [done|].
  destruct (dict_get i labels) as [l'|] eqn:Hi.
  - intros (j & Hj & Hnone)%IH. exists j. split; [|done]. apply elem_of_cons. by right.
  - intros [= <-]. exists i. split; [|done]. apply elem_of_cons. by left.
Qed.

Lemma outcome_inr r (h : list obj) t :
  outcome (r, h) = inr t →
  ∃ v, r = inr v ∧ snapshot snapshot_depth h v = Some t.
Proof.
  unfold outcome. cbn [fst snd]. destruct r as [e|v]; [done|].
  destruct (snapshot snapshot_depth h v) as [t'|] eqn:Hs; [|done].
  intros [= <-]. exists v. by rewrite Hs.
Qed.

Lemma outcome_inl r (h : list obj) e :
  outcome (r, h) = inl e → modelled e → r = inl e.
Proof.
  unfold outcome. cbn [fst snd]. destruct r as [e'|v]; [congruence|].
  destruct (snapshot snapshot_depth h v) as [t'|]; [done|].
  by intros [= <-].
Qed.

Lemma table_entry_cases l entry :
  table_entry l = Some entry → (AStr l, entry) ∈ MAP_items.
Proof.
  unfold table_entry. apply dict_get_Some.
  apply (bool_decide_unpack _). vm_compute. exact I.
Qed.

(** The appliances of a submeter's metadata: those of the table entry, in
    order, each with its instance number. *)
Lemma submeter_tree_appliances l entry b m instance :
  table_entry l = Some entry →
  entry_appliances entry ≠ [] →
  ∃ items,
    submeter_tree b m entry instance = TDict items
    ∧ dict_get (AStr "appliances") items =
      Some (TList (with_instance instance <$> entry_appliances entry))
    ∧ Forall (λ appliance,
                dict_get (AStr "instance") (tree_items appliance) =
                Some (TAtom (AInt instance)))
        (with_instance instance <$> entry_appliances entry).
Proof.
  intros Hin%table_entry_cases Happs.
  unfold MAP_items, MAP_literal in Hin.
  repeat (apply elem_of_cons in Hin as [Hin|Hin];
          [injection Hin as -> ->; try (by destruct Happs)|]).
  all: try (by apply elem_of_nil in Hin).
  all: eexists; split; [reflexivity|]; split; [reflexivity|].
  all: repeat constructor.
Qed.

(** ** Metadata of meters *)

Lemma building_ok b :
  1 ≤ b ≤ 6 → negb ((1 <=? b) && (b <=? 6)) = false.
Proof. intros Hb. apply negb_false_iff, andb_true_intro. lia. Qed.

Lemma metadata_tree_submeter fs self key_obj m p labels :
  1 ≤ building key_obj ≤ 6 → meter key_obj = Some m → 3 ≤ m →
  _path_for_house fs self key_obj = inr p →
  load_labels fs p = inr labels →
  metadata_tree fs self (KPath key_obj) =
  match dict_get m labels with
  | None => inl (unknown_meter m (building key_obj))
  | Some l =>
      match table_entry l with
      | None => inl (KeyError (AStr l))
      | Some entry =>
          match entry_appliances entry with
          | [] => inr (submeter_tree (building key_obj) m entry 1)
          | _ :: _ =>
              rbind (count_instance labels l 1 (range 1 m))
                (λ instance,
                   inr (submeter_tree (building key_obj) m entry instance))
          end
      end
  end.
Proof.
  intros Hb Hm Hm3 Hp Hlabels. unfold metadata_tree.
  rewrite (building_ok _ Hb), Hm.
  replace (m =? 1) with false by (symmetry; apply Z.eqb_neq; lia).
  replace (m =? 2) with false by (symmetry; apply Z.eqb_neq; lia).
  rewrite Hp. cbn [rbind]. rewrite Hlabels. reflexivity.
Qed.

Lemma load_metadata_inr fs self key (h : list obj) t :
  table_intact h →
  metadata_tree fs self key = inr t →
  ∃ v h', load_metadata fs self key h = (inr v, h')
          ∧ snapshot snapshot_depth h' v = Some t.
Proof.
  intros Hh Ht.
  destruct (load_metadata_outcome fs self key h Hh) as (new & _ & Hout).
  destruct (load_metadata fs self key h) as [r h'].
  rewrite Ht in Hout. apply outcome_inr in Hout as (v & -> & Hv).
  exists v, h'. split; [reflexivity|exact Hv].
Qed.

Lemma load_metadata_inl fs self key (h : list obj) e :
  table_intact h →
  metadata_tree fs self key = inl e →
  ∃ h', load_metadata fs self key h = (inl e, h').
Proof.
  intros Hh He.
  destruct (load_metadata_outcome fs self key h Hh) as (new & _ & Hout).
  destruct (load_metadata fs self key h) as [r h'].
  rewrite He in Hout. apply outcome_inl in Hout as ->.
  - by exists h'.
  - by apply (metadata_tree_modelled fs self key).
Qed.

(** C1 (amended). When the label file lists every channel from 1 to
    m - 1, [load_metadata] for a meter m >= 3 of a building 1-6 whose label
    has a table entry listing appliances returns a dict whose 'appliances'
    are the listed appliances, in order, each with 'instance' set to 1 plus
    the number of channels of the label file numbered from 1 to m - 1 that
    carry the same label. *)
Theorem appliance_instance_numbers fs self key_obj m p labels l entry
    (h : list obj) :
  table_intact h →
  1 ≤ building key_obj ≤ 6 → meter key_obj = Some m → 3 ≤ m →
  _path_for_house fs self key_obj = inr p →
  load_labels fs p = inr labels →
  dict_get m labels = Some l →
  table_entry l = Some entry →
  entry_appliances entry ≠ [] →
  Forall (λ i, is_Some (dict_get i labels)) (range 1 m) →
  ∃ v h' items,
    load_metadata fs self (KPath key_obj) h = (inr v, h')
    ∧ snapshot snapshot_depth h' v = Some (TDict items)
    ∧ dict_get (AStr "appliances") items =
      Some (TList
              (with_instance
                 (1 + Z.of_nat
                        (length
                           (filter (λ cl : Z * string, 1 ≤ cl.1 < m ∧ cl.2 = l)
                              labels)))
                 <$> entry_appliances entry))
    ∧ Forall
        (λ appliance,
           dict_get (AStr "instance") (tree_items appliance) =
           Some (TAtom
                   (AInt
                      (1 + Z.of_nat
                             (length
                                (filter
                                   (λ cl : Z * string, 1 ≤ cl.1 < m ∧ cl.2 = l)
                                   labels))))))
        (with_instance
           (1 + Z.of_nat
                  (length
                     (filter (λ cl : Z * string, 1 ≤ cl.1 < m ∧ cl.2 = l)
                        labels)))
           <$> entry_appliances entry).
Proof.
  intros Hh Hb Hm Hm3 Hp Hlabels Hl Hentry Happs Hall.
  pose proof (metadata_tree_submeter fs self key_obj m p labels
                Hb Hm Hm3 Hp Hlabels) as Htree.
  rewrite Hl, Hentry in Htree.
  rewrite (count_instance_present _ _ _ _ Hall) in Htree.
  rewrite (count_channels _ _ _ (load_labels_NoDup _ _ _ Hlabels)) in Htree.
  destruct (entry_appliances entry) as [|a apps] eqn:Ha; [by destruct Happs|].
  cbn [rbind] in Htree. rewrite <- Ha in *.
  destruct (submeter_tree_appliances l entry (building key_obj) m
              (1 + Z.of_nat
                     (length
                        (filter (λ cl : Z * string, 1 ≤ cl.1 < m ∧ cl.2 = l)
                           labels))) Hentry Happs)
    as (items & Hitems & Hget & Hinst).
  rewrite Hitems in Htree.
  destruct (load_metadata_inr fs self (KPath key_obj) h _ Hh Htree)
    as (v & h' & Hrun & Hsnap).
  exists v, h', items. split; [exact Hrun|]. split; [exact Hsnap|].
  split; [exact Hget|exact Hinst].
Qed.

(** Channels 5 and 9 of a house both labelled smoke_alarms: meter 5 gets
    instance 1 and meter 9 gets instance 2. *)
Lemma appliance_instance_numbers_witness :
  (∃ v h' items,
     load_metadata (house_fs smoke_labels []) redd (KPath (meter_key 1 5))
       module_heap = (inr v, h')
     ∧ snapshot snapshot_depth h' v = Some (TDict items)
     ∧ dict_get (AStr "appliances") items =
       Some (TList
               [TDict [ (AStr "type", TAtom (AStr "smoke alarm"));
                        (AStr "multiple", TAtom (ABool true));
                        (AStr "instance", TAtom (AInt 1)) ]]))
  ∧ (∃ v h' items,
       load_metadata (house_fs smoke_labels []) redd (KPath (meter_key 1 9))
         module_heap = (inr v, h')
       ∧ snapshot snapshot_depth h' v = Some (TDict items)
       ∧ dict_get (AStr "appliances") items =
         Some (TList
                 [TDict [ (AStr "type", TAtom (AStr "smoke alarm"));
                          (AStr "multiple", TAtom (ABool true));
                          (AStr "instance", TAtom (AInt 2)) ]])).
Proof.
  split.
  - destruct (appliance_instance_numbers (house_fs smoke_labels []) redd
                (meter_key 1 5) 5 "/data/REDD/house_1"
                [ (1, "mains"); (2, "mains"); (3, "oven"); (4, "refrigerator");
                  (5, "smoke_alarms"); (6, "lighting");
                  (7, "kitchen_outlets"); (8, "microwave");
                  (9, "smoke_alarms") ]
                "smoke_alarms"
                (TDict [(AStr "appliances",
                         TList [TDict [(AStr "type", TAtom (AStr "smoke alarm"));
                                       (AStr "multiple", TAtom (ABool true))]])])
                module_heap)
      as (v & h' & items & Hrun & Hsnap & Hget & _).
    + reflexivity.
    + cbn. lia.
    + reflexivity.
    + lia.
    + vm_compute. reflexivity.
    + vm_compute. reflexivity.
    + vm_compute. reflexivity.
    + vm_compute. reflexivity.
    + vm_compute. discriminate.
    + apply (bool_decide_unpack _). vm_compute. exact I.
    + exists v, h', items. split; [exact Hrun|]. split; [exact Hsnap|].
      exact Hget.
  - destruct (appliance_instance_numbers (house_fs smoke_labels []) redd
                (meter_key 1 9) 9 "/data/REDD/house_1"
                [ (1, "mains"); (2, "mains"); (3, "oven"); (4, "refrigerator");
                  (5, "smoke_alarms"); (6, "lighting");
                  (7, "kitchen_outlets"); (8, "microwave");
                  (9, "smoke_alarms") ]
                "smoke_alarms"
                (TDict [(AStr "appliances",
                         TList [TDict [(AStr "type", TAtom (AStr "smoke alarm"));
                                       (AStr "multiple", TAtom (ABool true))]])])
                module_heap)
      as (v & h' & items & Hrun & Hsnap & Hget & _).
    + reflexivity.
    + cbn. lia.
    + reflexivity.
    + lia.
    + vm_compute. reflexivity.
    + vm_compute. reflexivity.
    + vm_compute. reflexivity.
    + vm_compute. reflexivity.
    + vm_compute. discriminate.
    + apply (bool_decide_unpack _). vm_compute. exact I.
    + exists v, h', items. split; [exact Hrun|]. split; [exact Hsnap|].
      exact Hget.
Defined.

(** C1 as stated fails. With a label file that starts at channel 3, meter
    3 is present with a label whose table entry lists an appliance, and
    the call raises KeyError for channel 1. With a channel 0 that carries
    the label of meter 3, one channel numbered below 3 carries that label,
    and the instance number is 1, not 2. *)
Lemma appliance_instance_numbers_counterexample :
  (load_labels (house_fs gap_labels []) "/data/REDD/house_1" =
   inr [(3, "microwave")]
   ∧ entry_appliances <$> table_entry "microwave" =
     Some [TDict [(AStr "type", TAtom (AStr "microwave"))]]
   ∧ (load_metadata (house_fs gap_labels []) redd (KPath (meter_key 1 3))
        module_heap).1 = inl (KeyError (AInt 1)))
  ∧ (load_labels (house_fs zero_labels []) "/data/REDD/house_1" =
     inr [(0, "microwave"); (1, "mains"); (2, "mains"); (3, "microwave")]
     ∧ length (filter (λ cl : Z * string, cl.1 < 3 ∧ cl.2 = "microwave")
                 [(0, "microwave"); (1, "mains"); (2, "mains");
                  (3, "microwave")]) = 1%nat
     ∧ outcome (load_metadata (house_fs zero_labels []) redd
                  (KPath (meter_key 1 3)) module_heap) =
       inr (TDict
              [ (AStr "device_model", TAtom (AStr "eMonitor"));
                (AStr "instance", TAtom (AInt 3));
                (AStr "building", TAtom (AInt 1));
                (AStr "dataset", TAtom (AStr "REDD"));
                (AStr "submeter_of", TAtom (AInt 1));
                (AStr "appliances",
                 TList [TDict [ (AStr "type", TAtom (AStr "microwave"));
                                (AStr "instance", TAtom (AInt 1)) ]]) ])).
Proof. repeat split; vm_compute; reflexivity. Qed.

(** C2. For a building 1-6, [load_metadata] for meter 1 returns, whatever
    the files and the heap are, a dict that marks the meter as the site
    meter, lists channel 2 as an additional channel and gives the device
    model 'REDD_whole_house'. *)
Theorem site_meter_metadata fs self key_obj (h : list obj) :
  1 ≤ building key_obj ≤ 6 → meter key_obj = Some 1 →
  ∃ v h' items,
    load_metadata fs self (KPath key_obj) h = (inr v, h')
    ∧ snapshot snapshot_depth h' v = Some (TDict items)
    ∧ TDict items = site_meter_tree (building key_obj)
    ∧ dict_get (AStr "site_meter") items = Some (TAtom (ABool true))
    ∧ dict_get (AStr "additional_channels") items =
      Some (TList [TAtom (AInt 2)])
    ∧ dict_get (AStr "device_model") items =
      Some (TAtom (AStr "REDD_whole_house")).
Proof.
  intros Hb Hm.
  assert (∃ new r,
            load_metadata fs self (KPath key_obj) (h ++ []) = (r, h ++ new)
            ∧ outcome (r, h ++ new) = inr (site_meter_tree (building key_obj)))
    as (new & r & Hrun & Hout).
  { unfold load_metadata. rewrite (building_ok _ Hb), Hm.
    cbn [Z.eqb Pos.eqb]. metadata_run I. }
  rewrite app_nil_r in Hrun.
  apply outcome_inr in Hout as (v & -> & Hv).
  exists v, (h ++ new), (tree_items (site_meter_tree (building key_obj))).
  split; [exact Hrun|]. split; [exact Hv|]. repeat split.
Qed.

Lemma site_meter_metadata_witness :
  ∃ v h' items,
    load_metadata (house_fs smoke_labels []) redd (KPath (meter_key 4 1))
      module_heap = (inr v, h')
    ∧ snapshot snapshot_depth h' v = Some (TDict items)
    ∧ dict_get (AStr "site_meter") items = Some (TAtom (ABool true))
    ∧ dict_get (AStr "additional_channels") items =
      Some (TList [TAtom (AInt 2)]).
Proof.
  destruct (site_meter_metadata (house_fs smoke_labels []) redd
              (meter_key 4 1) module_heap)
    as (v & h' & items & Hrun & Hsnap & _ & Hsite & Hextra & _).
  - cbn. lia.
  - reflexivity.
  - exists v, h', items. split; [exact Hrun|]. split; [exact Hsnap|].
    split; [exact Hsite|exact Hextra].
Defined.

(** C3. For a building 1-6, [load_metadata] for meter 2 raises ValueError,
    whatever the files (and so the label file) and the heap are. *)
Theorem mains_channel_2_rejected fs self key_obj (h : list obj) :
  1 ≤ building key_obj ≤ 6 → meter key_obj = Some 2 →
  ∃ h',
    load_metadata fs self (KPath key_obj) h =
    (inl (ValueError "Mains channel 2 is loaded by meter1."), h').
Proof.
  intros Hb Hm.
  assert (∃ new r,
            load_metadata fs self (KPath key_obj) (h ++ []) = (r, h ++ new)
            ∧ r = inl (ValueError "Mains channel 2 is loaded by meter1."))
    as (new & r & Hrun & ->).
  { unfold load_metadata. rewrite (building_ok _ Hb), Hm.
    cbn [Z.eqb Pos.eqb].
    eexists _, _. split; [heap_run I; reflexivity|reflexivity]. }
  rewrite app_nil_r in Hrun. by exists (h ++ new).
Qed.

Lemma mains_channel_2_rejected_witness :
  ∃ h',
    load_metadata (house_fs smoke_labels []) redd (KPath (meter_key 1 2))
      module_heap =
    (inl (ValueError "Mains channel 2 is loaded by meter1."), h').
Proof.
  apply (mains_channel_2_rejected (house_fs smoke_labels []) redd
           (meter_key 1 2) module_heap).
  - cbn. lia.
  - reflexivity.
Defined.

(** C4 (amended). For a building 1-6 whose house directory and label file
    are read, and a meter m >= 3: if m is absent from the label file,
    [load_metadata] raises ValueError with a message that names the meter
    and the building; if m is present with a label that has no entry in
    the static table, it raises KeyError with that label. *)
Theorem unknown_meter_or_label fs self key_obj m p labels (h : list obj) :
  table_intact h →
  1 ≤ building key_obj ≤ 6 → meter key_obj = Some m → 3 ≤ m →
  _path_for_house fs self key_obj = inr p →
  load_labels fs p = inr labels →
  (dict_get m labels = None →
   ∃ h', load_metadata fs self (KPath key_obj) h =
         (inl (ValueError
                 (format_d m
                  +:+ " is not a recognised meter instance for building "
                  +:+ format_d (building key_obj) +:+ ".")), h'))
  ∧ (∀ l, dict_get m labels = Some l → table_entry l = None →
     ∃ h', load_metadata fs self (KPath key_obj) h =
           (inl (KeyError (AStr l)), h')).
Proof.
  intros Hh Hb Hm Hm3 Hp Hlabels.
  pose proof (metadata_tree_submeter fs self key_obj m p labels
                Hb Hm Hm3 Hp Hlabels) as Htree.
  split.
  - intros Hnone. rewrite Hnone in Htree.
    exact (load_metadata_inl _ _ _ _ _ Hh Htree).
  - intros l Hl Hentry. rewrite Hl, Hentry in Htree.
    exact (load_metadata_inl _ _ _ _ _ Hh Htree).
Qed.

Lemma unknown_meter_or_label_witness :
  (∃ h', load_metadata (house_fs smoke_labels []) redd (KPath (meter_key 1 12))
           module_heap =
         (inl (ValueError
                 "12 is not a recognised meter instance for building 1."), h'))
  ∧ (∃ h', load_metadata (house_fs unknown_labels []) redd
             (KPath (meter_key 1 3)) module_heap =
           (inl (KeyError (AStr "heat_pump")), h')).
Proof.
  split.
  - apply (unknown_meter_or_label (house_fs smoke_labels []) redd
             (meter_key 1 12) 12 "/data/REDD/house_1"
             [ (1, "mains"); (2, "mains"); (3, "oven"); (4, "refrigerator");
               (5, "smoke_alarms"); (6, "lighting"); (7, "kitchen_outlets");
               (8, "microwave"); (9, "smoke_alarms") ] module_heap).
    + reflexivity.
    + cbn. lia.
    + reflexivity.
    + lia.
    + vm_compute. reflexivity.
    + vm_compute. reflexivity.
    + vm_compute. reflexivity.
  - apply (unknown_meter_or_label (house_fs unknown_labels []) redd
             (meter_key 1 3) 3 "/data/REDD/house_1"
             [ (1, "mains"); (2, "mains"); (3, "heat_pump") ] module_heap).
    + reflexivity.
    + cbn. lia.
    + reflexivity.
    + lia.
    + vm_compute. reflexivity.
    + vm_compute. reflexivity.
    + vm_compute. reflexivity.
    + vm_compute. reflexivity.
Defined.

(** C4 as stated fails: a meter whose label has no table entry makes the
    call raise KeyError, which is not a ValueError. *)
Lemma unknown_meter_or_label_counterexample :
  load_labels (house_fs unknown_labels []) "/data/REDD/house_1" =
  inr [(1, "mains"); (2, "mains"); (3, "heat_pump")]
  ∧ table_entry "heat_pump" = None
  ∧ (load_metadata (house_fs unknown_labels []) redd (KPath (meter_key 1 3))
       module_heap).1 = inl (KeyError (AStr "heat_pump"))
  ∧ ∀ msg,
      (load_metadata (house_fs unknown_labels []) redd (KPath (meter_key 1 3))
         module_heap).1 ≠ inl (ValueError msg).
Proof.
  assert ((load_metadata (house_fs unknown_labels []) redd
             (KPath (meter_key 1 3)) module_heap).1 =
          inl (KeyError (AStr "heat_pump"))) as Hrun
    by (vm_compute; reflexivity).
  split; [vm_compute; reflexivity|]. split; [vm_compute; reflexivity|].
  split; [exact Hrun|]. intros msg. rewrite Hrun. discriminate.
Qed.

(** ** Listing the hierarchy *)

(** C5. At the root (key [None] or ['/']), [elements_below_key] returns
    building1 ... building6, in this order, whatever the files are. *)
Theorem buildings_at_root fs self :
  elements_below_key fs self None =
  inr ["building1"; "building2"; "building3"; "building4"; "building5";
       "building6"]
  ∧ elements_below_key fs self (Some KSlash) =
    inr ["building1"; "building2"; "building3"; "building4"; "building5";
         "building6"].
Proof. split; reflexivity. Qed.

Lemma meter_name_inj m m' :
  "meter" +:+ format_d m = "meter" +:+ format_d m' → m = m'.
Proof.
  intros Heq. apply (inj (String.append "meter")) in Heq.
  by apply (inj pretty) in Heq.
Qed.

Lemma labels_of_lines_keys lines labels labels' m :
  labels_of_lines labels lines = inr labels' →
  m ∈ dict_keys labels' ↔
  m ∈ dict_keys labels
  ∨ ∃ line l, line ∈ lines ∧ parse_label_line line = inr (m, l).
Proof.
  revert labels. induction lines as [|line lines IH]; intros labels; cbn.
  - intros [= <-]. split; [by left|]. intros [?|(? & ? & []%elem_of_nil & _)]. done.
  - destruct (parse_label_line line) as [e|[n l]] eqn:Hline; [done|].
    intros Hrest. rewrite (IH _ Hrest), dict_keys_set.
    assert (m ∈ (if decide (n ∈ dict_keys labels) then dict_keys labels
                 else dict_keys labels ++ [n])
            ↔ m ∈ dict_keys labels ∨ m = n) as ->.
    { case_decide; [|rewrite elem_of_app, list_elem_of_singleton; done].
      split; [by left|]. by intros [?| ->]. }
    split.
    + intros [[?| ->]|(line' & l' & Hin & Hp)]; [by left| |].
      * right. exists line, l. split; [|done]. apply elem_of_cons. by left.
      * right. exists line', l'. split; [|done]. apply elem_of_cons. by right.
    + intros [?|(line' & l' & [->|Hin]%elem_of_cons & Hp)]; [by left; left| |].
      * left. right. congruence.
      * right. by exists line', l'.
Qed.

(** C6. For a building 1-6 whose house directory exists (and whose label
    file is read), [elements_below_key] at the utility level returns the
    names "meter<m>" of the channels m of the label file other than 2:
    one name for each such channel, none twice, and never "meter2". *)
Theorem meters_below_utility fs self key_obj u p lines labels :
  1 ≤ building key_obj ≤ 6 →
  meter key_obj = None → utility key_obj = Some u →
  _path_for_house fs self key_obj = inr p →
  readlines fs (path_join p "labels.dat") = inr lines →
  load_labels fs p = inr labels →
  ∃ ids,
    elements_below_key fs self (Some (KPath key_obj)) = inr ids
    ∧ ids = (λ m, "meter" +:+ format_d m)
              <$> filter (λ m, m ≠ 2) (dict_keys labels)
    ∧ NoDup ids
    ∧ (∀ m, "meter" +:+ format_d m ∈ ids ↔
            (∃ line l, line ∈ lines ∧ parse_label_line line = inr (m, l))
            ∧ m ≠ 2)
    ∧ "meter2" ∉ ids.
Proof.
  intros Hb Hm Hu Hp Hlines Hlabels.
  pose proof (load_labels_NoDup _ _ _ Hlabels) as Hnodup.
  assert (∀ m, m ∈ dict_keys labels ↔
               ∃ line l, line ∈ lines ∧ parse_label_line line = inr (m, l))
    as Hkeys.
  { intros m. unfold load_labels in Hlabels. rewrite Hlines in Hlabels.
    cbn [rbind] in Hlabels. rewrite (labels_of_lines_keys _ _ _ m Hlabels).
    split; [|by right]. intros [[]%elem_of_nil|?]. done. }
  assert (filter (λ m : Z, m ∉ [2]) (dict_keys labels) =
          filter (λ m, m ≠ 2) (dict_keys labels)) as Hfilter.
  { apply list_filter_iff. intros m.
    rewrite not_elem_of_cons. split; [by intros [? _]|].
    intros ?. split; [done|]. apply not_elem_of_nil. }
  assert (∀ m, "meter" +:+ format_d m
               ∈ (λ m, "meter" +:+ format_d m)
                   <$> filter (λ m, m ≠ 2) (dict_keys labels)
               ↔ m ∈ dict_keys labels ∧ m ≠ 2) as Hin.
  { intros m. rewrite list_elem_of_fmap. split.
    - intros (m' & ->%meter_name_inj & [? ?]%list_elem_of_filter). done.
    - intros [? ?]. exists m. split; [done|]. by apply list_elem_of_filter. }
  eexists. split.
  { unfold elements_below_key. rewrite Hm, (building_ok _ Hb), Hu, Hp.
    cbn [rbind]. rewrite Hlabels. cbn [rbind]. rewrite Hfilter. reflexivity. }
  split; [reflexivity|]. split; [|split].
  - apply NoDup_fmap_2; [|by apply NoDup_filter].
    intros m m'. apply meter_name_inj.
  - intros m. rewrite Hin, Hkeys. done.
  - intros Hin2. change "meter2" with ("meter" +:+ format_d 2) in Hin2.
    apply Hin in Hin2 as [_ Hne]. by destruct Hne.
Qed.

Lemma meters_below_utility_witness :
  ∃ ids,
    elements_below_key (house_fs smoke_labels []) redd
      (Some (KPath {| building := 1; meter := None;
                      utility := Some "electric" |})) = inr ids
    ∧ ids = ["meter1"; "meter3"; "meter4"; "meter5"; "meter6"; "meter7";
             "meter8"; "meter9"]
    ∧ "meter2" ∉ ids.
Proof.
  destruct (meters_below_utility (house_fs smoke_labels []) redd
              {| building := 1; meter := None; utility := Some "electric" |}
              "electric" "/data/REDD/house_1" smoke_labels
              [ (1, "mains"); (2, "mains"); (3, "oven"); (4, "refrigerator");
                (5, "smoke_alarms"); (6, "lighting"); (7, "kitchen_outlets");
                (8, "microwave"); (9, "smoke_alarms") ])
    as (ids & Hrun & -> & _ & _ & Hnot).
  - cbn. lia.
  - reflexivity.
  - reflexivity.
  - vm_compute. reflexivity.
  - vm_compute. reflexivity.
  - vm_compute. reflexivity.
  - eexists. split; [exact Hrun|]. split; [vm_compute; reflexivity|exact Hnot].
Defined.

(** ** The timestamps *)

Lemma round_float64_small n : Z.log2 (Z.abs n) ≤ 52 → round_float64 n = n.
Proof.
  intros Hn. unfold round_float64.
  replace (Z.log2 (Z.abs n) - 52 <=? 0) with true; [done|].
  symmetry. apply Z.leb_le. lia.
Qed.

Lemma round_float64_opp n : round_float64 (- n) = - round_float64 n.
Proof.
  unfold round_float64. rewrite Z.abs_opp, Z.sgn_opp.
  destruct (Z.log2 (Z.abs n) - 52 <=? 0); [done|]. cbv zeta. lia.
Qed.

(** A number that needs more than 53 bits is rounded to a multiple of
    the unit of its binade, and stays within the binade. *)
Lemma round_float64_large n :
  0 < n → 52 < Z.log2 n →
  ∃ q', round_float64 n = q' * 2 ^ (Z.log2 n - 52)
        ∧ (q' = n / 2 ^ (Z.log2 n - 52) ∨ q' = n / 2 ^ (Z.log2 n - 52) + 1)
        ∧ 2 ^ 52 ≤ n / 2 ^ (Z.log2 n - 52) < 2 ^ 53.
Proof.
  intros Hn He. unfold round_float64.
  rewrite Z.abs_eq by lia.
  replace (Z.log2 n - 52 <=? 0) with false by (symmetry; apply Z.leb_gt; lia).
  cbv zeta. rewrite Z.sgn_pos, Z.mul_1_l by done.
  set (e := Z.log2 n - 52). set (u := 2 ^ e).
  assert (0 < u) as Hu by (apply Z.pow_pos_nonneg; lia).
  eexists. split; [reflexivity|]. split.
  - repeat case_match; auto.
  - pose proof (Z.log2_spec n Hn) as [Hlow Hhigh].
    replace (Z.log2 n) with (52 + e) in Hlow by lia.
    replace (Z.succ (Z.log2 n)) with (53 + e) in Hhigh by lia.
    rewrite Z.pow_add_r in Hlow, Hhigh by lia. fold u in Hlow, Hhigh.
    split.
    + apply Z.div_le_lower_bound; lia.
    + apply Z.div_lt_upper_bound; lia.
Qed.

Lemma round_float64_binade n :
  0 < n → 52 < Z.log2 n →
  2 ^ Z.log2 n ≤ round_float64 n ≤ 2 ^ (Z.log2 n + 1).
Proof.
  intros Hn He.
  destruct (round_float64_large n Hn He) as (q' & -> & Hq' & Hq).
  set (e := Z.log2 n - 52) in *.
  assert (0 < 2 ^ e) as Hu by (apply Z.pow_pos_nonneg; lia).
  replace (Z.log2 n) with (52 + e) by lia.
  replace (52 + e + 1) with (53 + e) by lia.
  rewrite !Z.pow_add_r by lia. nia.
Qed.

Lemma round_float64_mono_pos a b :
  0 ≤ a → a ≤ b → round_float64 a ≤ round_float64 b.
Proof.
  intros Ha Hab.
  pose proof (Z.log2_le_mono a b Hab) as Hlog.
  destruct (decide (Z.log2 b ≤ 52)) as [Hb|Hb].
  { rewrite !round_float64_small by (rewrite Z.abs_eq; lia). done. }
  assert (0 < b) as Hbpos.
  { destruct (decide (0 < b)); [done|]. replace b with 0 in Hb by lia.
    by destruct Hb. }
  destruct (decide (Z.log2 a ≤ 52)) as [Ha52|Ha52].
  { rewrite (round_float64_small a) by (rewrite Z.abs_eq; lia).
    pose proof (round_float64_binade b Hbpos ltac:(lia)) as [Hlow _].
    pose proof (Z.log2_spec b Hbpos) as [Hblow _].
    destruct (decide (a = 0)) as [->|Hane].
    - pose proof (Z.pow_pos_nonneg 2 (Z.log2 b)). lia.
    - pose proof (Z.log2_spec a ltac:(lia)) as [_ Hahigh].
      assert (2 ^ Z.succ (Z.log2 a) ≤ 2 ^ Z.log2 b)
        by (apply Z.pow_le_mono_r; lia).
      lia. }
  assert (0 < a) as Hapos.
  { destruct (decide (0 < a)); [done|]. replace a with 0 in Ha52 by lia.
    by destruct Ha52. }
  destruct (decide (Z.log2 a < Z.log2 b)) as [Hlt|Hge].
  { pose proof (round_float64_binade a Hapos ltac:(lia)) as [_ Hhigh].
    pose proof (round_float64_binade b Hbpos ltac:(lia)) as [Hlow _].
    assert (2 ^ (Z.log2 a + 1) ≤ 2 ^ Z.log2 b)
      by (apply Z.pow_le_mono_r; lia).
    lia. }
  assert (Z.log2 a = Z.log2 b) as Heq by lia.
  unfold round_float64. rewrite !Z.abs_eq by lia. rewrite Heq.
  replace (Z.log2 b - 52 <=? 0) with false by (symmetry; apply Z.leb_gt; lia).
  cbv zeta. rewrite !Z.sgn_pos, !Z.mul_1_l by done.
  set (u := 2 ^ (Z.log2 b - 52)).
  assert (0 < u) as Hu by (apply Z.pow_pos_nonneg; lia).
  apply Z.mul_le_mono_nonneg_r; [lia|].
  pose proof (Z.div_le_mono a b u Hu Hab) as Hq.
  pose proof (Z.div_mod a u ltac:(lia)) as Hadiv.
  pose proof (Z.div_mod b u ltac:(lia)) as Hbdiv.
  pose proof (Z.mod_pos_bound a u Hu) as Hamod.
  pose proof (Z.mod_pos_bound b u Hu) as Hbmod.
  destruct (decide (a / u = b / u)) as [Hsame|Hdiff].
  - rewrite Hsame in *.
    assert (a `mod` u ≤ b `mod` u) as Hr by nia.
    repeat case_match; lia.
  - repeat case_match; lia.
Qed.

Lemma round_float64_nonneg n : 0 ≤ n → 0 ≤ round_float64 n.
Proof.
  intros Hn.
  pose proof (round_float64_mono_pos 0 n ltac:(lia) Hn) as Hle.
  by rewrite (round_float64_small 0) in Hle.
Qed.

Lemma round_float64_mono a b : a ≤ b → round_float64 a ≤ round_float64 b.
Proof.
  intros Hab. destruct (decide (0 ≤ a)) as [Ha|Ha].
  { by apply round_float64_mono_pos. }
  destruct (decide (0 ≤ b)) as [Hb|Hb].
  - pose proof (round_float64_nonneg b Hb).
    pose proof (round_float64_nonneg (- a) ltac:(lia)) as Hna.
    rewrite round_float64_opp in Hna. lia.
  - pose proof (round_float64_mono_pos (- b) (- a) ltac:(lia) ltac:(lia)) as H.
    rewrite !round_float64_opp in H. lia.
Qed.

Lemma to_ns_mono a b : a ≤ b → b ≤ last_second → to_ns a ≤ to_ns b.
Proof.
  intros Hab Hb. unfold to_ns.
  pose proof (round_float64_mono (a * 1000000000) (b * 1000000000) ltac:(lia))
    as Hround.
  pose proof (round_float64_mono (b * 1000000000) (last_second * 1000000000)
                ltac:(lia)) as Hlast.
  assert (round_float64 (last_second * 1000000000) < 2 ^ 63) as Hfit
    by (vm_compute; reflexivity).
  unfold to_int64, int64_min.
  repeat case_match; lia.
Qed.

(** ** Loading readings *)

Section load_facts.
Context {V : Type}.
Variable read_csv : list string → result (list (Z * V)).
Variable to_datetime : Z → Z.
Variable n_look_ahead_rows : nat.

Lemma insert_row_perm (r : Z * V) l : insert_row r l ≡ₚ r :: l.
Proof.
  induction l as [|r' l IH]; cbn; [done|].
  case_match; [done|]. rewrite IH. apply Permutation_swap.
Qed.

Lemma sort_index_perm (l : list (Z * V)) : sort_index l ≡ₚ l.
Proof.
  induction l as [|r l IH]; cbn; [done|].
  fold (sort_index l). by rewrite insert_row_perm, IH.
Qed.

Lemma insert_row_sorted (r : Z * V) l :
  StronglySorted Z.le (l.*1) → StronglySorted Z.le ((insert_row r l).*1).
Proof.
  induction l as [|r' l IH]; cbn [insert_row fmap list_fmap].
  - intros _. repeat constructor.
  - intros [Hall Hl]%StronglySorted_cons.
    destruct (r.1 <=? r'.1) eqn:Hle.
    + apply Z.leb_le in Hle. cbn [fmap list_fmap].
      apply StronglySorted_cons. split.
      * constructor; [done|].
        eapply Forall_impl; [exact Hall|]. intros t Ht. cbn in *. lia.
      * by apply StronglySorted_cons.
    + apply Z.leb_gt in Hle. cbn [fmap list_fmap].
      apply StronglySorted_cons. split; [|by apply IH].
      rewrite (insert_row_perm r l). cbn [fmap list_fmap].
      constructor; [lia|done].
Qed.

Lemma sort_index_sorted (l : list (Z * V)) :
  StronglySorted Z.le ((sort_index l).*1).
Proof.
  induction l as [|r l IH]; cbn; [constructor|].
  by apply insert_row_sorted.
Qed.


Lemma read_frame_rows fs self key_obj df :
  read_frame read_csv to_datetime fs self key_obj = inr df →
  ∃ raw, rows df = channel_frame to_datetime raw ∧ look_ahead df = None.
Proof.
  unfold read_frame, rbind. repeat case_match; try done.
  intros [= <-]. by eexists.
Qed.

Lemma read_frame_ok fs self key_obj p m lines raw :
  _path_for_house fs self key_obj = inr p →
  meter key_obj = Some m →
  readlines fs (path_join p ("channel_" +:+ format_d m +:+ ".dat")) = inr lines →
  read_csv lines = inr raw →
  raw ≠ [] →
  ∃ df, read_frame read_csv to_datetime fs self key_obj = inr df
        ∧ rows df = channel_frame to_datetime raw.
Proof.
  intros Hp Hm Hlines Hcsv Hraw. unfold read_frame.
  rewrite Hp, Hm. cbn [rbind]. rewrite Hlines. cbn [rbind].
  rewrite Hcsv. cbn [rbind]. 
  assert (channel_frame to_datetime raw ≠ []) as Hne.
  { intros Hnil. apply Hraw. apply Permutation_nil_r.
    rewrite <- (sort_index_perm raw).
    unfold channel_frame in Hnil. by apply fmap_nil_inv in Hnil as ->. }
  destruct (head (channel_frame to_datetime raw)) as [first|] eqn:Hhead.
  2: { by apply head_None in Hhead. }
  destruct (last (channel_frame to_datetime raw)) as [final|] eqn:Hlast.
  2: { by apply last_None in Hlast. }
  by eexists.
Qed.

Lemma sorted_fmap_on (f : Z → Z) (l : list Z) :
  (∀ a b, a ∈ l → b ∈ l → a ≤ b → f a ≤ f b) →
  StronglySorted Z.le l → StronglySorted Z.le (f <$> l).
Proof.
  intros Hmono Hsorted.
  induction Hsorted as [|x l Hl IH Hall]; cbn [fmap list_fmap]; [constructor|].
  constructor.
  - apply IH. intros a b Ha Hb. apply Hmono; by apply elem_of_cons; right.
  - apply Forall_fmap, Forall_forall. intros y Hy. cbn.
    rewrite Forall_forall in Hall.
    apply Hmono; [by apply elem_of_cons; left|by apply elem_of_cons; right|].
    by apply Hall.
Qed.

Lemma channel_frame_sorted (raw : list (Z * V)) :
  (∀ a b, a ∈ raw.*1 → b ∈ raw.*1 → a ≤ b → to_datetime a ≤ to_datetime b) →
  StronglySorted Z.le ((channel_frame to_datetime raw).*1).
Proof.
  intros Hmono. unfold channel_frame.
  rewrite <- list_fmap_compose.
  change (fst ∘ prod_map to_datetime id) with (to_datetime ∘ (fst : Z * V → Z)).
  rewrite list_fmap_compose.
  apply sorted_fmap_on; [|apply sort_index_sorted].
  intros a b Ha Hb. apply Hmono.
  - by rewrite <- (sort_index_perm raw).
  - by rewrite <- (sort_index_perm raw).
Qed.

(** C8. For a key whose house directory and channel file exist and
    whose file holds at least one row: with a non-empty list of n time
    windows [load] yields n segments, the i-th holding the rows of the
    channel inside the i-th window; with no list it yields one segment,
    which holds all the rows of the channel. *)
Theorem load_one_segment_per_window fs self key_obj p m lines raw :
  _path_for_house fs self key_obj = inr p →
  meter key_obj = Some m →
  readlines fs (path_join p ("channel_" +:+ format_d m +:+ ".dat")) = inr lines →
  read_csv lines = inr raw →
  raw ≠ [] →
  (∀ periods, periods ≠ [] →
     ∃ segments,
       load read_csv to_datetime n_look_ahead_rows fs self key_obj
         (Some periods) = inr segments
       ∧ length segments = length periods
       ∧ ∀ i period, periods !! i = Some period →
           ∃ segment,
             segments !! i = Some segment
             ∧ rows segment =
               filter (λ r, contains period r.1 = true) (channel_frame to_datetime raw)
             ∧ Forall (λ r, contains period r.1 = true) (rows segment))
  ∧ ∃ segment,
      load read_csv to_datetime n_look_ahead_rows fs self key_obj None
      = inr [segment]
      ∧ rows segment = channel_frame to_datetime raw
      ∧ rows segment ≡ₚ prod_map to_datetime id <$> raw.
Proof.
  intros Hp Hm Hlines Hcsv Hraw.
  destruct (read_frame_ok fs self key_obj p m lines raw Hp Hm Hlines Hcsv Hraw)
    as (df & Hframe & Hrows).
  unfold load. rewrite Hframe. cbn [rbind]. split.
  - intros [|period rest] Hne; [done|].
    eexists. split; [reflexivity|]. split; [by rewrite length_fmap|].
    intros i q Hq. exists (slice n_look_ahead_rows q df).
    split; [by rewrite list_lookup_fmap, Hq|].
    cbn [slice rows]. rewrite Hrows. split; [done|].
    apply Forall_forall. by intros r [? _]%list_elem_of_filter.
  - exists df. split; [done|]. split; [done|].
    rewrite Hrows. unfold channel_frame. by rewrite sort_index_perm.
Qed.

(** C9 (amended). [load] fails for a key whose house directory does not
    exist, with AssertionError; and for a key whose house directory
    exists and whose channel file does not, with the IOError of the file
    that could not be opened. *)
Theorem load_missing_files fs self key_obj periods :
  (isdir fs (path_join (path self)
               ("house_" +:+ format_d (building key_obj))) = false →
   load read_csv to_datetime n_look_ahead_rows fs self key_obj periods
   = inl AssertionError)
  ∧ (∀ p m,
       _path_for_house fs self key_obj = inr p →
       meter key_obj = Some m →
       fs (path_join p ("channel_" +:+ format_d m +:+ ".dat")) = None →
       load read_csv to_datetime n_look_ahead_rows fs self key_obj periods
       = inl (IOError (path_join p ("channel_" +:+ format_d m +:+ ".dat")))).
Proof.
  split.
  - intros Hdir. unfold load, read_frame, _path_for_house.
    by rewrite Hdir.
  - intros p m Hp Hm Hfile. unfold load, read_frame, readlines.
    rewrite Hp, Hm. cbn [rbind]. by rewrite Hfile.
Qed.
End load_facts.

Lemma to_ns_mono_on {V} (raw : list (Z * V)) :
  Forall (λ r, - last_second ≤ r.1 ≤ last_second) raw →
  ∀ a b, a ∈ raw.*1 → b ∈ raw.*1 → a ≤ b → to_ns a ≤ to_ns b.
Proof.
  intros Hall a b _ Hb Hab. apply to_ns_mono; [done|].
  apply list_elem_of_fmap in Hb as (r & -> & Hr).
  rewrite Forall_forall in Hall. by apply Hall.
Qed.

Section load_order.
Context {V : Type}.
Variable read_csv : list string → result (list (Z * V)).
Variable n_look_ahead_rows : nat.

End load_order.



Lemma load_one_segment_per_window_witness :
  (∃ segments,
     load text_csv to_ns 2 (house_fs smoke_labels unsorted_channel) redd
       (meter_key 1 5) (Some [early_window; late_window]) = inr segments
     ∧ length segments = 2%nat
     ∧ rows <$> segments =
       [ [(1303132929000000000, "10.0"); (1303132930000000000, "9.5")];
         [(1303132933000000000, "12.5"); (1303132936000000000, "11.0")] ])
  ∧ ∃ segment,
      load text_csv to_ns 2 (house_fs smoke_labels unsorted_channel) redd
        (meter_key 1 5) None = inr [segment].
Proof.
  destruct (load_one_segment_per_window text_csv to_ns 2
              (house_fs smoke_labels unsorted_channel) redd (meter_key 1 5)
              "/data/REDD/house_1" 5 unsorted_channel
              [ (1303132933, "12.5"); (1303132929, "10.0");
                (1303132936, "11.0"); (1303132930, "9.5") ])
    as [Hwindows (segment & Hwhole & _)].
  - vm_compute. reflexivity.
  - reflexivity.
  - vm_compute. reflexivity.
  - vm_compute. reflexivity.
  - discriminate.
  - split; [|by exists segment].
    destruct (Hwindows [early_window; late_window]) as (segments & Hrun & Hlen & _);
      [discriminate|].
    exists segments. split; [exact Hrun|]. split; [exact Hlen|].
    assert (load text_csv to_ns 2 (house_fs smoke_labels unsorted_channel)
              redd (meter_key 1 5) (Some [early_window; late_window]) =
            inr [ slice 2 early_window
                    {| rows := channel_frame to_ns
                                 [ (1303132933, "12.5"); (1303132929, "10.0");
                                   (1303132936, "11.0"); (1303132930, "9.5") ];
                       timeframe := Some {| tf_start := 1303132929000000000;
                                            tf_end := 1303132936000000000;
                                            include_end := true |};
                       look_ahead := None |};
                  slice 2 late_window
                    {| rows := channel_frame to_ns
                                 [ (1303132933, "12.5"); (1303132929, "10.0");
                                   (1303132936, "11.0"); (1303132930, "9.5") ];
                       timeframe := Some {| tf_start := 1303132929000000000;
                                            tf_end := 1303132936000000000;
                                            include_end := true |};
                       look_ahead := None |} ]) as Hrun'
      by (vm_compute; reflexivity).
    rewrite Hrun' in Hrun. apply (inj inr) in Hrun. subst segments.
    vm_compute. reflexivity.
Defined.

Lemma load_missing_files_witness :
  load text_csv to_ns 2 empty_fs redd (meter_key 1 5) None
  = inl AssertionError
  ∧ load text_csv to_ns 2 (house_fs smoke_labels unsorted_channel) redd
      (meter_key 1 7) None
    = inl (IOError "/data/REDD/house_1/channel_7.dat").
Proof.
  split.
  - apply (proj1 (load_missing_files text_csv to_ns 2 empty_fs redd
                    (meter_key 1 5) None)).
    reflexivity.
  - apply (proj2 (load_missing_files text_csv to_ns 2
                    (house_fs smoke_labels unsorted_channel) redd
                    (meter_key 1 7) None)
             "/data/REDD/house_1" 7).
    + vm_compute. reflexivity.
    + reflexivity.
    + vm_compute. reflexivity.
Defined.

(** C9 as stated fails: on a disk without the house directory [load]
    raises AssertionError, and with the directory but without the channel
    file it raises IOError; neither is a ValueError. *)
Lemma load_missing_files_counterexample :
  isdir empty_fs "/data/REDD/house_1" = false
  ∧ load text_csv to_ns 2 empty_fs redd (meter_key 1 5) None
    = inl AssertionError
  ∧ (∀ msg, load text_csv to_ns 2 empty_fs redd (meter_key 1 5) None
            ≠ inl (ValueError msg))
  ∧ house_fs smoke_labels unsorted_channel "/data/REDD/house_1/channel_7.dat"
    = None
  ∧ load text_csv to_ns 2 (house_fs smoke_labels unsorted_channel) redd
      (meter_key 1 7) None
    = inl (IOError "/data/REDD/house_1/channel_7.dat")
  ∧ (∀ msg, load text_csv to_ns 2 (house_fs smoke_labels unsorted_channel)
              redd (meter_key 1 7) None
            ≠ inl (ValueError msg)).
Proof.
  assert (load text_csv to_ns 2 empty_fs redd (meter_key 1 5) None
          = inl AssertionError) as Hdir by (vm_compute; reflexivity).
  assert (load text_csv to_ns 2 (house_fs smoke_labels unsorted_channel)
            redd (meter_key 1 7) None
          = inl (IOError "/data/REDD/house_1/channel_7.dat")) as Hfile
    by (vm_compute; reflexivity).
  split; [reflexivity|]. split; [exact Hdir|].
  split; [intros msg; rewrite Hdir; discriminate|].
  split; [vm_compute; reflexivity|]. split; [exact Hfile|].
  intros msg. rewrite Hfile. discriminate.
Qed.

(** * Further properties *)

(** ** The label file *)

Lemma dict_get_set {K V} `{EqDecision K} (k k' : K) (v : V) d :
  dict_get k' (dict_set k v d) =
  if decide (k' = k) then Some v else dict_get k' d.
Proof.
  induction d as [|[k0 v0] d IH]; cbn.
  - by destruct (decide (k' = k)).
  - destruct (decide (k = k0)) as [->|Hne]; cbn.
    + by destruct (decide (k' = k0)).
    + rewrite IH. destruct (decide (k' = k0)) as [->|]; [|done].
      by rewrite decide_False by done.
Qed.

Lemma dict_set_fresh {K V} `{EqDecision K} (k : K) (v : V) d :
  k ∉ dict_keys d → dict_set k v d = d ++ [(k, v)].
Proof.
  unfold dict_keys. induction d as [|[k0 v0] d IH]; cbn; [done|].
  rewrite not_elem_of_cons. intros [Hne Hnin].
  rewrite decide_False by done. by rewrite IH.
Qed.

Lemma dict_get_app {K V} `{EqDecision K} (k : K) (d1 d2 : list (K * V)) :
  dict_get k (d1 ++ d2) =
  match dict_get k d1 with
  | Some v => Some v
  | None => dict_get k d2
  end.
Proof.
  induction d1 as [|[k0 v0] d1 IH]; cbn; [done|].
  by destruct (decide (k = k0)).
Qed.

Lemma labels_of_lines_rows lines rows labels :
  Forall2 (λ line row, parse_label_line line = inr row) lines rows →
  ∃ labels',
    labels_of_lines labels lines = inr labels'
    ∧ ∀ n, dict_get n labels' =
           match dict_get n (reverse rows) with
           | Some l => Some l
           | None => dict_get n labels
           end.
Proof.
  intros Hall. revert labels.
  induction Hall as [|line [n l] lines rows Hline _ IH]; intros labels.
  - exists labels. split; [done|]. intros n. done.
  - cbn [labels_of_lines]. rewrite Hline.
    destruct (IH (dict_set n l labels)) as (labels' & Hrun & Hget).
    exists labels'. split; [exact Hrun|]. intros k.
    rewrite Hget, reverse_cons, dict_get_app, dict_get_set. cbn.
    destruct (dict_get k (reverse rows)); [done|].
    by destruct (decide (k = n)).
Qed.

(** X1. When every line of labels.dat is read, [load_labels] succeeds and
    the label of a channel is the one on the last line that gives this
    channel; a channel that no line gives is not in the dict. *)
Theorem load_labels_last_line_wins fs data_dir lines rows :
  readlines fs (path_join data_dir "labels.dat") = inr lines →
  Forall2 (λ line row, parse_label_line line = inr row) lines rows →
  ∃ labels,
    load_labels fs data_dir = inr labels
    ∧ ∀ n, dict_get n labels = dict_get n (reverse rows).
Proof.
  intros Hlines Hall. unfold load_labels. rewrite Hlines. cbn [rbind].
  destruct (labels_of_lines_rows lines rows [] Hall) as (labels & Hrun & Hget).
  exists labels. split; [exact Hrun|]. intros n. rewrite Hget.
  by destruct (dict_get n (reverse rows)).
Qed.

Lemma load_labels_last_line_wins_witness :
  ∃ labels,
    load_labels (house_fs repeated_labels []) "/data/REDD/house_1" = inr labels
    ∧ dict_get 3 labels = Some "stove"
    ∧ dict_get 4 labels = None.
Proof.
  destruct (load_labels_last_line_wins (house_fs repeated_labels [])
              "/data/REDD/house_1" repeated_labels
              [(1, "mains"); (3, "oven"); (2, "mains"); (3, "stove")])
    as (labels & Hrun & Hget).
  - vm_compute. reflexivity.
  - repeat constructor.
  - exists labels. split; [exact Hrun|]. by rewrite !Hget.
Defined.

Lemma labels_of_lines_append lines rows labels :
  Forall2 (λ line row, parse_label_line line = inr row) lines rows →
  NoDup (dict_keys (labels ++ rows)) →
  labels_of_lines labels lines = inr (labels ++ rows).
Proof.
  intros Hall. revert labels.
  induction Hall as [|line [n l] lines rows Hline _ IH]; intros labels Hnodup.
  - by rewrite app_nil_r.
  - cbn [labels_of_lines]. rewrite Hline.
    assert (n ∉ dict_keys labels) as Hfresh.
    { unfold dict_keys in *. rewrite fmap_app in Hnodup.
      apply NoDup_app in Hnodup as (_ & Hdisj & _).
      intros Hin. apply (Hdisj n Hin). cbn. apply elem_of_cons. by left. }
    rewrite (dict_set_fresh _ _ _ Hfresh).
    replace (labels ++ (n, l) :: rows) with ((labels ++ [(n, l)]) ++ rows)
      by (by rewrite <- app_assoc).
    apply IH. by rewrite <- app_assoc.
Qed.

(** X2. When every line of labels.dat is read and no channel number
    occurs on two lines, the dict that [load_labels] returns holds the
    rows of the file in file order, and so [elements_below_key] lists the
    meters of a utility in file order. *)
Theorem load_labels_file_order fs self key_obj u p lines rows :
  readlines fs (path_join p "labels.dat") = inr lines →
  Forall2 (λ line row, parse_label_line line = inr row) lines rows →
  NoDup (rows.*1) →
  load_labels fs p = inr rows
  ∧ (1 ≤ building key_obj ≤ 6 →
     meter key_obj = None → utility key_obj = Some u →
     _path_for_house fs self key_obj = inr p →
     elements_below_key fs self (Some (KPath key_obj)) =
     inr ((λ m, "meter" +:+ format_d m) <$> filter (λ m, m ≠ 2) (rows.*1))).
Proof.
  intros Hlines Hall Hnodup.
  assert (load_labels fs p = inr rows) as Hlabels.
  { unfold load_labels. rewrite Hlines. cbn [rbind].
    by apply (labels_of_lines_append lines rows []). }
  split; [exact Hlabels|]. intros Hb Hm Hu Hp.
  unfold elements_below_key. rewrite Hm, (building_ok _ Hb), Hu, Hp.
  cbn [rbind]. rewrite Hlabels. cbn [rbind]. do 2 f_equal.
  apply list_filter_iff. intros m.
  rewrite not_elem_of_cons. split; [by intros [? _]|].
  intros ?. split; [done|]. apply not_elem_of_nil.
Qed.

Lemma load_labels_file_order_witness :
  load_labels (house_fs zero_labels []) "/data/REDD/house_1" =
  inr [(0, "microwave"); (1, "mains"); (2, "mains"); (3, "microwave")]
  ∧ elements_below_key (house_fs zero_labels []) redd
      (Some (KPath {| building := 1; meter := None;
                      utility := Some "electric" |})) =
    inr ["meter0"; "meter1"; "meter3"].
Proof.
  destruct (load_labels_file_order (house_fs zero_labels []) redd
              {| building := 1; meter := None; utility := Some "electric" |}
              "electric" "/data/REDD/house_1" zero_labels
              [(0, "microwave"); (1, "mains"); (2, "mains"); (3, "microwave")])
    as [Hlabels Hlist].
  - vm_compute. reflexivity.
  - repeat constructor.
  - apply (bool_decide_unpack _). vm_compute. exact I.
  - split; [exact Hlabels|]. rewrite Hlist.
    + vm_compute. reflexivity.
    + cbn. lia.
    + reflexivity.
    + reflexivity.
    + vm_compute. reflexivity.
Defined.

Lemma split_no_sep sep s :
  string_forall (λ c, negb (Ascii.eqb c sep)) s = true → split sep s = [s].
Proof.
  induction s as [|a s IH]; cbn [split string_forall]; [done|].
  intros [Ha Hs]%andb_true_iff. apply negb_true_iff in Ha. rewrite Ha.
  by rewrite (IH Hs).
Qed.

Lemma split_app sep s1 s2 :
  string_forall (λ c, negb (Ascii.eqb c sep)) s1 = true →
  split sep (s1 +:+ String sep s2) = s1 :: split sep s2.
Proof.
  induction s1 as [|a s1 IH]; intros Hs1.
  - change (split sep (String sep s2) = [EmptyString] ++ split sep s2).
    cbn [split]. by rewrite (proj2 (Ascii.eqb_eq sep sep) eq_refl).
  - cbn [string_forall] in Hs1. apply andb_true_iff in Hs1 as [Ha Hs].
    apply negb_true_iff in Ha.
    change (split sep (String a (s1 +:+ String sep s2)) =
            String a s1 :: split sep s2).
    cbn [split]. by rewrite Ha, (IH Hs).
Qed.

(** X3. A line of labels.dat without a space character (a blank line, for
    one) makes the read fail with IndexError, also when its text is not a
    number; and [load_labels] fails with the exception of the first line
    that cannot be read, whatever follows it. *)
Theorem load_labels_first_bad_line fs data_dir good bad rest rows e :
  readlines fs (path_join data_dir "labels.dat") = inr (good ++ bad :: rest) →
  Forall2 (λ line row, parse_label_line line = inr row) good rows →
  (string_forall (λ c, negb (Ascii.eqb c " ")) bad = true →
   parse_label_line bad = inl (IndexError "list index out of range"))
  ∧ (parse_label_line bad = inl e → load_labels fs data_dir = inl e).
Proof.
  intros Hlines Hgood. split.
  - intros Hbad. unfold parse_label_line. by rewrite (split_no_sep _ _ Hbad).
  - intros Hbad. unfold load_labels. rewrite Hlines. cbn [rbind].
    clear Hlines. generalize (@nil (Z * string)). induction Hgood as [|line [n l] good rows Hline _ IH];
      intros labels; cbn [labels_of_lines app].
    + by rewrite Hbad.
    + rewrite Hline. apply IH.
Qed.

Lemma load_labels_first_bad_line_witness :
  parse_label_line nl = inl (IndexError "list index out of range")
  ∧ load_labels (house_fs blank_line_labels []) "/data/REDD/house_1" =
    inl (IndexError "list index out of range").
Proof.
  destruct (load_labels_first_bad_line (house_fs blank_line_labels [])
              "/data/REDD/house_1"
              [ "1 mains" +:+ nl; "2 mains" +:+ nl ] nl [ "x oven" +:+ nl ]
              [(1, "mains"); (2, "mains")]
              (IndexError "list index out of range"))
    as [Hline Hfile].
  - vm_compute. reflexivity.
  - repeat constructor.
  - split; [apply Hline; reflexivity|].
    apply Hfile. apply Hline. reflexivity.
Defined.

(** ** Strings and numbers *)

Lemma append_nil_l (s : string) : "" +:+ s = s.
Proof. reflexivity. Qed.

Lemma append_cons a (s1 s2 : string) :
  String a s1 +:+ s2 = String a (s1 +:+ s2).
Proof. reflexivity. Qed.

Lemma append_assoc (s1 s2 s3 : string) :
  (s1 +:+ s2) +:+ s3 = s1 +:+ s2 +:+ s3.
Proof.
  induction s1 as [|a s1 IH]; [done|]. rewrite !append_cons. by rewrite IH.
Qed.

Lemma append_nil_r (s : string) : s +:+ "" = s.
Proof. induction s as [|a s IH]; [done|]. rewrite append_cons. by rewrite IH. Qed.

Lemma string_forall_impl (p q : ascii → bool) s :
  (∀ c, p c = true → q c = true) →
  string_forall p s = true → string_forall q s = true.
Proof.
  intros Hpq. induction s as [|a s IH]; cbn [string_forall]; [done|].
  intros [Ha Hs]%andb_true_iff. apply andb_true_iff. auto.
Qed.

Lemma string_forall_app p s1 s2 :
  string_forall p (s1 +:+ s2) = string_forall p s1 && string_forall p s2.
Proof.
  induction s1 as [|a s1 IH]; [done|].
  rewrite append_cons. cbn [string_forall]. by rewrite IH, andb_assoc.
Qed.

Lemma lstrip_spaces s : string_forall is_space s = true → lstrip s = "".
Proof.
  induction s as [|a s IH]; cbn [string_forall lstrip]; [done|].
  intros [-> Hs]%andb_true_iff. by apply IH.
Qed.

Lemma rstrip_spaces s : string_forall is_space s = true → rstrip s = "".
Proof.
  induction s as [|a s IH]; cbn [string_forall rstrip]; [done|].
  intros [-> Hs]%andb_true_iff. by rewrite (IH Hs).
Qed.

Lemma rstrip_tail l tail :
  string_forall (λ c, negb (is_space c)) l = true →
  string_forall is_space tail = true →
  rstrip (l +:+ tail) = l.
Proof.
  intros Hl Htail. induction l as [|a l IH].
  - rewrite append_nil_l. by apply rstrip_spaces.
  - rewrite append_cons. cbn [string_forall] in Hl. apply andb_true_iff in Hl as [Ha Hl].
    apply negb_true_iff in Ha. cbn [rstrip]. rewrite (IH Hl), Ha.
    by destruct l.
Qed.

Lemma strip_tail l tail :
  string_forall (λ c, negb (is_space c)) l = true →
  string_forall is_space tail = true →
  strip (l +:+ tail) = l.
Proof.
  intros Hl Htail. unfold strip. destruct l as [|a l].
  - rewrite append_nil_l. by rewrite (lstrip_spaces _ Htail).
  - pose proof Hl as Hl'. cbn [string_forall] in Hl'.
    apply andb_true_iff in Hl' as [Ha _]. apply negb_true_iff in Ha.
    rewrite append_cons. cbn [lstrip]. rewrite Ha. rewrite <- append_cons.
    by apply (rstrip_tail (String a l)).
Qed.

Lemma strip_id s :
  string_forall (λ c, negb (is_space c)) s = true → strip s = s.
Proof.
  intros Hs. rewrite <- (append_nil_r s) at 1. by apply strip_tail.
Qed.

Lemma int_strip_id s :
  string_forall (λ c, negb (is_space c)) s = true →
  int_rstrip (int_lstrip s) = s.
Proof.
  intros Hs.
  assert (string_forall (λ c, negb (is_int_space c)) s = true) as Hint.
  { revert Hs. apply string_forall_impl.
    intros [[] [] [] [] [] [] [] []]; by vm_compute. }
  clear Hs.
  assert (int_lstrip s = s) as ->.
  { destruct s as [|a s]; [done|]. cbn [string_forall] in Hint.
    apply andb_true_iff in Hint as [Ha _]. apply negb_true_iff in Ha.
    cbn [int_lstrip]. by rewrite Ha. }
  induction s as [|a s IH]; [done|].
  cbn [string_forall] in Hint. apply andb_true_iff in Hint as [Ha Hs].
  apply negb_true_iff in Ha.
  cbn [int_rstrip]. rewrite (IH Hs), Ha. by destruct s.
Qed.

(** The characters that [format_d] writes. *)
Lemma pretty_N_go_forall (p : ascii → bool) x s :
  (∀ r, p (pretty_N_char r) = true) →
  string_forall p s = true → string_forall p (pretty_N_go x s) = true.
Proof.
  intros Hp. revert s.
  induction (N.lt_wf_0 x) as [x _ IH]; intros s Hs.
  destruct (decide (x = 0%N)) as [->|Hx]; [by rewrite pretty_N_go_0|].
  rewrite pretty_N_go_step by lia. apply IH.
  - apply N.div_lt; lia.
  - cbn [string_forall]. by rewrite Hp, Hs.
Qed.

Lemma format_d_forall (p : ascii → bool) n :
  p "-"%char = true → (∀ r, p (pretty_N_char r) = true) →
  string_forall p (format_d n) = true.
Proof.
  intros Hdash Hp. unfold format_d, pretty, pretty_Z.
  destruct n as [|x|x].
  - specialize (Hp 0%N). cbn [pretty_N_char] in Hp.
    cbn [string_forall]. by rewrite Hp.
  - unfold pretty, pretty_positive, pretty, pretty_N.
    rewrite decide_False by done. by apply pretty_N_go_forall.
  - rewrite append_cons, append_nil_l. cbn [string_forall]. rewrite Hdash.
    unfold pretty, pretty_positive, pretty, pretty_N.
    rewrite decide_False by done. by apply pretty_N_go_forall.
Qed.

Lemma pretty_N_char_cases (p : ascii → bool) :
  p "0"%char = true → p "1"%char = true → p "2"%char = true →
  p "3"%char = true → p "4"%char = true → p "5"%char = true →
  p "6"%char = true → p "7"%char = true → p "8"%char = true →
  p "9"%char = true → ∀ r, p (pretty_N_char r) = true.
Proof. intros. unfold pretty_N_char. by repeat case_match. Qed.

Lemma format_d_no_space n :
  string_forall (λ c, negb (is_space c)) (format_d n) = true.
Proof.
  apply format_d_forall; [done|].
  by apply (pretty_N_char_cases (λ c, negb (is_space c))).
Qed.

Lemma digit_of_pretty_N_char r :
  (r < 10)%N → digit_of (pretty_N_char r) = Some (Z.of_N r).
Proof.
  intros Hr.
  assert (r = 0 ∨ r = 1 ∨ r = 2 ∨ r = 3 ∨ r = 4 ∨ r = 5 ∨ r = 6 ∨ r = 7
          ∨ r = 8 ∨ r = 9)%N as Hcases by lia.
  destruct_or!; by subst.
Qed.

Lemma int_digits_pretty_N_go x s :
  (0 < x)%N →
  int_digits 0 false (pretty_N_go x s) = int_digits (Z.of_N x) true s.
Proof.
  revert s. induction (N.lt_wf_0 x) as [x _ IH]; intros s Hx.
  rewrite pretty_N_go_step by done.
  pose proof (N.mod_lt x 10) as Hmod.
  pose proof (N.div_mod x 10) as Hdiv.
  destruct (decide (x `div` 10 = 0)%N) as [Hz|Hnz].
  - rewrite Hz, pretty_N_go_0. cbn [int_digits].
    rewrite digit_of_pretty_N_char by lia. f_equal. lia.
  - rewrite IH by (try apply N.div_lt; lia). cbn [int_digits].
    rewrite digit_of_pretty_N_char by lia. f_equal. lia.
Qed.

Lemma int_digits_pretty_positive (x : positive) :
  int_digits 0 false (pretty x) = Some (Z.pos x).
Proof.
  unfold pretty, pretty_positive, pretty, pretty_N.
  rewrite decide_False by done. by rewrite int_digits_pretty_N_go.
Qed.

Lemma py_int_unsigned s :
  string_forall (λ c, match digit_of c with Some _ => true | None => false end)
    s = true →
  py_int s = int_digits 0 false s.
Proof.
  intros Hs. unfold py_int. rewrite int_strip_id.
  2: { revert Hs. apply string_forall_impl.
       intros [[] [] [] [] [] [] [] []]; by vm_compute. }
  destruct s as [|[[] [] [] [] [] [] [] []] s]; try done.
Qed.

(** [int] reads back what [format_d] writes. *)
Lemma py_int_format_d n : py_int (format_d n) = Some n.
Proof.
  unfold format_d, pretty, pretty_Z. destruct n as [|x|x]; [done| |].
  - rewrite py_int_unsigned; [apply int_digits_pretty_positive|].
    unfold pretty, pretty_positive, pretty, pretty_N.
    rewrite decide_False by done.
    apply pretty_N_go_forall; [|done].
    by apply (pretty_N_char_cases
                (λ c, match digit_of c with Some _ => true | None => false end)).
  - unfold py_int. rewrite int_strip_id by apply (format_d_no_space (Z.neg x)).
    rewrite append_cons, append_nil_l. by rewrite int_digits_pretty_positive.
Qed.

(** X4. A well-formed line of labels.dat is read back: a channel number
    in decimal, as [format_d] prints it, then one space, a label without
    white space and the line end (white space other than the space
    character) give this number and this label; what follows a further
    space is dropped, so of a label of two words only the first is kept. *)
Theorem label_line_round_trip n l tail rest :
  string_forall (λ c, negb (is_space c)) l = true →
  string_forall (λ c, is_space c && negb (Ascii.eqb c " ")) tail = true →
  rest = "" ∨ (∃ r, rest = String " " r) →
  parse_label_line (format_d n +:+ " " +:+ l +:+ tail +:+ rest) = inr (n, l).
Proof.
  intros Hl Htail Hrest.
  assert (string_forall (λ c, negb (Ascii.eqb c " ")) (l +:+ tail) = true)
    as Hfield.
  { rewrite string_forall_app. apply andb_true_iff. split.
    - revert Hl. apply string_forall_impl.
      intros [[] [] [] [] [] [] [] []]; by vm_compute.
    - revert Htail. apply string_forall_impl.
      by intros c [_ ?]%andb_true_iff. }
  assert (string_forall is_space tail = true) as Hspaces.
  { revert Htail. apply string_forall_impl. by intros c [? _]%andb_true_iff. }
  assert (∃ more,
            split " " (format_d n +:+ " " +:+ l +:+ tail +:+ rest) =
            format_d n :: (l +:+ tail) :: more) as [more Hsplit].
  { change (format_d n +:+ " " +:+ l +:+ tail +:+ rest)
      with (format_d n +:+ String " " (l +:+ tail +:+ rest)).
    rewrite split_app.
    2: { apply format_d_forall; [done|].
         by apply (pretty_N_char_cases (λ c, negb (Ascii.eqb c " "))). }
    rewrite <- append_assoc.
    destruct Hrest as [->|[r ->]].
    - rewrite append_nil_r, (split_no_sep _ _ Hfield). by exists [].
    - rewrite (split_app _ _ _ Hfield).
      destruct (split " " r) as [|w ws] eqn:Hr; by eexists. }
  unfold parse_label_line. rewrite Hsplit. cbn [lookup list_lookup].
  by rewrite py_int_format_d, (strip_tail _ _ Hl Hspaces).
Qed.

Lemma label_line_round_trip_witness :
  parse_label_line ("17 kitchen_outlets" +:+ String (ascii_of_nat 13) nl) =
  inr (17, "kitchen_outlets")
  ∧ parse_label_line ("4 washer dryer" +:+ nl) = inr (4, "washer").
Proof.
  split.
  - apply (label_line_round_trip 17 "kitchen_outlets"
             (String (ascii_of_nat 13) nl) "").
    + reflexivity.
    + reflexivity.
    + by left.
  - apply (label_line_round_trip 4 "washer" "" (" dryer" +:+ nl)).
    + reflexivity.
    + reflexivity.
    + right. by eexists.
Defined.

(** ** Buildings *)

Lemma building_name_inj b b' :
  "building" +:+ format_d b = "building" +:+ format_d b' → b = b'.
Proof.
  intros Heq. apply (inj (String.append "building")) in Heq.
  by apply (inj pretty) in Heq.
Qed.

Lemma building_bad b :
  ¬ (1 ≤ b ≤ 6) → negb ((1 <=? b) && (b <=? 6)) = true.
Proof. intros Hb. apply negb_true_iff, andb_false_iff. lia. Qed.

Lemma building_metadata_run fs self key_obj (h : list obj) :
  1 ≤ building key_obj ≤ 6 → meter key_obj = None →
  ∃ v new,
    load_metadata fs self (KPath key_obj) h = (inr v, h ++ new)
    ∧ snapshot snapshot_depth (h ++ new) v =
      Some (building_tree (building key_obj)).
Proof.
  intros Hb Hm.
  assert (∃ new r,
            load_metadata fs self (KPath key_obj) (h ++ []) = (r, h ++ new)
            ∧ outcome (r, h ++ new) = inr (building_tree (building key_obj)))
    as (new & r & Hrun & Hout).
  { unfold load_metadata. rewrite (building_ok _ Hb), Hm. metadata_run I. }
  rewrite app_nil_r in Hrun.
  apply outcome_inr in Hout as (v & -> & Hv). by exists v, new.
Qed.

(** X5. A building number outside 1-6 is turned down before anything
    else is looked at: [load_metadata] raises the ValueError that names the
    building and leaves the heap as it was, whatever the meter, the files
    and the heap are; [elements_below_key] raises the same error for a key
    without a meter, and AssertionError for a key with a meter, whose test
    comes first. *)
Theorem invalid_building_rejected fs self key_obj (h : list obj) :
  ¬ (1 ≤ building key_obj ≤ 6) →
  load_metadata fs self (KPath key_obj) h =
  (inl (ValueError ("Building " +:+ format_d (building key_obj)
                    +:+ " is not a valid building instance.")), h)
  ∧ (meter key_obj = None →
     elements_below_key fs self (Some (KPath key_obj)) =
     inl (ValueError ("Building " +:+ format_d (building key_obj)
                      +:+ " is not a valid building instance.")))
  ∧ (∀ m, meter key_obj = Some m →
     elements_below_key fs self (Some (KPath key_obj)) = inl AssertionError).
Proof.
  intros Hb%building_bad. split; [|split].
  - unfold load_metadata. by rewrite Hb.
  - intros Hm. unfold elements_below_key. by rewrite Hm, Hb.
  - intros m Hm. unfold elements_below_key. by rewrite Hm.
Qed.

Lemma invalid_building_rejected_witness :
  load_metadata (house_fs smoke_labels []) redd (KPath (meter_key 7 1))
    module_heap =
  (inl (ValueError "Building 7 is not a valid building instance."),
   module_heap)
  ∧ elements_below_key (house_fs smoke_labels []) redd
      (Some (KPath {| building := 0; meter := None; utility := None |})) =
    inl (ValueError "Building 0 is not a valid building instance.").
Proof.
  split.
  - apply (invalid_building_rejected (house_fs smoke_labels []) redd
             (meter_key 7 1) module_heap).
    cbn. lia.
  - apply (invalid_building_rejected (house_fs smoke_labels []) redd
             {| building := 0; meter := None; utility := None |} module_heap).
    + cbn. lia.
    + reflexivity.
Defined.

(** X6. The buildings that [elements_below_key] lists at the root are
    the buildings that [load_metadata] accepts: "building<b>" is listed
    exactly when b is one of 1-6, and exactly then [load_metadata] returns
    the dict of building b, with 'instance' b and 'dataset' 'REDD'. *)
Theorem listed_buildings_have_metadata fs self b u (h : list obj) :
  ∃ ids,
    elements_below_key fs self (Some KSlash) = inr ids
    ∧ ("building" +:+ format_d b ∈ ids ↔ 1 ≤ b ≤ 6)
    ∧ ("building" +:+ format_d b ∈ ids ↔
       ∃ v h' items,
         load_metadata fs self
           (KPath {| building := b; meter := None; utility := u |}) h =
         (inr v, h')
         ∧ snapshot snapshot_depth h' v = Some (TDict items)
         ∧ dict_get (AStr "instance") items = Some (TAtom (AInt b))
         ∧ dict_get (AStr "dataset") items = Some (TAtom (AStr "REDD"))).
Proof.
  eexists. split; [reflexivity|].
  assert ("building" +:+ format_d b
          ∈ (λ b, "building" +:+ format_d b) <$> range 1 7 ↔ 1 ≤ b ≤ 6)
    as Hlisted.
  { rewrite list_elem_of_fmap. split.
    - intros (b' & ->%building_name_inj & Hb%elem_of_range). lia.
    - intros Hb. exists b. split; [done|]. apply elem_of_range. lia. }
  split; [exact Hlisted|]. rewrite Hlisted. split.
  - intros Hb.
    destruct (building_metadata_run fs self
                {| building := b; meter := None; utility := u |} h Hb eq_refl)
      as (v & new & Hrun & Hsnap).
    exists v, (h ++ new), (tree_items (building_tree b)).
    split; [exact Hrun|]. split; [exact Hsnap|]. split; reflexivity.
  - intros (v & h' & items & Hrun & _).
    destruct (decide (1 ≤ b ≤ 6)) as [|Hb]; [done|].
    unfold load_metadata in Hrun. cbn [building] in Hrun.
    by rewrite (building_bad _ Hb) in Hrun.
Qed.

(** X7. The 'original_name' in the metadata of a building is the name of
    the directory that [_path_for_house] looks for below the dataset: the
    house directory of a key is the store's path joined with that name,
    when that is a directory, and no other path. *)
Theorem original_name_is_house_directory fs self key_obj (h : list obj) :
  1 ≤ building key_obj ≤ 6 → meter key_obj = None →
  ∃ v h' items name,
    load_metadata fs self (KPath key_obj) h = (inr v, h')
    ∧ snapshot snapshot_depth h' v = Some (TDict items)
    ∧ dict_get (AStr "original_name") items = Some (TAtom (AStr name))
    ∧ ∀ p, _path_for_house fs self key_obj = inr p ↔
           p = path_join (path self) name ∧ isdir fs p = true.
Proof.
  intros Hb Hm.
  destruct (building_metadata_run fs self key_obj h Hb Hm)
    as (v & new & Hrun & Hsnap).
  exists v, (h ++ new), (tree_items (building_tree (building key_obj))),
    ("house_" +:+ format_d (building key_obj)).
  split; [exact Hrun|]. split; [exact Hsnap|]. split; [reflexivity|].
  intros p. unfold _path_for_house.
  destruct (isdir fs (path_join (path self)
                        ("house_" +:+ format_d (building key_obj)))) eqn:Hdir.
  - split; [by intros [= <-]|]. by intros [-> _].
  - split; [done|]. intros [-> Hp]. congruence.
Qed.

Lemma original_name_is_house_directory_witness :
  ∃ v h' items,
    load_metadata (house_fs smoke_labels []) redd
      (KPath {| building := 1; meter := None; utility := None |})
      module_heap = (inr v, h')
    ∧ snapshot snapshot_depth h' v = Some (TDict items)
    ∧ dict_get (AStr "original_name") items = Some (TAtom (AStr "house_1"))
    ∧ _path_for_house (house_fs smoke_labels []) redd
        {| building := 1; meter := None; utility := None |} =
      inr "/data/REDD/house_1".
Proof.
  destruct (original_name_is_house_directory (house_fs smoke_labels []) redd
              {| building := 1; meter := None; utility := None |} module_heap)
    as (v & h' & items & name & Hrun & Hsnap & Hname & Hdir).
  - cbn. lia.
  - reflexivity.
  - exists v, h', items. split; [exact Hrun|]. split; [exact Hsnap|].
    assert (name = "house_1") as ->.
    { vm_compute in Hrun. injection Hrun as <- <-.
      vm_compute in Hsnap. injection Hsnap as <-.
      vm_compute in Hname. by injection Hname as <-. }
    split; [exact Hname|]. apply Hdir. split; reflexivity.
Defined.

(** X8. The listing does not look at the disk above the meters: a
    building 1-6 whose house directory is missing is still listed at the
    root and still has the utility 'electric', and only the listing of its
    meters fails, with AssertionError. *)
Theorem listing_ignores_missing_directories fs self b :
  1 ≤ b ≤ 6 →
  isdir fs (path_join (path self) ("house_" +:+ format_d b)) = false →
  (∃ ids, elements_below_key fs self None = inr ids
          ∧ "building" +:+ format_d b ∈ ids)
  ∧ elements_below_key fs self
      (Some (KPath {| building := b; meter := None; utility := None |})) =
    inr ["electric"]
  ∧ ∀ u, elements_below_key fs self
           (Some (KPath {| building := b; meter := None; utility := Some u |})) =
         inl AssertionError.
Proof.
  intros Hb Hdir. split; [|split].
  - eexists. split; [reflexivity|].
    apply list_elem_of_fmap. exists b. split; [done|]. apply elem_of_range. lia.
  - unfold elements_below_key. cbn [meter building utility].
    by rewrite (building_ok _ Hb).
  - intros u. unfold elements_below_key, _path_for_house.
    cbn [meter building utility]. by rewrite (building_ok _ Hb), Hdir.
Qed.

Lemma listing_ignores_missing_directories_witness :
  (∃ ids, elements_below_key empty_fs redd None = inr ids ∧ "building3" ∈ ids)
  ∧ elements_below_key empty_fs redd
      (Some (KPath {| building := 3; meter := None; utility := None |})) =
    inr ["electric"]
  ∧ elements_below_key empty_fs redd
      (Some (KPath {| building := 3; meter := None;
                      utility := Some "electric" |})) =
    inl AssertionError.
Proof.
  destruct (listing_ignores_missing_directories empty_fs redd 3)
    as (Hroot & Hbuilding & Hmeters).
  - lia.
  - reflexivity.
  - split; [exact Hroot|]. split; [exact Hbuilding|]. apply Hmeters.
Defined.

(** ** Submeters *)

Lemma path_for_house_building fs self key_obj key_obj' :
  building key_obj = building key_obj' →
  _path_for_house fs self key_obj = _path_for_house fs self key_obj'.
Proof. unfold _path_for_house. by intros ->. Qed.

(** X9. For a building 1-6 whose label file is read and a meter m >= 3:
    [elements_below_key] leaves "meter<m>" out of the meters of the
    building exactly when [load_metadata] turns m down as not a recognised
    meter instance. *)
Theorem unlisted_meter_is_unknown fs self key_obj m u p labels (h : list obj) :
  table_intact h →
  1 ≤ building key_obj ≤ 6 → meter key_obj = Some m → 3 ≤ m →
  _path_for_house fs self key_obj = inr p →
  load_labels fs p = inr labels →
  ∃ ids,
    elements_below_key fs self
      (Some (KPath {| building := building key_obj; meter := None;
                      utility := Some u |})) = inr ids
    ∧ ("meter" +:+ format_d m ∉ ids ↔
       (load_metadata fs self (KPath key_obj) h).1 =
       inl (unknown_meter m (building key_obj))).
Proof.
  intros Hh Hb Hm Hm3 Hp Hlabels.
  eexists. split.
  { unfold elements_below_key. cbn [meter building utility].
    rewrite (building_ok _ Hb).
    rewrite (path_for_house_building fs self
               {| building := building key_obj; meter := None;
                  utility := Some u |} key_obj eq_refl), Hp.
    cbn [rbind]. rewrite Hlabels. reflexivity. }
  assert ("meter" +:+ format_d m
          ∈ (λ m, "meter" +:+ format_d m)
              <$> filter (λ m, m ∉ [2]) (dict_keys labels)
          ↔ m ∈ dict_keys labels) as ->.
  { rewrite list_elem_of_fmap. split.
    - intros (m' & ->%meter_name_inj & [_ ?]%list_elem_of_filter). done.
    - intros Hin. exists m. split; [done|]. apply list_elem_of_filter.
      split; [|done]. rewrite not_elem_of_cons. split; [lia|].
      apply not_elem_of_nil. }
  rewrite <- dict_get_None.
  pose proof (metadata_tree_submeter fs self key_obj m p labels
                Hb Hm Hm3 Hp Hlabels) as Htree.
  destruct (load_metadata_outcome fs self (KPath key_obj) h Hh)
    as (new & _ & Hout).
  rewrite Htree in Hout. split.
  - intros Hnone. rewrite Hnone in Hout.
    destruct (load_metadata fs self (KPath key_obj) h) as [r h'].
    by apply outcome_inl in Hout.
  - intros Hrun. destruct (dict_get m labels) as [l|]; [|done].
    destruct (load_metadata fs self (KPath key_obj) h) as [r h'].
    cbn [fst] in Hrun. subst r. unfold outcome in Hout. cbn [fst] in Hout.
    destruct (table_entry l) as [entry|]; [|done].
    destruct (entry_appliances entry); [done|].
    destruct (count_instance labels l 1 (range 1 m)) as [e|i] eqn:Hcount;
      [|done].
    apply count_instance_absent in Hcount as (j & _ & _ & ->). done.
Qed.

Lemma unlisted_meter_is_unknown_witness :
  ∃ ids,
    elements_below_key (house_fs smoke_labels []) redd
      (Some (KPath {| building := 1; meter := None;
                      utility := Some "electric" |})) = inr ids
    ∧ ("meter12" ∉ ids)
    ∧ (load_metadata (house_fs smoke_labels []) redd (KPath (meter_key 1 12))
         module_heap).1 = inl (unknown_meter 12 1).
Proof.
  destruct (unlisted_meter_is_unknown (house_fs smoke_labels []) redd
              (meter_key 1 12) 12 "electric" "/data/REDD/house_1"
              [ (1, "mains"); (2, "mains"); (3, "oven"); (4, "refrigerator");
                (5, "smoke_alarms"); (6, "lighting"); (7, "kitchen_outlets");
                (8, "microwave"); (9, "smoke_alarms") ] module_heap)
    as (ids & Hrun & Hiff).
  - reflexivity.
  - cbn. lia.
  - reflexivity.
  - lia.
  - vm_compute. reflexivity.
  - vm_compute. reflexivity.
  - exists ids. split; [exact Hrun|].
    assert ((load_metadata (house_fs smoke_labels []) redd
               (KPath (meter_key 1 12)) module_heap).1 =
            inl (unknown_meter 12 1)) as Hraise by (vm_compute; reflexivity).
    split; [|exact Hraise]. apply Hiff. exact Hraise.
Defined.

(** X10. The metadata of a submeter needs the files of its house: for a
    building 1-6 and a meter m >= 3, [load_metadata] raises AssertionError
    when the house directory is missing, and the IOError of labels.dat
    when the directory is there and the label file is not; the listing of
    the meters of the building fails in the same way. *)
Theorem submeter_metadata_needs_files fs self key_obj m (h : list obj) :
  1 ≤ building key_obj ≤ 6 → meter key_obj = Some m → 3 ≤ m →
  (isdir fs (path_join (path self)
               ("house_" +:+ format_d (building key_obj))) = false →
   (∃ h', load_metadata fs self (KPath key_obj) h = (inl AssertionError, h'))
   ∧ ∀ u, elements_below_key fs self
            (Some (KPath {| building := building key_obj; meter := None;
                            utility := Some u |})) = inl AssertionError)
  ∧ (∀ p, _path_for_house fs self key_obj = inr p →
          fs (path_join p "labels.dat") = None →
          (∃ h', load_metadata fs self (KPath key_obj) h =
                 (inl (IOError (path_join p "labels.dat")), h'))
          ∧ ∀ u, elements_below_key fs self
                   (Some (KPath {| building := building key_obj; meter := None;
                                   utility := Some u |})) =
                 inl (IOError (path_join p "labels.dat"))).
Proof.
  intros Hb Hm Hm3.
  assert ((m =? 1) = false) as Hm1 by (apply Z.eqb_neq; lia).
  assert ((m =? 2) = false) as Hm2 by (apply Z.eqb_neq; lia).
  split.
  - intros Hdir.
    assert (_path_for_house fs self key_obj = inl AssertionError) as Hp
      by (unfold _path_for_house; by rewrite Hdir).
    split.
    + assert (∃ new,
                load_metadata fs self (KPath key_obj) (h ++ []) =
                (inl AssertionError, h ++ new)) as [new Hrun].
      { unfold load_metadata. rewrite (building_ok _ Hb), Hm, Hm1, Hm2.
        eexists. heap_run I; reflexivity. }
      rewrite app_nil_r in Hrun. by eexists.
    + intros u. unfold elements_below_key. cbn [meter building utility].
      rewrite (building_ok _ Hb).
      by rewrite (path_for_house_building fs self
                    {| building := building key_obj; meter := None;
                       utility := Some u |} key_obj eq_refl), Hp.
  - intros p Hp Hfile.
    assert (load_labels fs p = inl (IOError (path_join p "labels.dat")))
      as Hlabels by (unfold load_labels, readlines; by rewrite Hfile).
    split.
    + assert (∃ new,
                load_metadata fs self (KPath key_obj) (h ++ []) =
                (inl (IOError (path_join p "labels.dat")), h ++ new))
        as [new Hrun].
      { unfold load_metadata. rewrite (building_ok _ Hb), Hm, Hm1, Hm2.
        eexists. heap_run I; reflexivity. }
      rewrite app_nil_r in Hrun. by eexists.
    + intros u. unfold elements_below_key. cbn [meter building utility].
      rewrite (building_ok _ Hb).
      rewrite (path_for_house_building fs self
                 {| building := building key_obj; meter := None;
                    utility := Some u |} key_obj eq_refl), Hp.
      cbn [rbind]. by rewrite Hlabels.
Qed.

Lemma submeter_metadata_needs_files_witness :
  (∃ h', load_metadata empty_fs redd (KPath (meter_key 1 5)) module_heap =
         (inl AssertionError, h'))
  ∧ (∃ h', load_metadata unlabelled_fs redd (KPath (meter_key 2 5))
             module_heap =
           (inl (IOError "/data/REDD/house_2/labels.dat"), h'))
  ∧ elements_below_key unlabelled_fs redd
      (Some (KPath {| building := 2; meter := None;
                      utility := Some "electric" |})) =
    inl (IOError "/data/REDD/house_2/labels.dat").
Proof.
  split.
  - apply (submeter_metadata_needs_files empty_fs redd (meter_key 1 5) 5
             module_heap).
    + cbn. lia.
    + reflexivity.
    + lia.
    + reflexivity.
  - destruct (submeter_metadata_needs_files unlabelled_fs redd (meter_key 2 5) 5
                module_heap) as [_ Hfile].
    + cbn. lia.
    + reflexivity.
    + lia.
    + destruct (Hfile "/data/REDD/house_2") as [Hrun Hlist].
      * vm_compute. reflexivity.
      * reflexivity.
      * split; [exact Hrun|]. apply Hlist.
Defined.

(** ** Instance numbers *)

Lemma range_app lo mid hi :
  lo ≤ mid ≤ hi → range lo hi = range lo mid ++ range mid hi.
Proof.
  intros Hmid. unfold range.
  replace (Z.to_nat (hi - lo))
    with (Z.to_nat (mid - lo) + Z.to_nat (hi - mid))%nat by lia.
  rewrite seq_app, fmap_app. f_equal.
  replace (seq (0 + Z.to_nat (mid - lo)) (Z.to_nat (hi - mid)))
    with (Nat.add (Z.to_nat (mid - lo)) <$> seq 0 (Z.to_nat (hi - mid)))
    by (rewrite fmap_add_seq; f_equal; lia).
  rewrite <- list_fmap_compose.
  apply list_fmap_ext. intros _ i _. cbn. lia.
Qed.

Lemma range_cons lo hi : lo < hi → range lo hi = lo :: range (lo + 1) hi.
Proof.
  intros Hlt. rewrite (range_app lo (lo + 1) hi) by lia.
  unfold range at 1. replace (lo + 1 - lo) with 1 by lia.
  change (Z.to_nat 1) with 1%nat. cbn [seq fmap list_fmap app].
  f_equal. lia.
Qed.

Lemma count_instance_app labels l acc xs ys :
  count_instance labels l acc (xs ++ ys) =
  rbind (count_instance labels l acc xs)
    (λ instance, count_instance labels l instance ys).
Proof.
  revert acc. induction xs as [|i xs IH]; intros acc; cbn [app count_instance].
  - done.
  - destruct (dict_get i labels); [apply IH|done].
Qed.

Lemma count_instance_bounds labels l acc channels instance :
  count_instance labels l acc channels = inr instance →
  acc ≤ instance ≤ acc + Z.of_nat (length channels).
Proof.
  revert acc. induction channels as [|i channels IH]; intros acc;
    cbn [count_instance length].
  - intros [= <-]. lia.
  - destruct (dict_get i labels); [|done].
    intros Hrest%IH. case_bool_decide; lia.
Qed.

Lemma length_range lo hi : lo ≤ hi → Z.of_nat (length (range lo hi)) = hi - lo.
Proof. intros Hle. unfold range. rewrite length_fmap, length_seq. lia. Qed.

(** X11. The instance numbers tell apart the meters that share a label:
    when the count succeeds for two meters m < m' and m carries the label,
    the number counted for m' is greater than the one counted for m; and
    a number counted for a meter m lies between 1 and m. *)
Theorem instance_numbers_increase labels l m m' instance instance' :
  1 ≤ m < m' →
  dict_get m labels = Some l →
  count_instance labels l 1 (range 1 m) = inr instance →
  count_instance labels l 1 (range 1 m') = inr instance' →
  1 ≤ instance ∧ instance < instance' ∧ instance' ≤ m'.
Proof.
  intros Hm Hl Hcount Hcount'.
  pose proof (count_instance_bounds _ _ _ _ _ Hcount) as Hbounds.
  pose proof (count_instance_bounds _ _ _ _ _ Hcount') as Hbounds'.
  rewrite length_range in Hbounds, Hbounds' by lia.
  rewrite (range_app 1 m m'), count_instance_app, Hcount in Hcount' by lia.
  cbn [rbind] in Hcount'.
  rewrite (range_cons m m') in Hcount' by lia.
  cbn [count_instance] in Hcount'. rewrite Hl, bool_decide_true in Hcount' by done.
  apply count_instance_bounds in Hcount'. lia.
Qed.

Lemma instance_numbers_increase_witness :
  count_instance
    [ (1, "mains"); (2, "mains"); (3, "oven"); (4, "refrigerator");
      (5, "smoke_alarms"); (6, "lighting"); (7, "kitchen_outlets");
      (8, "microwave"); (9, "smoke_alarms") ] "smoke_alarms" 1 (range 1 5) =
  inr 1
  ∧ count_instance
      [ (1, "mains"); (2, "mains"); (3, "oven"); (4, "refrigerator");
        (5, "smoke_alarms"); (6, "lighting"); (7, "kitchen_outlets");
        (8, "microwave"); (9, "smoke_alarms") ] "smoke_alarms" 1 (range 1 9) =
    inr 2
  ∧ 1 ≤ 1 ∧ 1 < 2 ∧ 2 ≤ 9.
Proof.
  split; [reflexivity|]. split; [reflexivity|].
  apply (instance_numbers_increase
           [ (1, "mains"); (2, "mains"); (3, "oven"); (4, "refrigerator");
             (5, "smoke_alarms"); (6, "lighting"); (7, "kitchen_outlets");
             (8, "microwave"); (9, "smoke_alarms") ] "smoke_alarms" 5 9 1 2).
  - lia.
  - reflexivity.
  - reflexivity.
  - reflexivity.
Defined.

Lemma count_instance_first_gap labels l acc lo i hi :
  lo ≤ i < hi →
  (∀ j, lo ≤ j < i → is_Some (dict_get j labels)) →
  dict_get i labels = None →
  count_instance labels l acc (range lo hi) = inl (KeyError (AInt i)).
Proof.
  intros Hi Hbelow Hnone.
  rewrite (range_app lo i hi), count_instance_app by lia.
  rewrite count_instance_present.
  2: { apply Forall_forall. intros j Hj%elem_of_range. by apply Hbelow. }
  cbn [rbind]. rewrite (range_cons i hi) by lia.
  cbn [count_instance]. by rewrite Hnone.
Qed.

(** X12. A gap in the label file below the meter stops the count: for a
    meter m >= 3 of a building 1-6 whose label has a table entry listing
    appliances, when channel i is the first of 1 .. m-1 that the label
    file lacks, [load_metadata] raises KeyError with i. *)
Theorem missing_channel_below_meter fs self key_obj m p labels l entry i
    (h : list obj) :
  table_intact h →
  1 ≤ building key_obj ≤ 6 → meter key_obj = Some m → 3 ≤ m →
  _path_for_house fs self key_obj = inr p →
  load_labels fs p = inr labels →
  dict_get m labels = Some l →
  table_entry l = Some entry →
  entry_appliances entry ≠ [] →
  1 ≤ i < m →
  (∀ j, 1 ≤ j < i → is_Some (dict_get j labels)) →
  dict_get i labels = None →
  ∃ h', load_metadata fs self (KPath key_obj) h = (inl (KeyError (AInt i)), h').
Proof.
  intros Hh Hb Hm Hm3 Hp Hlabels Hl Hentry Happs Hi Hbelow Hnone.
  pose proof (metadata_tree_submeter fs self key_obj m p labels
                Hb Hm Hm3 Hp Hlabels) as Htree.
  rewrite Hl, Hentry in Htree.
  rewrite (count_instance_first_gap labels l 1 1 i m Hi Hbelow Hnone) in Htree.
  destruct (entry_appliances entry) as [|a apps]; [by destruct Happs|].
  exact (load_metadata_inl _ _ _ _ _ Hh Htree).
Qed.

Lemma missing_channel_below_meter_witness :
  ∃ h', load_metadata (house_fs gap_labels []) redd (KPath (meter_key 1 3))
          module_heap = (inl (KeyError (AInt 1)), h').
Proof.
  apply (missing_channel_below_meter (house_fs gap_labels []) redd
           (meter_key 1 3) 3 "/data/REDD/house_1" [(3, "microwave")]
           "microwave"
           (TDict [(AStr "appliances",
                    TList [TDict [(AStr "type", TAtom (AStr "microwave"))]])])
           1 module_heap).
  - reflexivity.
  - cbn. lia.
  - reflexivity.
  - lia.
  - vm_compute. reflexivity.
  - vm_compute. reflexivity.
  - reflexivity.
  - reflexivity.
  - discriminate.
  - lia.
  - intros j Hj. lia.
  - reflexivity.
Defined.

(** X13. A circuit whose table entry lists no appliances gets no
    instance number, and no channel is counted: for a meter m >= 3 of a
    building 1-6, whatever channels the label file lacks, [load_metadata]
    returns the meter's own fields together with the fields of the entry,
    and no 'appliances'. *)
Theorem circuit_without_appliances fs self key_obj m p labels l entry
    (h : list obj) :
  table_intact h →
  1 ≤ building key_obj ≤ 6 → meter key_obj = Some m → 3 ≤ m →
  _path_for_house fs self key_obj = inr p →
  load_labels fs p = inr labels →
  dict_get m labels = Some l →
  table_entry l = Some entry →
  entry_appliances entry = [] →
  ∃ v h' items,
    load_metadata fs self (KPath key_obj) h = (inr v, h')
    ∧ snapshot snapshot_depth h' v = Some (TDict items)
    ∧ dict_get (AStr "device_model") items = Some (TAtom (AStr "eMonitor"))
    ∧ dict_get (AStr "instance") items = Some (TAtom (AInt m))
    ∧ dict_get (AStr "building") items =
      Some (TAtom (AInt (building key_obj)))
    ∧ dict_get (AStr "submeter_of") items = Some (TAtom (AInt 1))
    ∧ dict_get (AStr "appliances") items = None
    ∧ ∀ k t, (k, t) ∈ tree_items entry → dict_get k items = Some t.
Proof.
  intros Hh Hb Hm Hm3 Hp Hlabels Hl Hentry Happs.
  pose proof (metadata_tree_submeter fs self key_obj m p labels
                Hb Hm Hm3 Hp Hlabels) as Htree.
  rewrite Hl, Hentry, Happs in Htree.
  destruct (load_metadata_inr fs self (KPath key_obj) h _ Hh Htree)
    as (v & h' & Hrun & Hsnap).
  exists v, h', (tree_items (submeter_tree (building key_obj) m entry 1)).
  split; [exact Hrun|]. split; [exact Hsnap|].
  apply table_entry_cases in Hentry.
  unfold MAP_items, MAP_literal in Hentry.
  repeat (apply elem_of_cons in Hentry as [Hentry|Hentry];
          [injection Hentry as -> ->; try discriminate Happs|]).
  all: try (by apply elem_of_nil in Hentry).
  all: repeat (split; [reflexivity|]).
  all: intros k t Hin; cbn [tree_items] in Hin.
  all: repeat (apply elem_of_cons in Hin as [Hin|Hin];
               [injection Hin as -> ->; reflexivity|]).
  all: by apply elem_of_nil in Hin.
Qed.

Lemma circuit_without_appliances_witness :
  ∃ v h' items,
    load_metadata (house_fs [ "7 kitchen_outlets" +:+ nl ] []) redd
      (KPath (meter_key 1 7)) module_heap = (inr v, h')
    ∧ snapshot snapshot_depth h' v = Some (TDict items)
    ∧ dict_get (AStr "appliances") items = None
    ∧ dict_get (AStr "category") items = Some (TAtom (AStr "sockets"))
    ∧ dict_get (AStr "room") items =
      Some (TDict [(AStr "name", TAtom (AStr "kitchen"))]).
Proof.
  destruct (circuit_without_appliances
              (house_fs [ "7 kitchen_outlets" +:+ nl ] []) redd
              (meter_key 1 7) 7 "/data/REDD/house_1" [(7, "kitchen_outlets")]
              "kitchen_outlets"
              (TDict [ (AStr "room", TDict [(AStr "name", TAtom (AStr "kitchen"))]);
                       (AStr "category", TAtom (AStr "sockets")) ])
              module_heap)
    as (v & h' & items & Hrun & Hsnap & _ & _ & _ & _ & Happs & Hentry).
  - reflexivity.
  - cbn. lia.
  - reflexivity.
  - lia.
  - vm_compute. reflexivity.
  - vm_compute. reflexivity.
  - reflexivity.
  - reflexivity.
  - reflexivity.
  - exists v, h', items. split; [exact Hrun|]. split; [exact Hsnap|].
    split; [exact Happs|]. split.
    + apply Hentry. cbn [tree_items]. apply elem_of_cons. right.
      apply elem_of_cons. by left.
    + apply Hentry. cbn [tree_items]. apply elem_of_cons. by left.
Defined.

(** ** More on loading readings *)

Lemma sorted_head_le (l : list Z) a :
  StronglySorted Z.le l → head l = Some a → Forall (λ x, a ≤ x) l.
Proof.
  intros Hsorted. destruct Hsorted as [|x l Hl Hall]; [done|].
  intros [= ->]. constructor; [lia|done].
Qed.

Lemma sorted_le_last (l : list Z) b :
  StronglySorted Z.le l → last l = Some b → Forall (λ x, x ≤ b) l.
Proof.
  intros Hsorted. induction Hsorted as [|x l Hl IH Hall]; [done|].
  destruct l as [|y l'].
  - intros [= ->]. constructor; [lia|done].
  - rewrite last_cons_cons. intros Hlast.
    constructor; [|by apply IH].
    apply last_Some in Hlast as [l'' Hl''].
    rewrite Forall_forall in Hall. apply Hall. rewrite Hl''.
    apply elem_of_app. right. by apply list_elem_of_singleton.
Qed.

Section more_load_facts.
Context {V : Type}.
Variable read_csv : list string → result (list (Z * V)).
Variable to_datetime : Z → Z.
Variable n_look_ahead_rows : nat.

(** X14. Without time windows ([periods] left out, or an empty list),
    for a channel file that holds a row and whose unix times lie between
    -9223372036 and 9223372036, [load] yields one frame, the whole channel:
    its rows are the rows of the file, each with its time converted, in
    ascending order of time; it has no look-ahead rows; and its time frame
    starts at the timestamp of its first row, ends at the timestamp of its
    last row, includes its end, and so covers every row. *)
Theorem whole_channel_timeframe fs self key_obj p m lines raw periods :
  _path_for_house fs self key_obj = inr p →
  meter key_obj = Some m →
  readlines fs (path_join p ("channel_" +:+ format_d m +:+ ".dat")) = inr lines →
  read_csv lines = inr raw →
  raw ≠ [] →
  Forall (λ r, - last_second ≤ r.1 ≤ last_second) raw →
  periods = None ∨ periods = Some [] →
  ∃ df first final,
    load read_csv to_ns n_look_ahead_rows fs self key_obj periods = inr [df]
    ∧ rows df = channel_frame to_ns raw
    ∧ rows df ≡ₚ prod_map to_ns id <$> raw
    ∧ StronglySorted Z.le ((rows df).*1)
    ∧ look_ahead df = None
    ∧ head (rows df) = Some first ∧ last (rows df) = Some final
    ∧ timeframe df =
      Some {| tf_start := first.1; tf_end := final.1; include_end := true |}
    ∧ Forall (λ r, first.1 ≤ r.1 ≤ final.1) (rows df).
Proof.
  intros Hp Hm Hlines Hcsv Hraw Hbound Hperiods.
  pose proof (channel_frame_sorted to_ns raw (to_ns_mono_on raw Hbound))
    as Hsorted.
  assert (channel_frame to_ns raw ≡ₚ prod_map to_ns id <$> raw) as Hperm
    by (unfold channel_frame; by rewrite sort_index_perm).
  assert (channel_frame to_ns raw ≠ []) as Hne.
  { intros Hnil. rewrite Hnil in Hperm. symmetry in Hperm.
    apply Permutation_nil_r in Hperm. by apply fmap_nil_inv in Hperm. }
  destruct (head (channel_frame to_ns raw)) as [first|] eqn:Hhead;
    [|by apply head_None in Hhead].
  destruct (last (channel_frame to_ns raw)) as [final|] eqn:Hlast;
    [|by apply last_None in Hlast].
  exists {| rows := channel_frame to_ns raw;
            timeframe := Some {| tf_start := first.1; tf_end := final.1;
                                 include_end := true |};
            look_ahead := None |}, first, final.
  split.
  { unfold load, read_frame. rewrite Hp, Hm. cbn [rbind].
    rewrite Hlines. cbn [rbind]. rewrite Hcsv. cbn [rbind].
    rewrite Hhead, Hlast. cbn [rbind]. by destruct Hperiods as [-> | ->]. }
  cbn [rows timeframe look_ahead].
  do 7 (split; [done|]).
  assert (head ((channel_frame to_ns raw).*1) = Some first.1) as Hhead'.
  { destruct (channel_frame to_ns raw); [done|].
    by injection Hhead as ->. }
  assert (last ((channel_frame to_ns raw).*1) = Some final.1) as Hlast'
    by (by rewrite fmap_last, Hlast).
  pose proof (sorted_head_le _ _ Hsorted Hhead') as Hlow.
  pose proof (sorted_le_last _ _ Hsorted Hlast') as Hhigh.
  rewrite Forall_fmap in Hlow, Hhigh.
  rewrite Forall_forall in Hlow, Hhigh. apply Forall_forall.
  intros r Hr. specialize (Hlow r Hr). specialize (Hhigh r Hr). cbn in *. lia.
Qed.

(** X15. A channel file that cannot be used makes [load] fail, with or
    without time windows: the exception of [read_csv] is passed on, and a
    file that holds no row gives IndexError, from taking the first
    timestamp of an empty frame. *)
Theorem load_unusable_channel fs self key_obj p m lines periods :
  _path_for_house fs self key_obj = inr p →
  meter key_obj = Some m →
  readlines fs (path_join p ("channel_" +:+ format_d m +:+ ".dat")) = inr lines →
  (∀ e, read_csv lines = inl e →
        load read_csv to_datetime n_look_ahead_rows fs self key_obj periods
        = inl e)
  ∧ (read_csv lines = inr [] →
     load read_csv to_datetime n_look_ahead_rows fs self key_obj periods
     = inl (IndexError "index 0 is out of bounds for axis 0 with size 0")).
Proof.
  intros Hp Hm Hlines. unfold load, read_frame.
  rewrite Hp, Hm. cbn [rbind]. rewrite Hlines. cbn [rbind].
  split; [intros e Hcsv|intros Hcsv]; by rewrite Hcsv.
Qed.

(** X16. [load] needs a key with a meter: for a key of a building alone
    it yields nothing, and raises AssertionError when the house directory
    is missing and else the TypeError of formatting None as a number,
    without opening a file. *)
Theorem load_needs_a_meter fs self key_obj periods :
  meter key_obj = None →
  load read_csv to_datetime n_look_ahead_rows fs self key_obj periods =
  inl (if isdir fs (path_join (path self)
                      ("house_" +:+ format_d (building key_obj)))
       then TypeError "unsupported format string passed to NoneType.__format__"
       else AssertionError).
Proof.
  intros Hm. unfold load, read_frame, _path_for_house. rewrite Hm.
  by destruct (isdir fs _).
Qed.

(** X17. Of the disk [load] looks at the house directory and at the file
    of the one channel, and at nothing else: two disks that agree on these
    two give the same answer, whatever their label files hold. *)
Theorem load_reads_one_file fs fs' self key_obj periods :
  isdir fs (path_join (path self) ("house_" +:+ format_d (building key_obj))) =
  isdir fs' (path_join (path self) ("house_" +:+ format_d (building key_obj))) →
  (∀ m, meter key_obj = Some m →
        fs (path_join (path_join (path self)
                         ("house_" +:+ format_d (building key_obj)))
              ("channel_" +:+ format_d m +:+ ".dat")) =
        fs' (path_join (path_join (path self)
                          ("house_" +:+ format_d (building key_obj)))
               ("channel_" +:+ format_d m +:+ ".dat"))) →
  load read_csv to_datetime n_look_ahead_rows fs self key_obj periods =
  load read_csv to_datetime n_look_ahead_rows fs' self key_obj periods.
Proof.
  intros Hdir Hfile. unfold load, read_frame, _path_for_house, readlines.
  rewrite <- Hdir. destruct (isdir fs _); [|done]. cbn [rbind].
  destruct (meter key_obj) as [m|]; [|done]. by rewrite (Hfile m eq_refl).
Qed.

End more_load_facts.

Lemma whole_channel_timeframe_witness :
  ∃ df,
    load text_csv to_ns 2 (house_fs smoke_labels unsorted_channel) redd
      (meter_key 1 5) (Some []) = inr [df]
    ∧ rows df =
      [ (1303132929000000000, "10.0"); (1303132930000000000, "9.5");
        (1303132933000000000, "12.5"); (1303132936000000000, "11.0") ]
    ∧ timeframe df =
      Some {| tf_start := 1303132929000000000; tf_end := 1303132936000000000;
              include_end := true |}
    ∧ Forall (λ r, 1303132929000000000 ≤ r.1 ≤ 1303132936000000000) (rows df).
Proof.
  destruct (whole_channel_timeframe text_csv 2
              (house_fs smoke_labels unsorted_channel) redd (meter_key 1 5)
              "/data/REDD/house_1" 5 unsorted_channel
              [ (1303132933, "12.5"); (1303132929, "10.0");
                (1303132936, "11.0"); (1303132930, "9.5") ] (Some []))
    as (df & first & final & Hrun & Hrows & _ & _ & _ & Hhead & Hlast
        & Hframe & Hcover).
  - vm_compute. reflexivity.
  - reflexivity.
  - vm_compute. reflexivity.
  - vm_compute. reflexivity.
  - discriminate.
  - apply (bool_decide_unpack _). vm_compute. exact I.
  - by right.
  - assert (rows df =
            [ (1303132929000000000, "10.0"); (1303132930000000000, "9.5");
              (1303132933000000000, "12.5"); (1303132936000000000, "11.0") ])
      as Hrows' by (rewrite Hrows; vm_compute; reflexivity).
    rewrite Hrows' in Hhead, Hlast. injection Hhead as <-. injection Hlast as <-.
    exists df. split; [exact Hrun|]. split; [exact Hrows'|].
    split; [exact Hframe|exact Hcover].
Defined.

Lemma load_unusable_channel_witness :
  load text_csv to_ns 2 (house_fs smoke_labels ["no-reading" +:+ nl]) redd
    (meter_key 1 5) None = inl (ValueError "Error tokenizing data")
  ∧ load text_csv to_ns 2 (house_fs smoke_labels []) redd
      (meter_key 1 5) (Some [early_window])
    = inl (IndexError "index 0 is out of bounds for axis 0 with size 0").
Proof.
  split.
  - destruct (load_unusable_channel text_csv to_ns 2
                (house_fs smoke_labels ["no-reading" +:+ nl]) redd
                (meter_key 1 5) "/data/REDD/house_1" 5
                ["no-reading" +:+ nl] None) as [Herror _].
    + vm_compute. reflexivity.
    + reflexivity.
    + vm_compute. reflexivity.
    + apply Herror. vm_compute. reflexivity.
  - destruct (load_unusable_channel text_csv to_ns 2
                (house_fs smoke_labels []) redd
                (meter_key 1 5) "/data/REDD/house_1" 5 []
                (Some [early_window])) as [_ Hempty].
    + vm_compute. reflexivity.
    + reflexivity.
    + vm_compute. reflexivity.
    + apply Hempty. reflexivity.
Defined.

Lemma load_needs_a_meter_witness :
  load text_csv to_ns 2 (house_fs smoke_labels unsorted_channel) redd
    {| building := 1; meter := None; utility := Some "electric" |} None =
  inl (TypeError "unsupported format string passed to NoneType.__format__")
  ∧ load text_csv to_ns 2 empty_fs redd
      {| building := 1; meter := None; utility := Some "electric" |} None =
    inl AssertionError.
Proof.
  split.
  - apply (load_needs_a_meter text_csv to_ns 2
             (house_fs smoke_labels unsorted_channel) redd
             {| building := 1; meter := None; utility := Some "electric" |}
             None).
    reflexivity.
  - apply (load_needs_a_meter text_csv to_ns 2 empty_fs redd
             {| building := 1; meter := None; utility := Some "electric" |}
             None).
    reflexivity.
Defined.

Lemma load_reads_one_file_witness :
  load text_csv to_ns 2 (house_fs smoke_labels unsorted_channel) redd
    (meter_key 1 5) None =
  load text_csv to_ns 2 (house_fs blank_line_labels unsorted_channel) redd
    (meter_key 1 5) None.
Proof.
  apply (load_reads_one_file text_csv to_ns 2
           (house_fs smoke_labels unsorted_channel)
           (house_fs blank_line_labels unsorted_channel) redd (meter_key 1 5)
           None).
  - reflexivity.
  - intros m [= <-]. vm_compute. reflexivity.
Defined.


(** ** The returned dict is made of new objects *)

Lemma private_snapshot_atom base d (h : list obj) a :
  private_snapshot base d h (Atom a) = Some (TAtom a).
Proof. by destruct d. Qed.

Lemma private_snapshot_ref base d (h : list obj) l :
  private_snapshot base (S d) h (Ref l) =
  if (l <? base)%nat then None
  else
    match h !! l with
    | None => None
    | Some (OList xs) => TList <$> mapM (private_snapshot base d h) xs
    | Some (ODict kvs) =>
        TDict <$> mapM (λ kv, pair kv.1 <$> private_snapshot base d h kv.2) kvs
    end.
Proof. reflexivity. Qed.

Lemma private_snapshot_fresh d (H new : list obj) (i : nat) o :
  new !! i = Some o →
  private_snapshot (length H) (S d) (H ++ new) (Ref (length H + i)%nat) =
  match o with
  | OList xs => TList <$> mapM (private_snapshot (length H) d (H ++ new)) xs
  | ODict kvs =>
      TDict <$>
        mapM (λ kv, pair kv.1 <$> private_snapshot (length H) d (H ++ new) kv.2)
          kvs
  end.
Proof.
  intros Hi. rewrite private_snapshot_ref.
  replace (length H + i <? length H)%nat with false
    by (symmetry; apply Nat.ltb_ge; lia).
  rewrite lookup_app_r by lia.
  replace (length H + i - length H)%nat with i by lia. by rewrite Hi.
Qed.

Ltac private_step :=
  first
    [ erewrite private_snapshot_fresh by reflexivity
    | rewrite private_snapshot_atom
    | progress cbn [mapM fmap option_fmap option_map mbind option_bind mret option_ret fst snd] ].

Ltac private_run Hs :=
  eexists _, _; split;
    [ heap_run Hs; reflexivity
    | try reflexivity;
      unfold private_outcome, snapshot_depth; cbn [fst snd];
      repeat private_step; reflexivity ].

Lemma load_metadata_private_run fs self key (H : list obj) :
  table_intact H →
  ∃ new r, load_metadata fs self key (H ++ []) = (r, H ++ new) ∧
     private_outcome (length H) (r, H ++ new) = metadata_tree fs self key.
Proof.
  intros HH.
  pose proof (table_static _ HH) as Hs.
  assert (∃ n, recursion_limit = S (S (S (S n)))) as [fuel Hfuel]
    by (by exists 296%nat).
  unfold load_metadata, metadata_tree.
  destruct key as [|key_obj].
  { unfold dataset_literal. private_run Hs. }
  destruct (negb _) eqn:Hb.
  { private_run Hs. }
  destruct (meter key_obj) as [m|] eqn:Hm.
  2: { private_run Hs. }
  destruct (m =? 1) eqn:Hm1.
  { apply Z.eqb_eq in Hm1 as ->. private_run Hs. }
  destruct (m =? 2) eqn:Hm2.
  { private_run Hs. }
  destruct (_path_for_house fs self key_obj) as [e|p] eqn:Hp; cbn [rbind].
  { private_run Hs. }
  destruct (load_labels fs p) as [e|labels] eqn:Hlabels; cbn [rbind].
  { private_run Hs. }
  destruct (dict_get m labels) as [l|] eqn:Hl.
  2: { private_run Hs. }
  unfold table_entry.
  destruct (dict_get (AStr l) MAP_items) as [entry|] eqn:Hentry.
  2: { assert (dict_get (AStr l) table_refs = None) as Hnone.
       { apply dict_get_None. rewrite table_refs_keys. by apply dict_get_None. }
       private_run Hs. }
  assert (AStr l ∈ dict_keys MAP_items) as Hin.
  { destruct (decide (AStr l ∈ dict_keys MAP_items)) as [|Hn]; [done|].
    apply dict_get_None in Hn. congruence. }
  cbn in Hin.
  repeat (apply elem_of_cons in Hin as [Hin|Hin]; [injection Hin as ->|]).
  20: by apply elem_of_nil in Hin.
  all: vm_compute in Hentry; injection Hentry as <-.
  all: unfold entry_appliances, tree_items; simpl (dict_get _ _); cbn beta iota.
  all: try lazymatch goal with
       | |- context [rbind (count_instance ?a ?b ?c ?d)] =>
           destruct (count_instance a b c d) as [e|inst] eqn:Hcount; cbn [rbind]
       end.
  all: private_run Hs.
Qed.

Lemma mapM_option_ext {A B} (f g : A → option B) (xs : list A) :
  (∀ x, f x = g x) → mapM f xs = mapM g xs.
Proof.
  intros Hfg. induction xs as [|x xs IH]; cbn; [done|]. by rewrite Hfg, IH.
Qed.

(** A value whose objects are all new reads the same whatever is written
    to an older object. *)
Lemma private_snapshot_insert base d (h : list obj) v l o :
  (l < base)%nat →
  private_snapshot base d (<[l:=o]> h) v = private_snapshot base d h v.
Proof.
  intros Hl. revert v. induction d as [|d IH]; intros [a|l0]; try done.
  rewrite !private_snapshot_ref.
  destruct (l0 <? base)%nat eqn:Hl0; [done|].
  apply Nat.ltb_ge in Hl0.
  rewrite list_lookup_insert_ne by lia.
  destruct (h !! l0) as [[kvs|xs]|]; [| |done].
  - f_equal. apply mapM_option_ext. intros kv. by rewrite IH.
  - f_equal. by apply mapM_option_ext.
Qed.

Lemma private_snapshot_snapshot base d (h : list obj) v t :
  private_snapshot base d h v = Some t → snapshot d h v = Some t.
Proof.
  revert v t. induction d as [|d IH]; intros [a|l] t; try done.
  { cbn [private_snapshot]. by destruct (l <? base)%nat. }
  rewrite private_snapshot_ref, snapshot_ref.
  destruct (l <? base)%nat; [done|].
  destruct (h !! l) as [[kvs|xs]|]; [| |done].
  - intros (kts & Hm & ->)%fmap_Some.
    apply fmap_Some. exists kts. split; [|done].
    eapply mapM_snapshot_app; [|exact Hm].
    apply Forall_forall. intros [k v] _ t'. cbn.
    intros (t'' & Hv & ->)%fmap_Some. by rewrite (IH _ _ Hv).
  - intros (ts & Hm & ->)%fmap_Some.
    apply fmap_Some. exists ts. split; [|done].
    eapply mapM_snapshot_app; [|exact Hm].
    apply Forall_forall. intros v _ t'. apply IH.
Qed.

Lemma private_outcome_outcome base r (h : list obj) :
  (∀ e, private_outcome base (r, h) = inl e → modelled e) →
  outcome (r, h) = private_outcome base (r, h).
Proof.
  unfold outcome, private_outcome. cbn [fst snd]. destruct r as [e|v]; [done|].
  destruct (private_snapshot base snapshot_depth h v) as [t|] eqn:Hp.
  - intros _. by rewrite (private_snapshot_snapshot _ _ _ _ _ Hp).
  - intros Hmodelled. by destruct (Hmodelled _ eq_refl).
Qed.

(** X19. What [load_metadata] returns is made of objects of its own:
    from a heap in which the table is untouched, the call changes no
    object that was there before, and the returned dict, read through the
    objects made during the call alone, is the whole answer. So writing
    to any object that was there before the call, the table included,
    does not change what the returned dict reads; and writing to an object
    made by the call leaves the table untouched. *)
Theorem load_metadata_result_is_fresh fs self key (h h' : list obj) r l o :
  table_intact h →
  load_metadata fs self key h = (r, h') →
  (∃ new, h' = h ++ new)
  ∧ private_outcome (length h) (r, h') = metadata_tree fs self key
  ∧ ((l < length h)%nat → outcome (r, <[l:=o]> h') = outcome (r, h'))
  ∧ ((length h ≤ l)%nat → table_intact (<[l:=o]> h')).
Proof.
  intros Hh Hrun.
  destruct (load_metadata_private_run fs self key h Hh)
    as (new & r' & Hrun' & Hout).
  rewrite app_nil_r, Hrun in Hrun'. injection Hrun' as <- ->.
  split; [by exists new|]. split; [exact Hout|].
  assert (∀ e, private_outcome (length h) (r, h ++ new) = inl e → modelled e)
    as Hmodelled.
  { intros e He. rewrite Hout in He.
    by apply (metadata_tree_modelled fs self key). }
  split.
  - intros Hl. rewrite (private_outcome_outcome (length h) r (h ++ new) Hmodelled).
    rewrite (private_outcome_outcome (length h) r (<[l:=o]> (h ++ new))).
    + unfold private_outcome. cbn [fst snd]. destruct r as [e|v]; [done|].
      by rewrite private_snapshot_insert.
    + intros e. unfold private_outcome. cbn [fst snd].
      destruct r as [e'|v].
      * intros [= <-]. by apply Hmodelled.
      * rewrite private_snapshot_insert by done.
        intros He. apply Hmodelled. unfold private_outcome. cbn [fst snd].
        exact He.
  - intros Hl. rewrite insert_app_r_alt by done. by apply table_intact_app.
Qed.

Lemma load_metadata_result_is_fresh_witness :
  ∃ r h',
    load_metadata (house_fs smoke_labels []) redd (KPath (meter_key 1 9))
      module_heap = (r, h')
    ∧ private_outcome (length module_heap) (r, h') =
      metadata_tree (house_fs smoke_labels []) redd (KPath (meter_key 1 9))
    ∧ outcome (r, <[34%nat:=ODict []]> h') = outcome (r, h').
Proof.
  eexists _, _. split; [vm_compute; reflexivity|].
  lazymatch goal with
  | |- private_outcome _ (?r, ?h') = _ ∧ _ =>
      destruct (load_metadata_result_is_fresh (house_fs smoke_labels []) redd
                  (KPath (meter_key 1 9)) module_heap h' r 34%nat (ODict []))
        as (_ & Hprivate & Hwrite & _)
  end.
  - reflexivity.
  - vm_compute. reflexivity.
  - split; [exact Hprivate|]. apply Hwrite. vm_compute. lia.
Defined.

(** ** File names *)

Lemma format_d_nonempty n : format_d n ≠ "".
Proof.
  intros Hempty. pose proof (py_int_format_d n) as Hint.
  rewrite Hempty in Hint. discriminate.
Qed.

Lemma ends_with_slash_app s1 s2 :
  s2 ≠ "" → ends_with_slash (s1 +:+ s2) = ends_with_slash s2.
Proof.
  intros Hs2. induction s1 as [|a s1 IH]; [done|].
  rewrite append_cons. cbn [ends_with_slash]. rewrite IH.
  destruct (s1 +:+ s2) eqn:Happ; [|done].
  destruct s1; [by destruct Hs2|discriminate].
Qed.

Lemma ends_with_slash_forall s :
  string_forall (λ c, negb (Ascii.eqb c "/")) s = true →
  ends_with_slash s = false.
Proof.
  induction s as [|a s IH]; cbn [string_forall ends_with_slash]; [done|].
  intros [Ha Hs]%andb_true_iff. apply negb_true_iff in Ha.
  destruct s; [done|]. by apply IH.
Qed.

Lemma path_join_relative a b :
  starts_with_slash b = false → path_join a b = join_prefix a +:+ b.
Proof.
  intros Hb. unfold path_join, join_prefix. rewrite Hb.
  destruct (bool_decide (a = "") || ends_with_slash a); [done|].
  by rewrite append_assoc.
Qed.

Lemma house_path_shape fs self key_obj p :
  _path_for_house fs self key_obj = inr p →
  p = (join_prefix (path self) +:+ "house_") +:+ format_d (building key_obj)
  ∧ join_prefix p = p +:+ "/".
Proof.
  unfold _path_for_house. case_match; [|done]. intros [= <-].
  rewrite path_join_relative by done.
  rewrite <- (append_assoc (join_prefix (path self)) "house_").
  split; [done|]. unfold join_prefix at 1.
  rewrite bool_decide_false.
  2: { intros Hempty. destruct (join_prefix (path self)); discriminate. }
  rewrite ends_with_slash_app by apply format_d_nonempty.
  rewrite ends_with_slash_forall; [done|].
  apply format_d_forall; [done|].
  by apply (pretty_N_char_cases (λ c, negb (Ascii.eqb c "/"))).
Qed.

Lemma split_format_d sep n rest :
  sep ≠ "-"%char →
  (∀ r, pretty_N_char r ≠ sep) →
  split sep (format_d n +:+ String sep rest) = format_d n :: split sep rest.
Proof.
  intros Hdash Hdigit. apply split_app. apply format_d_forall.
  - apply negb_true_iff, Ascii.eqb_neq. congruence.
  - intros r. apply negb_true_iff, Ascii.eqb_neq. apply Hdigit.
Qed.

Lemma pretty_N_char_ne (sep : ascii) :
  bool_decide (sep ∈ ["0"; "1"; "2"; "3"; "4"; "5"; "6"; "7"; "8"; "9"]%char)
  = false →
  ∀ r, pretty_N_char r ≠ sep.
Proof.
  intros Hsep r Heq. subst sep. unfold pretty_N_char in Hsep.
  by repeat case_match.
Qed.

Lemma format_d_app_inj sep n n' rest rest' :
  sep ≠ "-"%char →
  (∀ r, pretty_N_char r ≠ sep) →
  format_d n +:+ String sep rest = format_d n' +:+ String sep rest' →
  n = n' ∧ rest = rest'.
Proof.
  intros Hdash Hdigit Heq.
  assert (n = n') as <-.
  { apply (f_equal (λ s, head (split sep s))) in Heq. cbv beta in Heq.
    rewrite !split_format_d in Heq by done. cbn [head] in Heq.
    apply (inj Some) in Heq. by apply (inj pretty) in Heq. }
  split; [done|].
  apply (inj (String.append (format_d n))) in Heq. by injection Heq.
Qed.

(** X20. No two meters read the same file: the channel files that [load]
    opens for two keys coincide only when the keys have the same building
    and the same meter, whatever the path of the store is. *)
Theorem channel_files_are_distinct fs self k1 k2 p1 p2 m1 m2 :
  _path_for_house fs self k1 = inr p1 →
  _path_for_house fs self k2 = inr p2 →
  path_join p1 ("channel_" +:+ format_d m1 +:+ ".dat") =
  path_join p2 ("channel_" +:+ format_d m2 +:+ ".dat") →
  building k1 = building k2 ∧ m1 = m2.
Proof.
  intros [Hp1 Hj1]%house_path_shape [Hp2 Hj2]%house_path_shape.
  rewrite !path_join_relative by done. rewrite Hj1, Hj2, Hp1, Hp2.
  rewrite !append_assoc. intros Heq.
  apply (inj (String.append (join_prefix (path self)))) in Heq.
  apply (inj (String.append "house_")) in Heq.
  change ("/" +:+ "channel_" +:+ format_d m1 +:+ ".dat")
    with (String "/" ("channel_" +:+ format_d m1 +:+ String "." "dat")) in Heq.
  change ("/" +:+ "channel_" +:+ format_d m2 +:+ ".dat")
    with (String "/" ("channel_" +:+ format_d m2 +:+ String "." "dat")) in Heq.
  apply format_d_app_inj in Heq as [Hb Hrest];
    [|done|by apply pretty_N_char_ne].
  split; [exact Hb|].
  apply (inj (String.append "channel_")) in Hrest.
  apply format_d_app_inj in Hrest as [Hm _];
    [done|done|by apply pretty_N_char_ne].
Qed.

Lemma channel_files_are_distinct_witness :
  path_join "/data/REDD/house_1" ("channel_" +:+ format_d 5 +:+ ".dat") =
  "/data/REDD/house_1/channel_5.dat"
  ∧ building (meter_key 1 5) = building (meter_key 1 5) ∧ 5 = 5.
Proof.
  split; [reflexivity|].
  apply (channel_files_are_distinct (house_fs smoke_labels unsorted_channel)
           redd (meter_key 1 5) (meter_key 1 5)
           "/data/REDD/house_1" "/data/REDD/house_1" 5 5).
  - vm_compute. reflexivity.
  - vm_compute. reflexivity.
  - reflexivity.
Defined.

(** ** Labels are stripped *)

Lemma rstrip_rstrip s : rstrip (rstrip s) = rstrip s.
Proof.
  induction s as [|a s IH]; [done|]. cbn [rstrip].
  destruct (rstrip s) as [|b r] eqn:Hr.
  - destruct (is_space a) eqn:Ha; [done|]. cbn [rstrip]. by rewrite Ha.
  - cbn [rstrip] in *. rewrite IH. done.
Qed.

Lemma lstrip_head s :
  match lstrip s with
  | EmptyString => True
  | String a _ => is_space a = false
  end.
Proof.
  induction s as [|a s IH]; cbn [lstrip]; [done|].
  by destruct (is_space a) eqn:Ha.
Qed.

Lemma rstrip_head a s :
  is_space a = false → ∃ r, rstrip (String a s) = String a r.
Proof.
  intros Ha. cbn [rstrip]. rewrite Ha. destruct (rstrip s); by eexists.
Qed.

Lemma strip_strip s : strip (strip s) = strip s.
Proof.
  unfold strip. pose proof (lstrip_head s) as Hhead.
  destruct (lstrip s) as [|a u]; [done|].
  destruct (rstrip_head a u Hhead) as [r Hr]. rewrite Hr.
  cbn [lstrip]. rewrite Hhead, <- Hr. apply rstrip_rstrip.
Qed.

Lemma dict_set_Forall {K V} `{EqDecision K} (P : V → Prop) (k : K) (v : V) d :
  P v → Forall (λ kv, P kv.2) d → Forall (λ kv, P kv.2) (dict_set k v d).
Proof.
  intros Hv. induction 1 as [|[k' v'] d Hkv Hd IH]; cbn [dict_set].
  - by repeat constructor.
  - case_decide; constructor; done.
Qed.

Lemma parse_label_line_strip line n l :
  parse_label_line line = inr (n, l) → strip l = l.
Proof.
  unfold parse_label_line. repeat case_match; try done.
  intros [= _ <-]. apply strip_strip.
Qed.

Lemma labels_of_lines_strip lines labels labels' :
  Forall (λ kv : Z * string, strip kv.2 = kv.2) labels →
  labels_of_lines labels lines = inr labels' →
  Forall (λ kv : Z * string, strip kv.2 = kv.2) labels'.
Proof.
  revert labels. induction lines as [|line lines IH]; intros labels Hall;
    cbn [labels_of_lines].
  - by intros [= <-].
  - destruct (parse_label_line line) as [e|[n l]] eqn:Hline; [done|].
    apply IH. apply (dict_set_Forall (λ l, strip l = l)); [|done].
    by apply (parse_label_line_strip line n).
Qed.

(** X21. The labels that [load_labels] returns are stripped: stripping
    one again changes nothing, on the left and on the right, so no label
    starts or ends with white space, whatever the line ends of the file
    are. *)
Theorem load_labels_are_stripped fs data_dir labels n l :
  load_labels fs data_dir = inr labels →
  dict_get n labels = Some l →
  strip l = l ∧ lstrip l = l ∧ rstrip l = l.
Proof.
  intros Hlabels Hl.
  assert (strip l = l) as Hstrip.
  { pose proof (load_labels_NoDup _ _ _ Hlabels) as Hnodup.
    unfold load_labels, rbind in Hlabels.
    destruct (readlines fs _) as [|lines]; [done|].
    apply labels_of_lines_strip in Hlabels; [|constructor].
    rewrite Forall_forall in Hlabels.
    apply (Hlabels (n, l)). by apply dict_get_Some. }
  split; [exact Hstrip|]. split.
  - pose proof (lstrip_head l) as Hhead. unfold strip in Hstrip.
    destruct (lstrip l) as [|a u] eqn:Hu.
    + cbn [rstrip] in Hstrip. by subst l.
    + destruct (rstrip_head a u Hhead) as [r Hr]. rewrite Hr in Hstrip.
      subst l. cbn [lstrip] in Hu. by rewrite Hhead in Hu.
  - rewrite <- Hstrip. unfold strip. apply rstrip_rstrip.
Qed.

Lemma load_labels_are_stripped_witness :
  dict_get 3 [(1, "mains"); (3, "stove"); (2, "mains")] = Some "stove"
  ∧ strip "stove" = "stove".
Proof.
  split; [reflexivity|].
  apply (load_labels_are_stripped (house_fs repeated_labels [])
           "/data/REDD/house_1" [(1, "mains"); (3, "stove"); (2, "mains")]
           3 "stove").
  - vm_compute. reflexivity.
  - reflexivity.
Defined.

(** ** The fields of every meter *)

Lemma submeter_tree_fields l entry b m instance :
  table_entry l = Some entry →
  dict_get (AStr "device_model") (tree_items (submeter_tree b m entry instance))
  = Some (TAtom (AStr "eMonitor"))
  ∧ dict_get (AStr "instance") (tree_items (submeter_tree b m entry instance))
    = Some (TAtom (AInt m))
  ∧ dict_get (AStr "building") (tree_items (submeter_tree b m entry instance))
    = Some (TAtom (AInt b))
  ∧ dict_get (AStr "dataset") (tree_items (submeter_tree b m entry instance))
    = Some (TAtom (AStr "REDD")).
Proof.
  intros Hin%table_entry_cases.
  unfold MAP_items, MAP_literal in Hin.
  repeat (apply elem_of_cons in Hin as [Hin|Hin]; [injection Hin as -> ->|]).
  all: try (by apply elem_of_nil in Hin).
  all: repeat split; reflexivity.
Qed.

Lemma metadata_tree_meter_fields fs self key_obj m t :
  meter key_obj = Some m →
  metadata_tree fs self (KPath key_obj) = inr t →
  dict_get (AStr "device_model") (tree_items t) =
  Some (TAtom (AStr (if m =? 1 then "REDD_whole_house" else "eMonitor")))
  ∧ dict_get (AStr "instance") (tree_items t) = Some (TAtom (AInt m))
  ∧ dict_get (AStr "building") (tree_items t) =
    Some (TAtom (AInt (building key_obj)))
  ∧ dict_get (AStr "dataset") (tree_items t) = Some (TAtom (AStr "REDD")).
Proof.
  intros Hm. unfold metadata_tree. rewrite Hm.
  destruct (negb _); [done|].
  destruct (m =? 1) eqn:Hm1.
  { apply Z.eqb_eq in Hm1 as ->. intros [= <-]. repeat split; reflexivity. }
  destruct (m =? 2); [done|]. unfold rbind.
  destruct (_path_for_house fs self key_obj) as [|p]; [done|].
  destruct (load_labels fs p) as [|labels]; [done|].
  destruct (dict_get m labels) as [l|]; [|done].
  destruct (table_entry l) as [entry|] eqn:Hentry; [|done].
  destruct (entry_appliances entry).
  - intros [= <-]. by apply (submeter_tree_fields l).
  - destruct (count_instance labels l 1 (range 1 m)) as [|instance]; [done|].
    intros [= <-]. by apply (submeter_tree_fields l).
Qed.

(** X22. Every dict that [load_metadata] returns for a meter has the
    meter's own fields, which no table entry replaces: 'instance' is the
    meter, 'building' the building, 'dataset' 'REDD', and 'device_model'
    is 'REDD_whole_house' for meter 1 and 'eMonitor' for every other
    meter; and the model it names is one of the 'meter_devices' that the
    metadata of the dataset (key '/') describes. *)
Theorem meter_metadata_fixed_fields fs self key_obj m (h h' : list obj) v t :
  table_intact h →
  meter key_obj = Some m →
  load_metadata fs self (KPath key_obj) h = (inr v, h') →
  snapshot snapshot_depth h' v = Some t →
  ∃ model,
    dict_get (AStr "device_model") (tree_items t) = Some (TAtom (AStr model))
    ∧ dict_get (AStr "instance") (tree_items t) = Some (TAtom (AInt m))
    ∧ dict_get (AStr "building") (tree_items t) =
      Some (TAtom (AInt (building key_obj)))
    ∧ dict_get (AStr "dataset") (tree_items t) = Some (TAtom (AStr "REDD"))
    ∧ (model = "REDD_whole_house" ↔ m = 1)
    ∧ ∃ v0 h0 items0 devices,
        load_metadata fs self KSlash h' = (inr v0, h0)
        ∧ snapshot snapshot_depth h0 v0 = Some (TDict items0)
        ∧ dict_get (AStr "meter_devices") items0 = Some (TDict devices)
        ∧ is_Some (dict_get (AStr model) devices).
Proof.
  intros Hh Hm Hrun Hsnap.
  destruct (load_metadata_outcome fs self (KPath key_obj) h Hh)
    as (new & Hnew & Hout).
  rewrite Hrun in Hout, Hnew. cbn [snd] in Hnew.
  unfold outcome in Hout. cbn [fst snd] in Hout. rewrite Hsnap in Hout.
  symmetry in Hout.
  destruct (metadata_tree_meter_fields fs self key_obj m t Hm Hout)
    as (Hmodel & Hinstance & Hbuilding & Hdataset).
  assert (table_intact h') as Hh' by (rewrite Hnew; by apply table_intact_app).
  destruct (load_metadata_inr fs self KSlash h' dataset_literal Hh' eq_refl)
    as (v0 & h0 & Hrun0 & Hsnap0).
  exists (if m =? 1 then "REDD_whole_house" else "eMonitor").
  do 4 (split; [done|]). split.
  - destruct (m =? 1) eqn:Hm1.
    + apply Z.eqb_eq in Hm1. done.
    + apply Z.eqb_neq in Hm1. done.
  - exists v0, h0, (tree_items dataset_literal).
    eexists. split; [exact Hrun0|]. split; [exact Hsnap0|].
    split; [reflexivity|]. by destruct (m =? 1).
Qed.

Lemma meter_metadata_fixed_fields_witness :
  ∃ v h' t model,
    load_metadata (house_fs smoke_labels []) redd (KPath (meter_key 1 7))
      module_heap = (inr v, h')
    ∧ snapshot snapshot_depth h' v = Some t
    ∧ dict_get (AStr "device_model") (tree_items t) = Some (TAtom (AStr model))
    ∧ dict_get (AStr "instance") (tree_items t) = Some (TAtom (AInt 7))
    ∧ (model = "REDD_whole_house" ↔ 7 = 1).
Proof.
  eexists _, _, _.
  lazymatch goal with
  | |- ∃ model, ?call = (inr ?v, ?h') ∧ snapshot _ _ _ = Some ?t ∧ _ =>
      assert (call = (inr v, h')) as Hrun by (vm_compute; reflexivity);
      assert (snapshot snapshot_depth h' v = Some t) as Hsnap
        by (vm_compute; reflexivity);
      destruct (meter_metadata_fixed_fields (house_fs smoke_labels []) redd
                  (meter_key 1 7) 7 module_heap h' v t)
        as (model & Hmodel & Hinstance & _ & _ & Hiff & _)
  end.
  - reflexivity.
  - reflexivity.
  - exact Hrun.
  - exact Hsnap.
  - exists model. split; [exact Hrun|]. split; [exact Hsnap|].
    split; [exact Hmodel|]. split; [exact Hinstance|exact Hiff].
Defined.

(** ** The utility of a key *)

Section utility_facts.
Context {V : Type}.
Variable read_csv : list string → result (list (Z * V)).
Variable to_datetime : Z → Z.
Variable n_look_ahead_rows : nat.

(** X23. The name of the utility in a key is never looked at: two keys
    with the same building and meter get the same metadata and the same
    readings whatever their utilities are, and [elements_below_key] lists
    the same meters below every utility name. *)
Theorem utility_name_is_ignored fs self b m u u' name name' periods
    (h : list obj) :
  load_metadata fs self
    (KPath {| building := b; meter := m; utility := u |}) h =
  load_metadata fs self
    (KPath {| building := b; meter := m; utility := u' |}) h
  ∧ load read_csv to_datetime n_look_ahead_rows fs self
      {| building := b; meter := m; utility := u |} periods =
    load read_csv to_datetime n_look_ahead_rows fs self
      {| building := b; meter := m; utility := u' |} periods
  ∧ elements_below_key fs self
      (Some (KPath {| building := b; meter := m; utility := Some name |})) =
    elements_below_key fs self
      (Some (KPath {| building := b; meter := m; utility := Some name' |})).
Proof. split; [reflexivity|]. split; reflexivity. Qed.
End utility_facts.

(** ** Calls that do not interfere *)

(** X24. Calls of [load_metadata] do not disturb one another: after a
    call for one key, a call for any key, on any store and files, answers
    as it would on its own, and the dict that the first call returned
    still reads the same afterwards. *)
Theorem successive_calls_are_independent fs1 fs2 self1 self2 key1 key2
    (h h1 h2 : list obj) r1 r2 :
  table_intact h →
  load_metadata fs1 self1 key1 h = (r1, h1) →
  load_metadata fs2 self2 key2 h1 = (r2, h2) →
  outcome (r2, h2) = metadata_tree fs2 self2 key2
  ∧ outcome (r1, h2) = outcome (r1, h1)
  ∧ table_intact h2.
Proof.
  intros Hh Hrun1 Hrun2.
  destruct (load_metadata_outcome fs1 self1 key1 h Hh) as (new1 & Hh1 & Hout1).
  rewrite Hrun1 in Hh1, Hout1. cbn [snd] in Hh1.
  assert (table_intact h1) as Hi1 by (rewrite Hh1; by apply table_intact_app).
  destruct (load_metadata_outcome fs2 self2 key2 h1 Hi1)
    as (new2 & Hh2 & Hout2).
  rewrite Hrun2 in Hh2, Hout2. cbn [snd] in Hh2.
  split; [exact Hout2|]. split; [|rewrite Hh2; by apply table_intact_app].
  rewrite Hh2. destruct (outcome (r1, h1)) as [e|t] eqn:Ho.
  - unfold outcome in *. cbn [fst snd] in *. destruct r1 as [e'|v]; [exact Ho|].
    destruct (snapshot snapshot_depth h1 v); [discriminate|].
    symmetry in Hout1. apply metadata_tree_modelled in Hout1.
    by injection Ho as <-.
  - by apply outcome_app.
Qed.

Lemma successive_calls_are_independent_witness :
  ∃ r1 h1 r2 h2,
    load_metadata (house_fs smoke_labels []) redd (KPath (meter_key 1 9))
      module_heap = (r1, h1)
    ∧ load_metadata (house_fs zero_labels []) redd (KPath (meter_key 1 3))
        h1 = (r2, h2)
    ∧ outcome (r2, h2) =
      metadata_tree (house_fs zero_labels []) redd (KPath (meter_key 1 3))
    ∧ outcome (r1, h2) = outcome (r1, h1)
    ∧ table_intact h2.
Proof.
  eexists _, _, _, _.
  split; [vm_compute; reflexivity|]. split; [vm_compute; reflexivity|].
  apply (successive_calls_are_independent
           (house_fs smoke_labels []) (house_fs zero_labels []) redd redd
           (KPath (meter_key 1 9)) (KPath (meter_key 1 3)) module_heap).
  - reflexivity.
  - vm_compute. reflexivity.
  - vm_compute. reflexivity.
Defined.

(** X25. Of the disk [load_metadata] looks at the house directory and at
    labels.dat, and at nothing else: on two disks that agree on these two
    it gives the same answer, whatever the channel files hold. *)
Theorem load_metadata_reads_label_file_only fs fs' self key_obj
    (h : list obj) :
  table_intact h →
  isdir fs (path_join (path self) ("house_" +:+ format_d (building key_obj))) =
  isdir fs' (path_join (path self) ("house_" +:+ format_d (building key_obj))) →
  readlines fs
    (path_join (path_join (path self)
                  ("house_" +:+ format_d (building key_obj))) "labels.dat") =
  readlines fs'
    (path_join (path_join (path self)
                  ("house_" +:+ format_d (building key_obj))) "labels.dat") →
  outcome (load_metadata fs self (KPath key_obj) h) =
  outcome (load_metadata fs' self (KPath key_obj) h).
Proof.
  intros Hh Hdir Hfile.
  destruct (load_metadata_outcome fs self (KPath key_obj) h Hh)
    as (new & _ & ->).
  destruct (load_metadata_outcome fs' self (KPath key_obj) h Hh)
    as (new' & _ & ->).
  unfold metadata_tree, _path_for_house, load_labels.
  rewrite <- Hdir. destruct (isdir fs _); [|done]. cbn [rbind].
  by rewrite Hfile.
Qed.

Lemma load_metadata_reads_label_file_only_witness :
  outcome (load_metadata (house_fs smoke_labels []) redd
             (KPath (meter_key 1 5)) module_heap) =
  outcome (load_metadata (house_fs smoke_labels unsorted_channel) redd
             (KPath (meter_key 1 5)) module_heap).
Proof.
  apply (load_metadata_reads_label_file_only (house_fs smoke_labels [])
           (house_fs smoke_labels unsorted_channel) redd (meter_key 1 5)
           module_heap).
  - reflexivity.
  - reflexivity.
  - reflexivity.
Defined.

(** ** A channel file in time order *)

Lemma sort_index_sorted_id {V} (l : list (Z * V)) :
  StronglySorted Z.lt (l.*1) → sort_index l = l.
Proof.
  induction l as [|r l IH]; [done|].
  cbn [fmap list_fmap]. intros [Hall Hl]%StronglySorted_cons.
  cbn [sort_index foldr]. fold (sort_index l). rewrite (IH Hl).
  destruct l as [|r' l']; [done|]. cbn [insert_row].
  apply Forall_cons in Hall as [Hlt _]. cbn in Hlt.
  replace (r.1 <=? r'.1) with true by (symmetry; apply Z.leb_le; lia). done.
Qed.

Section sorted_channel.
Context {V : Type}.
Variable read_csv : list string → result (list (Z * V)).
Variable to_datetime : Z → Z.
Variable n_look_ahead_rows : nat.

(** X26. A channel file whose rows are in ascending time order, no time
    twice, is yielded as it is: without time windows [load] yields the
    rows of the file in file order, each with its time converted. *)
Theorem sorted_channel_is_kept fs self key_obj p m lines raw :
  _path_for_house fs self key_obj = inr p →
  meter key_obj = Some m →
  readlines fs (path_join p ("channel_" +:+ format_d m +:+ ".dat")) = inr lines →
  read_csv lines = inr raw →
  raw ≠ [] →
  StronglySorted Z.lt (raw.*1) →
  ∃ df,
    load read_csv to_datetime n_look_ahead_rows fs self key_obj None = inr [df]
    ∧ rows df = prod_map to_datetime id <$> raw.
Proof.
  intros Hp Hm Hlines Hcsv Hraw Hsorted.
  destruct (read_frame_ok read_csv to_datetime fs self key_obj p m lines raw
              Hp Hm Hlines Hcsv Hraw) as (df & Hframe & Hrows).
  exists df. unfold load. rewrite Hframe. split; [done|].
  rewrite Hrows. unfold channel_frame. by rewrite sort_index_sorted_id.
Qed.
End sorted_channel.

Lemma sorted_channel_is_kept_witness :
  ∃ df,
    load text_csv to_ns 2
      (house_fs smoke_labels
         [ "1303132929 10.0" +:+ nl; "1303132930 9.5" +:+ nl ])
      redd (meter_key 1 5) None = inr [df]
    ∧ rows df =
      [ (1303132929000000000, "10.0"); (1303132930000000000, "9.5") ].
Proof.
  apply (sorted_channel_is_kept text_csv to_ns 2
           (house_fs smoke_labels
              [ "1303132929 10.0" +:+ nl; "1303132930 9.5" +:+ nl ])
           redd (meter_key 1 5) "/data/REDD/house_1" 5
           [ "1303132929 10.0" +:+ nl; "1303132930 9.5" +:+ nl ]
           [ (1303132929, "10.0"); (1303132930, "9.5") ]).
  - vm_compute. reflexivity.
  - reflexivity.
  - vm_compute. reflexivity.
  - vm_compute. reflexivity.
  - discriminate.
  - repeat constructor.
Defined.
